(** * Offline-first request cache and sync engine of the time tracker

    A shallow embedding of the service worker ([public/sw.js]), of the
    mobile core ([public/js/mobile-core.js]), of the mobile application
    ([public/js/mobile-app.js]) and of the page script that shares a file
    with the mobile core, together with the properties of the request
    router, the cache strategies, the offline response synthesizer, the
    in-memory API cache and the drain of the pending-action queues.

    JavaScript values are modelled by a small tree type, HTTP responses and
    requests by records, [Map] objects by [gmap], the Cache Storage by an
    ordered list of named stores, and asynchronous functions by state
    passing functions that return either a value or the thrown error. *)

From Stdlib Require Import ZArith Ascii String List Bool Lia.
From Stdlib Require Import Decimal DecimalString DecimalPos DecimalZ.
From stdpp Require Import base option list gmap strings.

Set Warnings "-register-all".

(* ================================================================== *)
(** * Part I: definitions                                               *)
(* ================================================================== *)

(** ** Strings of the host language *)

Module JSString.

(** [s.startsWith(p)] *)
Definition startsWith (s p : string) : bool := String.prefix p s.

(** [s.endsWith(p)]: the last [length p] characters of [s] are [p]. *)
Definition endsWith (s p : string) : bool :=
  let n := String.length s in
  let m := String.length p in
  (m <=? n)%nat && String.eqb (String.substring (n - m) m s) p.

(** [s.includes(p)] *)
Fixpoint includes (s p : string) : bool :=
  String.prefix p s ||
  match s with
  | EmptyString => false
  | String _ s' => includes s' p
  end.

(** [Array.prototype.some] *)
Definition some {A} (f : A -> bool) (l : list A) : bool := existsb f l.

Definition lower_ascii (c : ascii) : ascii :=
  let n := nat_of_ascii c in
  if ((65 <=? n) && (n <=? 90))%nat then ascii_of_nat (n + 32) else c.

(** ASCII lower-casing, as the [Headers] object applies it to names. *)
Fixpoint lower (s : string) : string :=
  match s with
  | EmptyString => EmptyString
  | String c s' => String (lower_ascii c) (lower s')
  end.

(** Decimal rendering of an integer, as [String(n)] gives it. *)
Definition of_Z (z : Z) : string := NilEmpty.string_of_int (Z.to_int z).



(** [encodeURIComponent]: a text being kept as its UTF-8 bytes, every byte
    outside the unreserved set becomes one escape of the shape [%XX]. *)
Definition is_unreserved (c : ascii) : bool :=
  let n := nat_of_ascii c in
  ((65 <=? n) && (n <=? 90))%nat || ((97 <=? n) && (n <=? 122))%nat ||
  ((48 <=? n) && (n <=? 57))%nat ||
  existsb (Nat.eqb n) [ 45; 95; 46; 33; 126; 42; 39; 40; 41 ]%nat.   (* - _ . ! ~ * ' ( ) *)

Definition upper_hex (n : nat) : ascii :=
  if (n <? 10)%nat then ascii_of_nat (48 + n) else ascii_of_nat (55 + n).

Definition encode_byte (c : ascii) : string :=
  if is_unreserved c then String c EmptyString
  else
    let n := nat_of_ascii c in
    String "%" (String (upper_hex (n / 16)) (String (upper_hex (n mod 16)) EmptyString)).

Fixpoint encodeURIComponent (s : string) : string :=
  match s with
  | EmptyString => EmptyString
  | String c s' => encode_byte c +:+ encodeURIComponent s'
  end.

(** The value of a hexadecimal digit, and [decodeURIComponent] on bytes:
    the way the server reads a parameter of the path back. *)
Definition hex_digit_value (c : ascii) : nat :=
  let n := nat_of_ascii c in
  if (n <? 58)%nat then n - 48 else if (n <? 71)%nat then n - 55 else n - 87.

Fixpoint decodeURIComponent (s : string) : string :=
  match s with
  | EmptyString => EmptyString
  | String c rest =>
      if Ascii.eqb c "%" then
        match rest with
        | String h (String l rest') =>
            String (ascii_of_nat (16 * hex_digit_value h + hex_digit_value l))
                   (decodeURIComponent rest')
        | _ => String c (decodeURIComponent rest)
        end
      else String c (decodeURIComponent rest)
  end.

(** The fields of a header value that lists several, one per comma, and
    the text without the blanks around it. *)
Fixpoint split_commas (s : string) : list string :=
  match s with
  | EmptyString => [EmptyString]
  | String c s' =>
      if Ascii.eqb c "," then EmptyString :: split_commas s'
      else match split_commas s' with
           | field :: fields => String c field :: fields
           | [] => [String c EmptyString]
           end
  end.

Definition is_blank (c : ascii) : bool := Ascii.eqb c " " || Ascii.eqb c "009".

Fixpoint trim_start (s : string) : string :=
  match s with
  | EmptyString => EmptyString
  | String c s' => if is_blank c then trim_start s' else s
  end.

Fixpoint trim_end (s : string) : string :=
  match s with
  | EmptyString => EmptyString
  | String c s' =>
      match trim_end s' with
      | EmptyString => if is_blank c then EmptyString else String c EmptyString
      | t => String c t
      end
  end.

Definition trim (s : string) : string := trim_end (trim_start s).

End JSString.

(** ** Values and [JSON.stringify] *)

Module JS.
Import JSString.

(** The values the modelled code passes around.  A number is an integer
    that a double holds exactly and prints digit by digit (below 2^53 in
    size): the numbers the code builds itself are counters and status
    codes; a fractional number, such as a coordinate, and the numbers that
    print with an exponent are outside the model.  An object is the list
    of its own properties in insertion order. *)
Inductive Value : Type :=
| Undefined
| Null
| Bool (b : bool)
| Num (n : Z)
| Str (s : string)
| Arr (items : list Value)
| Obj (props : list (string * Value)).

(** [ToBoolean]: the values that count as false in [a || b]. *)
Definition truthy (v : Value) : bool :=
  match v with
  | Undefined | Null => false
  | Bool b => b
  | Num n => negb (n =? 0)%Z
  | Str s => negb (String.eqb s EmptyString)
  | Arr _ | Obj _ => true
  end.

(** [v === null] *)
Definition is_null (v : Value) : bool :=
  match v with
  | Null => true
  | _ => false
  end.

(** [a || b] *)
Definition or_else (a b : Value) : Value := if truthy a then a else b.

(** Property read [o.k]; a missing property reads as [undefined]. *)
Fixpoint lookup_prop (k : string) (props : list (string * Value)) : Value :=
  match props with
  | [] => Undefined
  | (k', v) :: rest => if String.eqb k k' then v else lookup_prop k rest
  end.

Definition get (v : Value) (k : string) : Value :=
  match v with
  | Obj props => lookup_prop k props
  | _ => Undefined
  end.

Definition has_own (v : Value) (k : string) : bool :=
  match v with
  | Obj props => existsb (fun p => String.eqb k (fst p)) props
  | _ => false
  end.

Definition dquote : ascii := ascii_of_nat 34.
Definition backslash : ascii := ascii_of_nat 92.

Definition hex_digit (n : nat) : ascii :=
  if (n <? 10)%nat then ascii_of_nat (48 + n) else ascii_of_nat (87 + n).

(** One character of a quoted JSON string. *)
Definition escape_char (c : ascii) : string :=
  let n := nat_of_ascii c in
  if (n =? 34)%nat then String backslash (String dquote EmptyString)
  else if (n =? 92)%nat then "\\"
  else if (n =? 8)%nat then "\b"
  else if (n =? 12)%nat then "\f"
  else if (n =? 10)%nat then "\n"
  else if (n =? 13)%nat then "\r"
  else if (n =? 9)%nat then "\t"
  else if (n <? 32)%nat then
    "\u00" +:+ String (hex_digit (n / 16)) (String (hex_digit (n mod 16)) EmptyString)
  else String c EmptyString.

Fixpoint escape (s : string) : string :=
  match s with
  | EmptyString => EmptyString
  | String c s' => escape_char c +:+ escape s'
  end.

Definition quote (s : string) : string :=
  String dquote (escape s +:+ String dquote EmptyString).

Definition join_comma (parts : list string) : string :=
  match parts with
  | [] => EmptyString
  | p :: rest => fold_left (fun acc x => acc +:+ "," +:+ x) rest p
  end.

(** [JSON.stringify] on a value that is part of a larger one: [None] is
    the [undefined] result, which an object drops together with its key
    and an array prints as [null]. *)
Fixpoint stringify_opt (v : Value) : option string :=
  match v with
  | Undefined => None
  | Null => Some "null"
  | Bool true => Some "true"
  | Bool false => Some "false"
  | Num n => Some (of_Z n)
  | Str s => Some (quote s)
  | Arr items =>
      Some ("[" +:+
            join_comma
              (map (fun x => match stringify_opt x with
                             | Some t => t
                             | None => "null"
                             end) items) +:+ "]")
  | Obj props =>
      Some ("{" +:+
            join_comma
              ((fix members (ps : list (string * Value)) : list string :=
                  match ps with
                  | [] => []
                  | (k, x) :: rest =>
                      match stringify_opt x with
                      | Some t => (quote k +:+ ":" +:+ t) :: members rest
                      | None => members rest
                      end
                  end) props) +:+ "}")
  end.

(** Interpolation of [JSON.stringify(v)] in a template literal. *)
Definition stringify (v : Value) : string :=
  match stringify_opt v with
  | Some t => t
  | None => "undefined"
  end.

(** [String(v)], as a template literal applies it; an array joins its
    items, an empty text standing for [null] and [undefined]. *)
Fixpoint to_string (v : Value) : string :=
  match v with
  | Undefined => "undefined"
  | Null => "null"
  | Bool true => "true"
  | Bool false => "false"
  | Num n => of_Z n
  | Str s => s
  | Arr items =>
      join_comma (map (fun x => match x with
                                | Undefined | Null => EmptyString
                                | _ => to_string x
                                end) items)
  | Obj _ => "[object Object]"
  end.









End JS.

(** ** Errors and results of asynchronous functions *)

Inductive Error : Type :=
| TypeError (msg : string)          (* what [fetch] rejects with *)
| PlainError (msg : string)         (* [new Error(msg)] *)
| ReferenceError (name : string)    (* an identifier that resolves nowhere *)
| StorageError (msg : string).      (* a failed IndexedDB or cache request *)

Definition error_message (e : Error) : string :=
  match e with
  | TypeError m | PlainError m | StorageError m => m
  | ReferenceError x => x +:+ " is not defined"
  end.

(** The settlement of a promise: fulfilled with a value or rejected. *)
Inductive result (A : Type) : Type :=
| Ok (a : A)
| Throw (e : Error).
Arguments Ok {A} a.
Arguments Throw {A} e.

(** A computation over a store [S]: an exception keeps the store as it was
    when the exception was raised. *)
Definition M (S A : Type) : Type := S -> result A * S.

Definition ret {S A} (a : A) : M S A := fun s => (Ok a, s).
Definition throw {S A} (e : Error) : M S A := fun s => (Throw e, s).
Definition bind {S A B} (m : M S A) (k : A -> M S B) : M S B :=
  fun s => match m s with
           | (Ok a, s') => k a s'
           | (Throw e, s') => (Throw e, s')
           end.
(** [try { m } catch (e) { h e }] *)
Definition try_catch {S A} (m : M S A) (h : Error -> M S A) : M S A :=
  fun s => match m s with
           | (Ok a, s') => (Ok a, s')
           | (Throw e, s') => h e s'
           end.
(** Awaiting something that settles to [r] and touches nothing. *)
Definition settle {S A} (r : result A) : M S A := fun s => (r, s).
Definition gets {S A} (f : S -> A) : M S A := fun s => (Ok (f s), s).
Definition modify {S} (f : S -> S) : M S unit := fun s => (Ok tt, f s).

(** [for (const x of l) { await f(x) }]: the first exception ends the loop. *)
Fixpoint for_each {S A} (l : list A) (f : A -> M S unit) : M S unit :=
  match l with
  | [] => ret tt
  | x :: rest => bind (f x) (fun _ => for_each rest f)
  end.

(** A promise looked at after it has settled, as [Promise.allSettled]
    does: the outcome is a value and nothing is thrown. *)
Definition settled {S A} (m : M S A) : M S (result A) :=
  fun s => let '(r, s') := m s in (Ok r, s').

(** A promise that is started and not awaited: what it does is done, and
    its rejection reaches no one. *)
Definition unawaited {S A} (m : M S A) : M S unit := fun s => (Ok tt, snd (m s)).

(** The property read [v.k] where [v] may be [null] or [undefined]: on
    those the read throws. *)
Definition read {S} (v : JS.Value) (k : string) : M S JS.Value :=
  match v with
  | JS.Undefined | JS.Null =>
      throw (TypeError ("Cannot read properties of " +:+ JS.to_string v))
  | _ => ret (JS.get v k)
  end.

#[global] Instance M_ret {S} : MRet (M S) := fun A a => ret a.
#[global] Instance M_bind {S} : MBind (M S) := fun A B k m => bind m k.

(* ------------------------------------------------------------------ *)
(** ** The service worker, [public/sw.js]                               *)
(* ------------------------------------------------------------------ *)

Module SW.
Import JSString.

Definition CACHE_NAME : string := "time-tracker-mobile-v1.2".
Definition STATIC_CACHE : string := "static-v1.2".
Definition API_CACHE : string := "api-v1.2".

Definition CACHEABLE_APIS : list string :=
  [ "/api/mobile/employees"; "/api/mobile/dashboard"; "/api/getLiffId";
    "/api/getTimeOffset"; "/api/getdata"; "/api/getemployee" ].

(** *** Requests, headers and responses *)

(** A [Headers] object: names are kept in lower case. *)
Definition Headers : Type := list (string * string).

Fixpoint Headers_get_lc (h : Headers) (name : string) : option string :=
  match h with
  | [] => None
  | (k, v) :: rest => if String.eqb k name then Some v else Headers_get_lc rest name
  end.
Definition Headers_get (h : Headers) (name : string) : option string :=
  Headers_get_lc h (lower name).

Fixpoint Headers_set_lc (h : Headers) (name value : string) : Headers :=
  match h with
  | [] => [(name, value)]
  | (k, v) :: rest =>
      if String.eqb k name then (k, value) :: rest
      else (k, v) :: Headers_set_lc rest name value
  end.
Definition Headers_set (h : Headers) (name value : string) : Headers :=
  Headers_set_lc h (lower name) value.

(** [new Headers(init)] from the properties of an object literal. *)
Definition Headers_of (init : list (string * string)) : Headers :=
  fold_left (fun h kv => Headers_set h (fst kv) (snd kv)) init [].

(** A request with its URL already split as [new URL(request.url)] does. *)
Record Request : Type := mkRequest {
  method : string;
  origin : string;
  pathname : string;
  search : string;
  destination : string;
  req_headers : Headers;
  req_body : option string
}.

(** [request.url], the key under which the Cache API files a response. *)
Definition url (r : Request) : string := origin r +:+ pathname r +:+ search r.

Record Response : Type := mkResponse {
  status : Z;
  statusText : string;
  headers : Headers;
  body : string
}.

(** [response.ok] *)
Definition ok (r : Response) : bool := ((200 <=? status r) && (status r <=? 299))%Z.

(** *** The world the worker runs in *)

(** A record of an object store created with [keyPath: 'id']. *)
Record Pending : Type := mkPending { id : Z; data : JS.Value }.

(** An object store with [autoIncrement: true]: the records in ascending
    key order, as [getAll] lists them, and the key generator. *)
Record ObjectStore : Type := mkStore {
  records : list Pending;
  keygen : Z
}.

Definition empty_store : ObjectStore := {| records := []; keygen := 0 |}.

Fixpoint insert_by_key (r : Pending) (l : list Pending) : list Pending :=
  match l with
  | [] => [r]
  | x :: rest => if (id r <? id x)%Z then r :: x :: rest else x :: insert_by_key r rest
  end.

(** Modelled from the spec: the enqueue of a pending action into one of
    the two stores of the worker, which no source file contains (nothing
    in the repository adds to [pendingClockIns] or [pendingClockOuts]).  The spec
    has the queue keep the order of insertion (sections 3, 4.4 and 5); the
    stores are created with [keyPath: 'id'] and [autoIncrement: true]
    ([openIndexedDB]), so a record added without a key of its own gets the
    next key of the generator. *)
Definition store_add (st : ObjectStore) (d : JS.Value) : ObjectStore :=
  let k := (keygen st + 1)%Z in
  {| records := insert_by_key {| id := k; data := d |} (records st); keygen := k |}.

(** [store.delete(key)] *)
Definition store_delete (st : ObjectStore) (k : Z) : ObjectStore :=
  {| records := List.filter (fun r => negb (id r =? k)%Z) (records st);
     keygen := keygen st |}.

(** The shape the database keeps a store in: keys strictly ascending, none
    above the generator. *)
Fixpoint ascending (l : list Pending) : bool :=
  match l with
  | [] => true
  | r :: rest => forallb (fun r' => (id r <? id r')%Z) rest && ascending rest
  end.

Definition store_ok (st : ObjectStore) : bool :=
  ascending (records st) && forallb (fun r => (id r <=? keygen st)%Z) (records st).

Record World : Type := mkWorld {
  caches : list (string * gmap string Response);   (* in creation order *)
  netlog : list Request;                           (* calls of [fetch], oldest first *)
  db : gmap string ObjectStore;                    (* TimeTrackerDB *)
  notifications : list (string * string)
}.

(** What the worker cannot decide: its origin, the answers of the
    network (which may depend on everything sent so far), the health of
    the database, and the date. *)
Record Env : Type := mkEnv {
  location_origin : string;
  network : list Request -> Request -> result Response;
  db_open : result unit;
  db_getAll : string -> result unit;
  db_delete : string -> Z -> result unit;
  can_notify : bool;
  today : string
}.

Definition set_caches (f : list (string * gmap string Response) ->
                           list (string * gmap string Response)) (w : World) : World :=
  {| caches := f (caches w); netlog := netlog w; db := db w;
     notifications := notifications w |}.
Definition set_netlog (f : list Request -> list Request) (w : World) : World :=
  {| caches := caches w; netlog := f (netlog w); db := db w;
     notifications := notifications w |}.
Definition set_db (f : gmap string ObjectStore -> gmap string ObjectStore)
    (w : World) : World :=
  {| caches := caches w; netlog := netlog w; db := f (db w);
     notifications := notifications w |}.
Definition set_notifications (f : list (string * string) -> list (string * string))
    (w : World) : World :=
  {| caches := caches w; netlog := netlog w; db := db w;
     notifications := f (notifications w) |}.

(** [fetch(request)]: one more call on the log, answered by the network. *)
Definition fetch (env : Env) (request : Request) : M World Response :=
  fun w => (network env (netlog w) request, set_netlog (fun l => l ++ [request]) w).

(** The network attempt for [request] fails: [fetch] rejects, or the
    response is not a success. *)
Definition network_failed (env : Env) (w : World) (request : Request) : Prop :=
  match network env (netlog w) request with
  | Ok response => ok response = false
  | Throw _ => True
  end.

(** *** Cache Storage *)

(** [caches.match(key)]: the first store, in creation order, that has it. *)
Fixpoint match_in (cs : list (string * gmap string Response)) (key : string)
    : option Response :=
  match cs with
  | [] => None
  | (_, c) :: rest =>
      match c !! key with
      | Some r => Some r
      | None => match_in rest key
      end
  end.

Definition caches_match (key : string) : M World (option Response) :=
  gets (fun w => match_in (caches w) key).

Definition has_cache (name : string) (cs : list (string * gmap string Response)) : bool :=
  existsb (fun nc => String.eqb (fst nc) name) cs.

Definition open_in (name : string) (cs : list (string * gmap string Response))
    : list (string * gmap string Response) :=
  if has_cache name cs then cs else cs ++ [(name, ∅)].

Definition put_in (name key : string) (r : Response)
    (cs : list (string * gmap string Response)) : list (string * gmap string Response) :=
  map (fun nc => if String.eqb (fst nc) name
                 then (fst nc, <[key := r]> (snd nc)) else nc) cs.

(** [caches.open(name)] creates the store when it does not exist. *)
Definition caches_open (name : string) : M World string :=
  fun w => (Ok name, set_caches (open_in name) w).

(** What the Cache API files.  The request is a GET over http or https;
    the response is not partial (status 206) and its [Vary] header does
    not name [*]. *)
Definition web_origin (o : string) : bool :=
  startsWith o "http://" || startsWith o "https://".

Definition cacheable_request (request : Request) : bool :=
  String.eqb (method request) "GET" && web_origin (origin request).

Definition vary_star (r : Response) : bool :=
  match Headers_get (headers r) "vary" with
  | Some fields => existsb (fun field => String.eqb (trim field) "*") (split_commas fields)
  | None => false
  end.

Definition storable (request : Request) (r : Response) : bool :=
  cacheable_request request && negb (status r =? 206)%Z && negb (vary_star r).

(** [cache.put(request, response)] on the store called [name]: the
    promise is rejected, and nothing is filed, for a pair that the Cache
    API does not take. *)
Definition cache_put (name : string) (request : Request) (r : Response) : M World unit :=
  if storable request r
  then modify (set_caches (put_in name (url request) r))
  else throw (TypeError "Failed to execute 'put' on 'Cache'").

(** The stores called [name], and the entry of [key] there. *)
Definition named (name : string) (cs : list (string * gmap string Response))
    : list (string * gmap string Response) :=
  List.filter (fun nc => String.eqb (fst nc) name) cs.

Definition cache_entry (w : World) (name key : string) : option Response :=
  match_in (named name (caches w)) key.

(** *** Helper predicates *)

Definition staticExtensions : list string :=
  [ ".css"; ".js"; ".png"; ".jpg"; ".jpeg"; ".gif"; ".svg"; ".ico"; ".woff"; ".woff2" ].

Definition isStaticResource (pathname : string) : bool :=
  some (fun ext => endsWith pathname ext) staticExtensions ||
  String.eqb pathname "/" ||
  endsWith pathname ".html".

Definition isCacheableAPI (pathname : string) : bool :=
  some (fun api => startsWith pathname api) CACHEABLE_APIS.

(** *** The offline response synthesizer *)

Definition no_connection : string := "ไม่มีการเชื่อมต่ออินเทอร์เน็ต".

(** The [offlineData] object that [createOfflineAPIResponse] serializes. *)
Definition offlineData (env : Env) (pathname : string) : JS.Value :=
  if includes pathname "/employees" then
    JS.Obj [ ("success", JS.Bool false); ("msg", JS.Str no_connection);
             ("offline", JS.Bool true); ("employees", JS.Arr []) ]
  else if includes pathname "/dashboard" then
    JS.Obj [ ("success", JS.Bool false); ("msg", JS.Str no_connection);
             ("offline", JS.Bool true);
             ("today", JS.Obj [ ("total_employees", JS.Num 0);
                                ("checked_in", JS.Num 0);
                                ("not_checked_out", JS.Num 0);
                                ("date", JS.Str (today env)) ]) ]
  else if includes pathname "/getLiffId" then
    JS.Obj [ ("success", JS.Bool true); ("liffId", JS.Str "2001032478-VR5Akj0k") ]
  else
    JS.Obj [ ("success", JS.Bool false); ("msg", JS.Str no_connection) ].

Definition createOfflineAPIResponse (env : Env) (pathname : string) : Response :=
  {| status := 200;
     statusText := EmptyString;
     headers := Headers_of [ ("Content-Type", "application/json");
                             ("X-Served-By", "ServiceWorker-Offline") ];
     body := JS.stringify (offlineData env pathname) |}.

(** *** The three strategies *)

(** Cache first, for static resources.  In the three strategies
    [cache.put] is called without [await]. *)
Definition cacheFirst (env : Env) (request : Request) (cacheName : string)
    : M World Response :=
  cached ← caches_match (url request);
  match cached with
  | Some c => mret c
  | None =>
      response ← fetch env request;
      (if ok response
       then cache ← caches_open cacheName; unawaited (cache_put cache request response)
       else mret tt);;
      mret response
  end.

(** Network first, for pages. *)
Definition networkFirst (env : Env) (request : Request) (cacheName : string)
    : M World Response :=
  try_catch
    (response ← fetch env request;
     (if ok response && negb (String.eqb cacheName EmptyString)
      then cache ← caches_open cacheName; unawaited (cache_put cache request response)
      else mret tt);;
     mret response)
    (fun error =>
       cached ← caches_match (url request);
       match cached with
       | Some c => mret c
       | None => throw error
       end).

(** The response rebuilt from a cached one, with the two marker headers. *)
Definition served_from_cache (cached : Response) : Response :=
  let headers0 := headers cached in
  let headers1 := Headers_set headers0 "X-Served-By" "ServiceWorker" in
  let headers2 :=
    Headers_set headers1 "X-Cache-Date"
      (match Headers_get (headers cached) "date" with
       | Some d => if String.eqb d EmptyString then "unknown" else d
       | None => "unknown"
       end) in
  {| status := status cached; statusText := statusText cached;
     headers := headers2; body := body cached |}.

(** Network first with the cache and then the synthesizer as fallbacks,
    for API calls. *)
Definition networkFirstWithFallback (env : Env) (request : Request)
    : M World Response :=
  try_catch
    (response ← fetch env request;
     if ok response then
       (if isCacheableAPI (pathname request)
        then cache ← caches_open API_CACHE; unawaited (cache_put cache request response)
        else mret tt);;
       mret response
     else throw (PlainError ("HTTP " +:+ of_Z (status response))))
    (fun error =>
       cached ← caches_match (url request);
       match cached with
       | Some c => mret (served_from_cache c)
       | None => mret (createOfflineAPIResponse env (pathname request))
       end).

(** *** The request handler and the fetch listener *)

(** [new Response(text)] *)
Definition text_response (text : string) : Response :=
  {| status := 200; statusText := EmptyString;
     headers := Headers_of [ ("Content-Type", "text/plain;charset=UTF-8") ];
     body := text |}.

Definition handleRequest (env : Env) (request : Request) : M World Response :=
  try_catch
    (if isStaticResource (pathname request) then
       cacheFirst env request STATIC_CACHE
     else if startsWith (pathname request) "/api/" then
       networkFirstWithFallback env request
     else if endsWith (pathname request) ".html" || String.eqb (pathname request) "/" then
       networkFirst env request STATIC_CACHE
     else
       fetch env request)
    (fun error =>
       if String.eqb (destination request) "document" then
         offlineResponse ← caches_match (location_origin env +:+ "/offline.html");
         match offlineResponse with
         | Some r => mret r
         | None => mret (text_response no_connection)
         end
       else throw error).

(** The [fetch] listener: [None] when it returns without calling
    [event.respondWith], which leaves the request to the browser. *)
Definition onFetch (env : Env) (request : Request) : option (M World Response) :=
  if negb (String.eqb (origin request) (location_origin env)) then None
  else if negb (String.eqb (method request) "GET") then None
  else Some (handleRequest env request).

(** *** IndexedDB helpers and the background sync *)

Definition openIndexedDB (env : Env) : M World unit := settle (db_open env).

Definition store_of (w : World) (storeName : string) : ObjectStore :=
  default empty_store (db w !! storeName).

Definition getStoredData (env : Env) (storeName : string) : M World (list Pending) :=
  fun w => match db_getAll env storeName with
           | Ok _ => (Ok (records (store_of w storeName)), w)
           | Throw e => (Throw e, w)
           end.

Definition removeStoredData (env : Env) (storeName : string) (k : Z) : M World unit :=
  fun w => match db_delete env storeName k with
           | Ok _ =>
               (Ok tt,
                set_db (fun d => <[storeName := store_delete (store_of w storeName) k]> d) w)
           | Throw e => (Throw e, w)
           end.

Definition showNotification (env : Env) (title body : string) : M World unit :=
  if can_notify env
  then modify (set_notifications (fun l => (l ++ [(title, body)])%list))
  else mret tt.

(** [fetch(path, {method: 'POST', headers: ..., body: JSON.stringify(d)})];
    [JSON.stringify(undefined)] is [undefined], and the request then has
    no body. *)
Definition post_json (env : Env) (path : string) (d : JS.Value) : Request :=
  {| method := "POST"; origin := location_origin env; pathname := path;
     search := EmptyString; destination := EmptyString;
     req_headers := Headers_of [ ("Content-Type", "application/json") ];
     req_body := JS.stringify_opt d |}.

(** The [for ... of] loop shared by the two sync functions. *)
Fixpoint replay_all (env : Env) (storeName path title : string)
    (pending : list Pending) : M World unit :=
  match pending with
  | [] => mret tt
  | item :: rest =>
      try_catch
        (response ← fetch env (post_json env path (data item));
         if ok response then
           removeStoredData env storeName (id item);;
           showNotification env title "ข้อมูลถูกส่งเมื่อออนไลน์แล้ว"
         else mret tt)
        (fun error => mret tt);;
      replay_all env storeName path title rest
  end.

Definition syncClockInData (env : Env) : M World unit :=
  try_catch
    (openIndexedDB env;;
     pendingClockIns ← getStoredData env "pendingClockIns";
     replay_all env "pendingClockIns" "/api/clockin" "ลงเวลาเข้าสำเร็จ" pendingClockIns)
    (fun error => mret tt).

Definition syncClockOutData (env : Env) : M World unit :=
  try_catch
    (openIndexedDB env;;
     pendingClockOuts ← getStoredData env "pendingClockOuts";
     replay_all env "pendingClockOuts" "/api/clockout" "ลงเวลาออกสำเร็จ" pendingClockOuts)
    (fun error => mret tt).

(** *** Installation and activation *)

Definition STATIC_RESOURCES : list string :=
  [ "/"; "/index.html"; "/css/style.css"; "/css/mobile-optimized.css"; "/js/main.js";
    "/js/mobile-core.js"; "/js/mobile-ui.js"; "/js/mobile-app.js";
    "/js/performance-monitor.js"; "/manifest.json";
    "https://cdn.jsdelivr.net/npm/bootstrap@5.1.3/dist/css/bootstrap.min.css";
    "https://ajax.googleapis.com/ajax/libs/jquery/3.5.1/jquery.min.js" ].

(** The worker around its caches and its database: whether it has called
    [self.skipWaiting()] and [self.clients.claim()]. *)
Record Worker : Type := mkWorker {
  world : World;
  skippedWaiting : bool;
  claimedClients : bool
}.

(** A computation on the caches and the database, run by the worker. *)
Definition in_world {A} (m : M World A) : M Worker A :=
  fun k => let '(r, w) := m (world k) in
           (r, {| world := w; skippedWaiting := skippedWaiting k;
                  claimedClients := claimedClients k |}).

Definition skipWaiting : M Worker unit :=
  modify (fun k => {| world := world k; skippedWaiting := true;
                      claimedClients := claimedClients k |}).

Definition clients_claim : M Worker unit :=
  modify (fun k => {| world := world k; skippedWaiting := skippedWaiting k;
                      claimedClients := true |}).

(** The text up to the first slash, and the rest from that slash on. *)
Fixpoint split_at_slash (s : string) : string * string :=
  match s with
  | EmptyString => (EmptyString, EmptyString)
  | String c s' =>
      if Ascii.eqb c "/" then (EmptyString, s)
      else let '(host, path) := split_at_slash s' in (String c host, path)
  end.

(** The GET request for an entry of [STATIC_RESOURCES]: a path from the
    root of the worker's origin, or an absolute URL. *)
Definition resource_request (env : Env) (u : string) : Request :=
  let '(o, p) :=
    match String.index 0 "://" u with
    | Some n =>
        let '(host, path) :=
          split_at_slash (String.substring (n + 3) (String.length u) u) in
        (String.substring 0 (n + 3) u +:+ host,
         if String.eqb path EmptyString then "/" else path)
    | None => (location_origin env, u)
    end in
  {| method := "GET"; origin := o; pathname := p; search := EmptyString;
     destination := EmptyString; req_headers := []; req_body := None |}.

(** The requests of [cache.addAll]: every one is sent, in the order of the
    list, and each answer is kept with its request. *)
Fixpoint fetch_all (env : Env) (requests : list Request)
    : M World (list (Request * result Response)) :=
  match requests with
  | [] => mret []
  | request :: rest =>
      answer ← settled (fetch env request);
      answers ← fetch_all env rest;
      mret ((request, answer) :: answers)
  end.

(** An answer that [cache.addAll] takes: a success that the Cache API
    files. *)
Definition accepted (answer : Request * result Response) : bool :=
  match snd answer with
  | Ok response => ok response && storable (fst answer) response
  | Throw _ => false
  end.

(** [cache.addAll(urls)] on the store called [name]: a request that the
    Cache API does not take rejects the call before anything is sent; one
    rejected, unsuccessful, partial or all-varying answer rejects it
    afterwards; nothing is stored in either case. *)
Definition cache_addAll (env : Env) (name : string) (urls : list string) : M World unit :=
  let requests := map (resource_request env) urls in
  if forallb cacheable_request requests then
    answers ← fetch_all env requests;
    if forallb accepted answers
    then for_each answers
           (fun answer =>
              match snd answer with
              | Ok response =>
                  modify (set_caches (put_in name (url (fst answer)) response))
              | Throw _ => mret tt
              end)
    else throw (TypeError "Request failed")
  else throw (TypeError "Request scheme or method is unsupported").

(** The [install] listener, as the promise handed to [event.waitUntil]. *)
Definition onInstall (env : Env) : M Worker unit :=
  try_catch
    (in_world (cache ← caches_open STATIC_CACHE;
               cache_addAll env cache STATIC_RESOURCES);;
     skipWaiting)
    (fun err => mret tt).

(** [caches.keys()], in creation order, and [caches.delete(name)]. *)
Definition caches_keys : M World (list string) := gets (fun w => map fst (caches w)).

Definition caches_delete (name : string) : M World bool :=
  fun w => (Ok (has_cache name (caches w)),
            set_caches (List.filter (fun nc => negb (String.eqb (fst nc) name))) w).

(** The [activate] listener. *)
Definition onActivate : M Worker unit :=
  in_world (cacheNames ← caches_keys;
            for_each cacheNames
              (fun cacheName =>
                 if negb (String.eqb cacheName CACHE_NAME) &&
                    negb (String.eqb cacheName STATIC_CACHE) &&
                    negb (String.eqb cacheName API_CACHE)
                 then caches_delete cacheName;; mret tt
                 else mret tt));;
  clients_claim.

(** *** The periodic upkeep *)

(** The clock of the host: [Date.now()], and [new Date(text).getTime()],
    which is [NaN], here [None], for a text that is no date. *)
Record Clock : Type := mkClock {
  Date_now : Z;
  Date_getTime : string -> option Z
}.

(** [cache.keys()], [cache.match(key)] and [cache.delete(key)] on the store
    called [name]. *)
Definition cache_keys (name : string) : M World (list string) :=
  gets (fun w => match named name (caches w) with
                 | (_, c) :: _ => map fst (map_to_list c)
                 | [] => []
                 end).

Definition cache_match (name key : string) : M World (option Response) :=
  gets (fun w => cache_entry w name key).

Definition delete_in (name key : string) (cs : list (string * gmap string Response))
    : list (string * gmap string Response) :=
  map (fun nc => if String.eqb (fst nc) name
                 then (fst nc, delete key (snd nc)) else nc) cs.

Definition cache_delete (name key : string) : M World unit :=
  modify (set_caches (delete_in name key)).

(** One turn of the loop of [cleanOldCacheEntries]. *)
Definition clean_entry (clock : Clock) (cache request : string) : M World unit :=
  let oneHourAgo := (Date_now clock - 60 * 60 * 1000)%Z in
  response ← cache_match cache request;
  match response with
  | None => throw (TypeError "Cannot read properties of undefined")
  | Some response =>
      match Headers_get (headers response) "date" with
      | Some dateHeader =>
          if negb (String.eqb dateHeader EmptyString) then
            match Date_getTime clock dateHeader with
            | Some responseDate =>
                if (responseDate <? oneHourAgo)%Z
                then cache_delete cache request
                else mret tt
            | None => mret tt
            end
          else mret tt
      | None => mret tt
      end
  end.

Definition cleanOldCacheEntries (clock : Clock) : M World unit :=
  try_catch
    (cache ← caches_open API_CACHE;
     requests ← cache_keys cache;
     for_each requests (clean_entry clock cache))
    (fun error => mret tt).

Definition doBackgroundSync (env : Env) (clock : Clock) : M World unit :=
  try_catch
    (syncClockInData env;;
     syncClockOutData env;;
     cleanOldCacheEntries clock)
    (fun error => mret tt).

(** The [sync] and [periodicsync] listeners, by the tag of the event. *)
Definition onSync (env : Env) (tag : string) : M World unit :=
  if String.eqb tag "clock-in-sync" then syncClockInData env
  else if String.eqb tag "clock-out-sync" then syncClockOutData env
  else mret tt.

Definition onPeriodicSync (env : Env) (clock : Clock) (tag : string) : M World unit :=
  if String.eqb tag "background-sync" then doBackgroundSync env clock else mret tt.

Definition clearAllCaches : M World unit :=
  try_catch
    (cacheNames ← caches_keys;
     for_each cacheNames (fun name => caches_delete name;; mret tt))
    (fun error => mret tt).

End SW.

(* ------------------------------------------------------------------ *)
(** ** The answers of the server, [server.js]                           *)
(* ------------------------------------------------------------------ *)

(** The bodies that the routes behind the known endpoints of the
    synthesizer send: for each route the answer of its [try] block and
    the answer of its [catch] block. *)
Module Server.

(** [GET /api/mobile/employees], for the employees already mapped to
    their [name], [code] and [id]. *)
Definition mobile_employees (mobileEmployees : list JS.Value) : JS.Value :=
  JS.Obj [ ("success", JS.Bool true);
           ("employees", JS.Arr mobileEmployees);
           ("count", JS.Num (Z.of_nat (length mobileEmployees))) ].

Definition mobile_employees_failed : JS.Value :=
  JS.Obj [ ("success", JS.Bool false);
           ("message", JS.Str "ไม่สามารถดึงรายชื่อพนักงานได้");
           ("employees", JS.Arr []) ].

(** [GET /api/mobile/dashboard], for the three counts of the statistics
    row. *)
Definition mobile_dashboard (date : string) (total_employees checked_in not_checked_out : Z)
    : JS.Value :=
  JS.Obj [ ("success", JS.Bool true);
           ("today", JS.Obj [ ("date", JS.Str date);
                              ("total_employees", JS.Num total_employees);
                              ("checked_in", JS.Num checked_in);
                              ("not_checked_out", JS.Num not_checked_out);
                              ("checked_out", JS.Num (checked_in - not_checked_out)) ]) ].

Definition mobile_dashboard_failed (message : string) : JS.Value :=
  JS.Obj [ ("success", JS.Bool false);
           ("message", JS.Str ("เกิดข้อผิดพลาด: " +:+ message));
           ("today", JS.Obj [ ("total_employees", JS.Num 0);
                              ("checked_in", JS.Num 0);
                              ("not_checked_out", JS.Num 0);
                              ("checked_out", JS.Num 0) ]) ].


Definition admin_dashboard_failed (message : string) : JS.Value :=
  JS.Obj [ ("success", JS.Bool false);
           ("message", JS.Str ("เกิดข้อผิดพลาด: " +:+ message)) ].



End Server.

(* ------------------------------------------------------------------ *)
(** ** The mobile core, [public/js/mobile-core.js]                      *)
(* ------------------------------------------------------------------ *)

Module Core.
Import JSString.

(** *** The API client and its in-memory cache *)

(** The [options] argument of [call]. *)
Record Options : Type := mkOptions {
  opt_method : option string;
  opt_body : JS.Value;
  cacheTTL : option Z
}.

Record CacheEntry : Type := mkEntry { data : JS.Value; expires : Z }.

(** One call of [fetch]: the URL, the method and the body sent. *)
Record Fetch : Type := mkFetch {
  fetch_url : string;
  fetch_method : string;
  fetch_body : option string
}.

Record HttpResponse : Type := mkHttp {
  status : Z;
  statusText : string;
  json : result JS.Value          (* what [response.json()] settles to *)
}.

Definition ok (r : HttpResponse) : bool := ((200 <=? status r) && (status r <=? 299))%Z.

(** A record of the store [pendingActions] of the database
    TimeTrackerMobile; the key [id] is [Date.now() + Math.random()], kept
    as the millisecond and the random fraction. *)
Record StoredAction : Type := mkStored {
  action_type : string;
  action_data : JS.Value;
  timestamp : Z;
  action_id : Z * Z
}.

Record World : Type := mkWorld {
  cache : gmap string CacheEntry;                 (* [this.cache] *)
  pendingRequests : gmap string (result JS.Value);
      (* [this.pendingRequests]: each promise with what it settles to *)
  lastAction : JS.Value;                          (* [ClockManager.lastAction] *)
  netlog : list Fetch;                            (* calls of [fetch], oldest first *)
  pendingActions : list StoredAction;             (* the durable queue *)
  globals : gmap string JS.Value                  (* bindings of the global scope *)
}.

Record Env : Type := mkEnv {
  onLine : bool;                                  (* [navigator.onLine] *)
  network : list Fetch -> Fetch -> result HttpResponse;
  now : Z;                                        (* [Date.now()] *)
  iso_now : string;                               (* [new Date().toISOString()] *)
  random : Z;                                     (* [Math.random()] *)
  db_open : result unit;
  db_add : result unit
}.

Definition baseURL : string := "/api/mobile".
Definition retryCount : nat := 3.

Definition set_cache (f : gmap string CacheEntry -> gmap string CacheEntry)
    (w : World) : World :=
  {| cache := f (cache w); pendingRequests := pendingRequests w;
     lastAction := lastAction w; netlog := netlog w;
     pendingActions := pendingActions w; globals := globals w |}.
Definition set_pendingRequests
    (f : gmap string (result JS.Value) -> gmap string (result JS.Value))
    (w : World) : World :=
  {| cache := cache w; pendingRequests := f (pendingRequests w);
     lastAction := lastAction w; netlog := netlog w;
     pendingActions := pendingActions w; globals := globals w |}.
Definition set_lastAction (v : JS.Value) (w : World) : World :=
  {| cache := cache w; pendingRequests := pendingRequests w;
     lastAction := v; netlog := netlog w;
     pendingActions := pendingActions w; globals := globals w |}.
Definition set_netlog (f : list Fetch -> list Fetch) (w : World) : World :=
  {| cache := cache w; pendingRequests := pendingRequests w;
     lastAction := lastAction w; netlog := f (netlog w);
     pendingActions := pendingActions w; globals := globals w |}.
Definition set_pendingActions (f : list StoredAction -> list StoredAction)
    (w : World) : World :=
  {| cache := cache w; pendingRequests := pendingRequests w;
     lastAction := lastAction w; netlog := netlog w;
     pendingActions := f (pendingActions w); globals := globals w |}.

(** [setCache(key, data, ttl)], called when the clock reads [now]. *)
Definition setCache (c : gmap string CacheEntry) (key : string) (d : JS.Value)
    (ttl now : Z) : gmap string CacheEntry :=
  <[key := {| data := d; expires := (now + ttl)%Z |}]> c.

(** [getFromCache(key)], called when the clock reads [now]: the value
    returned ([null] for none) and the cache afterwards. *)
Definition getFromCache (c : gmap string CacheEntry) (key : string) (now : Z)
    : JS.Value * gmap string CacheEntry :=
  match c !! key with
  | None => (JS.Null, c)
  | Some cached =>
      if (now >? expires cached)%Z then (JS.Null, delete key c)
      else (data cached, c)
  end.

(** The cache key built at the head of [call]. *)
Definition cacheKey (endpoint : string) (body : JS.Value) : string :=
  endpoint +:+ ":" +:+ JS.stringify (JS.or_else body (JS.Obj [])).

Definition is_get (options : Options) : bool :=
  match opt_method options with
  | None => true
  | Some m => String.eqb m EmptyString || String.eqb m "GET"
  end.

(** The body [fetch] sends: [makeRequest] serializes an object, and
    [fetch] takes anything else as text. *)
Definition body_text (v : JS.Value) : option string :=
  match v with
  | JS.Undefined | JS.Null => None
  | JS.Obj _ | JS.Arr _ => Some (JS.stringify v)
  | _ => Some (JS.to_string v)
  end.

(** [fetch(url, config)]; a GET request with a body is refused by [fetch]
    itself, before anything is sent. *)
Definition fetch (env : Env) (f : Fetch) : M World HttpResponse :=
  fun w =>
    if String.eqb (fetch_method f) "GET" && bool_decide (fetch_body f <> None)
    then (Throw (TypeError "Request with GET/HEAD method cannot have body"), w)
    else (network env (netlog w) f, set_netlog (fun l => l ++ [f]) w).

(** The retry loop of [makeRequest], from attempt number [attempt] on. *)
Fixpoint attempts (env : Env) (f : Fetch) (left attempt : nat) : M World JS.Value :=
  match left with
  | O => mret JS.Undefined
  | S left' =>
      try_catch
        (response ← fetch env f;
         if negb (ok response)
         then throw (PlainError ("HTTP " +:+ of_Z (status response) +:+ ": " +:+
                                 statusText response))
         else settle (json response))
        (fun error =>
           if (attempt =? retryCount)%nat
           then throw (PlainError ("การเชื่อมต่อล้มเหลว: " +:+ error_message error))
           else attempts env f left' (S attempt))
  end.

Definition makeRequest (env : Env) (endpoint : string) (options : Options)
    : M World JS.Value :=
  attempts env
    {| fetch_url := baseURL +:+ endpoint;
       fetch_method := default "GET" (opt_method options);
       fetch_body := body_text (opt_body options) |}
    retryCount 1.

(** [options.cacheTTL || 30000] *)
Definition ttl_of (options : Options) : Z :=
  match cacheTTL options with
  | Some ttl => if (ttl =? 0)%Z then 30000%Z else ttl
  | None => 30000%Z
  end.

(** [call(endpoint, options)].  The answer of a read is asked for its
    [success], which throws on [null] and [undefined]; for another method
    the answer is not looked at. *)
Definition call (env : Env) (endpoint : string) (options : Options) : M World JS.Value :=
  let key := cacheKey endpoint (opt_body options) in
  try_catch
    (cached ← ((fun w =>
                  if is_get options
                  then let '(v, c) := getFromCache (cache w) key (now env) in
                       (Ok v, set_cache (fun _ => c) w)
                  else (Ok JS.Null, w)) : M World JS.Value);
     if JS.truthy cached then mret cached
     else
       pending ← gets (fun w => pendingRequests w !! key);
       match pending return M World JS.Value with
       | Some settled => settle settled
       | None =>
           fun w =>
             let '(settled, w1) := makeRequest env endpoint options w in
             let w2 := set_pendingRequests (<[key := settled]>) w1 in
             match settled with
             | Throw e => (Throw e, w2)
             | Ok result =>
                 let w3 := set_pendingRequests (delete key) w2 in
                 if is_get options then
                   match read result "success" w3 with
                   | (Ok success, _) =>
                       if JS.truthy success
                       then (Ok result,
                             set_cache (fun c => setCache c key result (ttl_of options)
                                                          (now env)) w3)
                       else (Ok result, w3)
                   | (Throw e, _) => (Throw e, w3)
                   end
                 else (Ok result, w3)
             end
       end)
    (fun error => modify (set_pendingRequests (delete key));; throw error).

Definition clearCache : M World unit := modify (set_cache (fun _ => ∅)).

(** *** Lexical scopes

    A block sees the bindings of the blocks and of the function around
    it, innermost first, and then those of the global scope; an
    identifier bound in none of them cannot be read. *)

Definition Frame : Type := list (string * JS.Value).

Fixpoint lookup_frames (frames : list Frame) (name : string) : option JS.Value :=
  match frames with
  | [] => None
  | frame :: outer =>
      match List.find (fun b => String.eqb (fst b) name) frame with
      | Some b => Some (snd b)
      | None => lookup_frames outer name
      end
  end.

(** Reading the identifier [name] in a block whose scope chain is [frames]. *)
Definition resolve (frames : list Frame) (name : string) : M World JS.Value :=
  fun w =>
    match lookup_frames frames name with
    | Some v => (Ok v, w)
    | None =>
        match globals w !! name with
        | Some v => (Ok v, w)
        | None => (Throw (ReferenceError name), w)
        end
    end.

(** *** The clock manager *)

(** [storeOfflineAction(type, data)]: a failure of the database is logged
    and swallowed. *)
Definition storeOfflineAction (env : Env) (type : string) (d : JS.Value) : M World unit :=
  try_catch
    (settle (db_open env);;
     settle (db_add env);;
     modify (set_pendingActions
               (fun q => q ++ [ {| action_type := type; action_data := d;
                                   timestamp := now env;
                                   action_id := (now env, random env) |} ])))
    (fun error => mret tt).

Definition POST (body : JS.Value) : Options :=
  {| opt_method := Some "POST"; opt_body := body; cacheTTL := None |}.

(** The default [options = {}] of both methods: it replaces [undefined]
    only, so [null] stays [null]. *)
Definition or_empty (options0 : JS.Value) : JS.Value :=
  match options0 with JS.Undefined => JS.Obj [] | _ => options0 end.

(** The request payloads, [clockData] in the source. *)
Definition clockInData (env : Env) (employeeName : string) (options : JS.Value) : JS.Value :=
  JS.Obj [ ("employee", JS.Str employeeName);
           ("userinfo", JS.or_else (JS.get options "note") (JS.Str EmptyString));
           ("lat", JS.get options "latitude");
           ("lon", JS.get options "longitude");
           ("line_name", JS.get options "lineName");
           ("line_picture", JS.get options "linePicture");
           ("client_time", JS.Str (iso_now env)) ].

Definition clockOutData (env : Env) (employeeName : string) (options : JS.Value) : JS.Value :=
  JS.Obj [ ("employee", JS.Str employeeName);
           ("lat", JS.get options "latitude");
           ("lon", JS.get options "longitude");
           ("line_name", JS.get options "lineName");
           ("line_picture", JS.get options "linePicture");
           ("client_time", JS.Str (iso_now env)) ].

(** [clockIn(employeeName, options = {})] *)
Definition clockIn (env : Env) (employeeName : string) (options0 : JS.Value)
    : M World JS.Value :=
  let options := or_empty options0 in
  let function_scope : Frame :=
    [ ("employeeName", JS.Str employeeName); ("options", options) ] in
  try_catch
    (* the [try] block, where [clockData] and [response] are declared;
       the first read of [options] throws when it is [null] *)
    (read options "note";;
     let clockData := clockInData env employeeName options in
     response ← call env "/clockin" (POST clockData);
     success ← read response "success";
     if JS.truthy success then
       modify (set_lastAction
                 (JS.Obj [ ("type", JS.Str "clockin");
                           ("employee", JS.Str employeeName);
                           ("time", JS.get response "timestamp");
                           ("displayTime", JS.get response "time") ]));;
       clearCache;;
       mret (JS.Obj [ ("success", JS.Bool true);
                      ("message", JS.Str ("ลงเวลาเข้า " +:+
                                          JS.to_string (JS.get response "time") +:+
                                          " เรียบร้อย"));
                      ("data", response) ])
     else
       mret (JS.Obj [ ("success", JS.Bool false);
                      ("message", JS.or_else (JS.get response "msg")
                                             (JS.Str "ไม่สามารถลงเวลาเข้าได้")) ]))
    (* the [catch] block: its own binding is [error] *)
    (fun error =>
       let catch_scope : list Frame :=
         [ [ ("error", JS.Str (error_message error)) ]; function_scope ] in
       if negb (onLine env) then
         clockData ← resolve catch_scope "clockData";
         storeOfflineAction env "clockin" clockData;;
         mret (JS.Obj [ ("success", JS.Bool true);
                        ("message", JS.Str "บันทึกลงเวลาเข้าไว้ จะส่งเมื่อออนไลน์");
                        ("offline", JS.Bool true) ])
       else
         mret (JS.Obj [ ("success", JS.Bool false);
                        ("message", JS.or_else (JS.Str (error_message error))
                                      (JS.Str "เกิดข้อผิดพลาดในการลงเวลาเข้า")) ])).

(** [clockOut(employeeName, options = {})] *)
Definition clockOut (env : Env) (employeeName : string) (options0 : JS.Value)
    : M World JS.Value :=
  let options := or_empty options0 in
  let function_scope : Frame :=
    [ ("employeeName", JS.Str employeeName); ("options", options) ] in
  try_catch
    (read options "latitude";;
     let clockData := clockOutData env employeeName options in
     response ← call env "/clockout" (POST clockData);
     success ← read response "success";
     if JS.truthy success then
       modify (set_lastAction
                 (JS.Obj [ ("type", JS.Str "clockout");
                           ("employee", JS.Str employeeName);
                           ("time", JS.get response "timestamp");
                           ("displayTime", JS.get response "time") ]));;
       clearCache;;
       mret (JS.Obj [ ("success", JS.Bool true);
                      ("message", JS.Str ("ลงเวลาออก " +:+
                                          JS.to_string (JS.get response "time") +:+
                                          " เรียบร้อย"));
                      ("data", response) ])
     else
       mret (JS.Obj [ ("success", JS.Bool false);
                      ("message", JS.or_else (JS.get response "msg")
                                             (JS.Str "ไม่สามารถลงเวลาออกได้")) ]))
    (fun error =>
       let catch_scope : list Frame :=
         [ [ ("error", JS.Str (error_message error)) ]; function_scope ] in
       if negb (onLine env) then
         clockData ← resolve catch_scope "clockData";
         storeOfflineAction env "clockout" clockData;;
         mret (JS.Obj [ ("success", JS.Bool true);
                        ("message", JS.Str "บันทึกลงเวลาออกไว้ จะส่งเมื่อออนไลน์");
                        ("offline", JS.Bool true) ])
       else
         mret (JS.Obj [ ("success", JS.Bool false);
                        ("message", JS.or_else (JS.Str (error_message error))
                                      (JS.Str "เกิดข้อผิดพลาดในการลงเวลาออก")) ])).

(** What the API client never touches: the durable queue and the globals. *)
Definition untouched (w w' : World) : Prop :=
  pendingActions w' = pendingActions w /\ globals w' = globals w.

(** The call of [clockIn] or [clockOut] fails in transport: [call] on
    its endpoint rejects. *)
Definition transport_fails (env : Env) (endpoint : string) (body : JS.Value)
    (w : World) : Prop :=
  exists e, fst (call env endpoint (POST body) w) = Throw e.

(** *** Reads of the clock manager and of the employee manager *)

(** What one attempt of [makeRequest] comes to when it is sent after
    [log]: the parsed body of a successful response, or the error that the
    [catch] of the loop receives. *)
Definition attempt_outcome (env : Env) (log : list Fetch) (f : Fetch) : result JS.Value :=
  match network env log f with
  | Ok response =>
      if ok response then json response
      else Throw (PlainError ("HTTP " +:+ of_Z (status response) +:+ ": " +:+
                              statusText response))
  | Throw e => Throw e
  end.

(** The request that [makeRequest] sends for [endpoint] and [options]. *)
Definition request_of (endpoint : string) (options : Options) : Fetch :=
  {| fetch_url := baseURL +:+ endpoint;
     fetch_method := default "GET" (opt_method options);
     fetch_body := body_text (opt_body options) |}.

(** [fetch] refuses a GET request that has a body. *)
Definition sendable (f : Fetch) : bool :=
  negb (String.eqb (fetch_method f) "GET" && bool_decide (fetch_body f <> None)).

(** The options [{ cacheTTL: ttl }] of a read. *)
Definition reading (ttl : Z) : Options :=
  {| opt_method := None; opt_body := JS.Undefined; cacheTTL := Some ttl |}.

(** [checkStatus(employeeName)] *)
Definition checkStatus (env : Env) (employeeName : string) : M World JS.Value :=
  try_catch
    (response ← call env ("/status/" +:+ encodeURIComponent employeeName) (reading 10000);
     success ← read response "success";
     if JS.truthy success then mret response
     else mret (JS.Obj [ ("success", JS.Bool false); ("status", JS.Str "unknown") ]))
    (fun error => mret (JS.Obj [ ("success", JS.Bool false); ("status", JS.Str "error") ])).

(** [getHistory(employeeName, limit = 7)] *)
Definition getHistory (env : Env) (employeeName : string) (limit0 : JS.Value)
    : M World JS.Value :=
  let limit := match limit0 with JS.Undefined => JS.Num 7 | _ => limit0 end in
  try_catch
    (response ← call env ("/history/" +:+ encodeURIComponent employeeName +:+
                          "?limit=" +:+ JS.to_string limit) (reading 60000);
     success ← read response "success";
     if JS.truthy success then mret (JS.get response "history") else mret (JS.Arr []))
    (fun error => mret (JS.Arr [])).

(** The employee manager: the roster it holds and the time of its last
    load.  The roster is an array, as the constructor sets it and as the
    server sends it. *)
Record EmployeeManager : Type := mkEmployees {
  employees : list JS.Value;
  lastSync : Z
}.

Definition syncInterval : Z := 5 * 60 * 1000.

Definition isCacheValid (env : Env) (m : EmployeeManager) : bool :=
  (0 <? length (employees m))%nat && (now env - lastSync m <? syncInterval)%Z.

(** The items of [v || []] when that is an array, which is what both
    answers of the route carry ([server.js]); the manager of the model
    holds arrays only. *)
Definition roster_of (v : JS.Value) : list JS.Value :=
  match JS.or_else v (JS.Arr []) with
  | JS.Arr items => items
  | _ => []
  end.

(** [getEmployees(forceRefresh = false)]: the roster returned and the
    manager afterwards. *)
Definition getEmployees (env : Env) (forceRefresh : bool) (m : EmployeeManager)
    : M World (list JS.Value * EmployeeManager) :=
  if negb forceRefresh && isCacheValid env m then mret (employees m, m)
  else
    try_catch
      (response ← call env "/employees" (reading syncInterval);
       success ← read response "success";
       if JS.truthy success then
         let loaded := {| employees := roster_of (JS.get response "employees");
                          lastSync := now env |} in
         mret (employees loaded, loaded)
       else mret (employees m, m))
      (fun error => mret (employees m, m)).

End Core.

(* ------------------------------------------------------------------ *)
(** ** The mobile application, [public/js/mobile-app.js]                *)
(* ------------------------------------------------------------------ *)

Module App.

(** A record of the store [pendingActions]. *)
Record Action : Type := mkAction {
  id : Z * Z;
  type : string;
  data : JS.Value
}.

(** An invocation of [syncOfflineData] that is suspended at an [await]. *)
Inductive Pass : Type :=
| AwaitingStore
    (* at the [await] of the database: opening it and listing the store *)
| Replaying (current : Action) (rest : list Action) (syncedCount failedCount : nat).
    (* in the loop, at the [await] of the replay of [current] *)

(** The application between two turns of the event loop. *)
Record State : Type := mkState {
  isOnline : bool;
  syncInProgress : bool;
  queue : list Action;           (* the store [pendingActions] *)
  running : list Pass;           (* the suspended invocations, oldest first *)
  toasts : list string
}.

Inductive Event : Type :=
| Invoke          (* [syncOfflineData()] is called, by whatever trigger *)
| Online          (* the window's [online] event *)
| Offline         (* the window's [offline] event *)
| Visible         (* [visibilitychange], the document being shown *)
| Tick            (* the five-minute timer of [setupPeriodicSync] *)
| StoreSettled (k : nat) (listed : result unit)
    (* the database answers invocation [k]: the store is listed, or not *)
| ReplaySettled (k : nat) (replayed : result JS.Value) (removed : result unit).
    (* the replay awaited by invocation [k] settles; [removed] is what
       the deletion of the entry answers if it is asked for *)

Definition set_running (f : list Pass -> list Pass) (s : State) : State :=
  {| isOnline := isOnline s; syncInProgress := syncInProgress s; queue := queue s;
     running := f (running s); toasts := toasts s |}.
Definition set_flag (b : bool) (s : State) : State :=
  {| isOnline := isOnline s; syncInProgress := b; queue := queue s;
     running := running s; toasts := toasts s |}.
Definition set_online (b : bool) (s : State) : State :=
  {| isOnline := b; syncInProgress := syncInProgress s; queue := queue s;
     running := running s; toasts := toasts s |}.
Definition set_queue (f : list Action -> list Action) (s : State) : State :=
  {| isOnline := isOnline s; syncInProgress := syncInProgress s; queue := f (queue s);
     running := running s; toasts := toasts s |}.
Definition toast (text : string) (s : State) : State :=
  {| isOnline := isOnline s; syncInProgress := syncInProgress s; queue := queue s;
     running := running s; toasts := toasts s ++ [text] |}.

(** Invocation [k] returns: it is no longer suspended. *)
Definition leave (k : nat) (s : State) : State :=
  set_running (fun ps => take k ps ++ drop (S k) ps) s.

(** Invocation [k] is suspended again, at [p]. *)
Definition suspend (k : nat) (p : Pass) (s : State) : State :=
  set_running (fun ps => <[k := p]> ps) s.

(** The head of [syncOfflineData], up to its first [await]. *)
Definition syncOfflineData (s : State) : State :=
  if syncInProgress s || negb (isOnline s) then s
  else set_running (fun ps => ps ++ [AwaitingStore]) (set_flag true s).

(** The end of [syncOfflineData]: the two toasts, then [finally]. *)
Definition finish (k : nat) (syncedCount failedCount : nat) (s : State) : State :=
  let s1 := if (0 <? syncedCount)%nat
            then toast ("ส่งข้อมูลออฟไลน์ " +:+ JSString.of_Z (Z.of_nat syncedCount) +:+
                        " รายการเรียบร้อย") s
            else s in
  let s2 := if (0 <? failedCount)%nat
            then toast ("ส่งข้อมูลไม่สำเร็จ " +:+ JSString.of_Z (Z.of_nat failedCount) +:+
                        " รายการ") s1
            else s1 in
  leave k (set_flag false s2).

Definition is_clock_action (a : Action) : bool :=
  String.eqb (type a) "clockin" || String.eqb (type a) "clockout".

(** The loop from the entry at the head of [todo]: an entry that is
    neither a clock-in nor a clock-out is counted as failed on the spot;
    the loop suspends at the first replay, or falls through to the end. *)
Fixpoint advance (k : nat) (todo : list Action) (syncedCount failedCount : nat)
    (s : State) : State :=
  match todo with
  | [] => finish k syncedCount failedCount s
  | action :: rest =>
      if is_clock_action action
      then suspend k (Replaying action rest syncedCount failedCount) s
      else advance k rest syncedCount (S failedCount) s
  end.

(** [removeFromIndexedDB(id)] *)
Definition remove_action (key : Z * Z) (q : list Action) : list Action :=
  List.filter (fun a => negb (bool_decide (id a = key))) q.

(** [result?.success && !result?.offline] *)
Definition replay_confirmed (replayed : result JS.Value) : bool :=
  match replayed with
  | Ok r => JS.truthy (JS.get r "success") && negb (JS.truthy (JS.get r "offline"))
  | Throw _ => false
  end.

(** One turn of the event loop. *)
Definition step (s : State) (e : Event) : State :=
  match e with
  | Invoke => syncOfflineData s
  | Online =>
      syncOfflineData (toast "เชื่อมต่ออินเทอร์เน็ตแล้ว" (set_online true s))
  | Offline => toast "ไม่มีการเชื่อมต่ออินเทอร์เน็ต" (set_online false s)
  | Visible => if isOnline s then syncOfflineData s else s
  | Tick => if isOnline s && negb (syncInProgress s) then syncOfflineData s else s
  | StoreSettled k listed =>
      match running s !! k with
      | Some AwaitingStore =>
          match listed with
          | Throw _ => leave k (set_flag false s)           (* [catch], then [finally] *)
          | Ok _ =>
              match queue s with
              | [] => leave k (set_flag false s)            (* the early [return] *)
              | pendingActions => advance k pendingActions 0 0 s
              end
          end
      | _ => s
      end
  | ReplaySettled k replayed removed =>
      match running s !! k with
      | Some (Replaying action rest syncedCount failedCount) =>
          if replay_confirmed replayed then
            match removed with
            | Ok _ =>
                advance k rest (S syncedCount) failedCount
                        (set_queue (remove_action (id action)) s)
            | Throw _ => advance k rest syncedCount (S failedCount) s
            end
          else advance k rest syncedCount (S failedCount) s
      | _ => s
      end
  end.

Definition run (s : State) (events : list Event) : State := fold_left step events s.

(** The application at rest: no invocation suspended, the flag down. *)
Definition idle (s : State) : Prop := running s = [] /\ syncInProgress s = false.

(** One invocation suspended, the flag up. *)
Definition draining (s : State) : Prop :=
  (exists p, running s = [p]) /\ syncInProgress s = true.

(** *** One invocation, followed to its end

    The answers the environment gives to one invocation: to the listing of
    the store, and to the replay and the deletion of each entry. *)
Record Answers : Type := mkAnswers {
  store_answer : result unit;
  replay_answer : Action -> result JS.Value;
  remove_answer : Action -> result unit
}.

(** The oldest suspended invocation goes on with its answer. *)
Definition resume (a : Answers) (s : State) : State :=
  match running s with
  | [] => s
  | AwaitingStore :: _ => step s (StoreSettled 0 (store_answer a))
  | Replaying action _ _ _ :: _ =>
      step s (ReplaySettled 0 (replay_answer a action) (remove_answer a action))
  end.

Fixpoint resume_n (a : Answers) (n : nat) (s : State) : State :=
  match n with
  | O => s
  | S n' => resume_n a n' (resume a s)
  end.

(** [syncOfflineData()] called at rest and followed until it settles: one
    answer for the store and at most one per queued entry. *)
Definition syncOfflineData_settled (a : Answers) (s : State) : State :=
  resume_n a (S (length (queue s))) (syncOfflineData s).

End App.

(* ------------------------------------------------------------------ *)
(** ** The page script that follows the mobile core in its file         *)
(* ------------------------------------------------------------------ *)

Module Page.
Import JSString.

(** The options of [optimizedAjax] that its cache key reads. *)
Record AjaxOptions : Type := mkAjax {
  ajax_method : option string;
  ajax_url : string;
  ajax_data : JS.Value
}.

(** [options.method || 'GET'] *)
Definition method_or_get (m : option string) : string :=
  match m with
  | None => "GET"
  | Some s => if String.eqb s EmptyString then "GET" else s
  end.

(** The cache key built at the head of [optimizedAjax]. *)
Definition cacheKey (options : AjaxOptions) : string :=
  method_or_get (ajax_method options) +:+ ":" +:+ ajax_url options +:+ ":" +:+
  JS.stringify (JS.or_else (ajax_data options) (JS.Obj [])).

(** An element of the array kept under [offline_actions] in localStorage. *)
Record Action : Type := mkAction {
  type : string;
  data : JS.Value;
  timestamp : Z;
  id : Z * Z
}.

Record State : Type := mkState {
  onLine : bool;                                     (* [navigator.onLine] *)
  offline_actions : list Action;                     (* localStorage *)
  apiCache : gmap string (JS.Value * Z);             (* [mobilePerf.apiCache] *)
  sent : list AjaxOptions;                           (* calls of [$.ajax] *)
  running : list (list Action)
      (* the passes waiting at [Promise.allSettled], each with the array it read *)
}.

Definition scripturl : string := "/api".

(** The request [syncOfflineActions] builds for one action. *)
Definition replay_request (action : Action) : AjaxOptions :=
  {| ajax_method := Some "POST";
     ajax_url := scripturl +:+
                 (if String.eqb (type action) "clockin" then "/clockin" else "/clockout");
     ajax_data := data action |}.

(** The head of [optimizedAjax], up to [$.ajax(options)]: a fresh cached
    answer resolves the promise at once, anything else goes out. *)
Definition optimizedAjax (now : Z) (options : AjaxOptions) (s : State) : State :=
  match apiCache s !! cacheKey options with
  | Some (_, stored) =>
      if (now - stored <? 30000)%Z then s
      else {| onLine := onLine s; offline_actions := offline_actions s;
              apiCache := apiCache s; sent := sent s ++ [options];
              running := running s |}
  | None =>
      {| onLine := onLine s; offline_actions := offline_actions s;
         apiCache := apiCache s; sent := sent s ++ [options];
         running := running s |}
  end.

(** [syncOfflineActions()], up to [Promise.allSettled(promises)]. *)
Definition syncOfflineActions (now : Z) (s : State) : State :=
  if negb (onLine s) then s
  else
    match offline_actions s with
    | [] => s
    | offlineActions =>
        let s' := fold_left (fun st action => optimizedAjax now (replay_request action) st)
                            offlineActions s in
        {| onLine := onLine s'; offline_actions := offline_actions s';
           apiCache := apiCache s'; sent := sent s';
           running := running s' ++ [offlineActions] |}
    end.

(** *** The page cache, the retries and the end of a pass *)

(** [data && typeof data === 'object'] *)
Definition is_object (data : JS.Value) : bool :=
  match data with
  | JS.Arr _ | JS.Obj _ => true
  | _ => false
  end.

(** What a fresh entry of the cache resolves the promise of
    [optimizedAjax] with; [None] when the request goes out. *)
Definition cached_answer (now : Z) (options : AjaxOptions) (s : State) : option JS.Value :=
  match apiCache s !! cacheKey options with
  | Some (data, stored) => if (now - stored <? 30000)%Z then Some data else None
  | None => None
  end.

(** The [success] callback that [optimizedAjax] installs, up to the
    caller's own callback: an answer that is an object is filed under the
    key of the request, with the time. *)
Definition ajax_success (now : Z) (options : AjaxOptions) (data : JS.Value) (s : State)
    : State :=
  if is_object data
  then {| onLine := onLine s; offline_actions := offline_actions s;
          apiCache := <[cacheKey options := (data, now)]> (apiCache s);
          sent := sent s; running := running s |}
  else s.

(** [mobilePerf.retryCount] beside the page, and [mobilePerf.maxRetries]. *)
Record Perf : Type := mkPerf {
  page : State;
  retryCount : nat
}.

Definition maxRetries : nat := 3.

Inductive Verdict : Type :=
| Retried       (* the request is sent again, after a delay *)
| Rejected.     (* the promise is rejected *)

(** The [error] callback that [optimizedAjax] installs, up to the caller's
    own callback; [status] is the text status of jQuery. *)
Definition ajax_error (options : AjaxOptions) (status : string) (p : Perf)
    : Verdict * Perf :=
  if (retryCount p <? maxRetries)%nat &&
     (String.eqb status "timeout" || String.eqb status "error")
  then (Retried,
        {| page := {| onLine := onLine (page p);
                      offline_actions := offline_actions (page p);
                      apiCache := apiCache (page p);
                      sent := sent (page p) ++ [options];
                      running := running (page p) |};
           retryCount := S (retryCount p) |})
  else (Rejected, {| page := page p; retryCount := 0 |}).

(** What comes back for a request that went out. *)
Inductive Reply : Type :=
| Success (now : Z) (options : AjaxOptions) (data : JS.Value)
| Failure (options : AjaxOptions) (status : string).

Definition on_reply (p : Perf) (r : Reply) : Perf :=
  match r with
  | Success now options data =>
      {| page := ajax_success now options data (page p); retryCount := retryCount p |}
  | Failure options status => snd (ajax_error options status p)
  end.

(** The page after a series of replies, and the verdicts on the failures
    among them, oldest first. *)
Fixpoint after_replies (p : Perf) (replies : list Reply) : Perf :=
  match replies with
  | [] => p
  | r :: rest => after_replies (on_reply p r) rest
  end.

Fixpoint verdicts (p : Perf) (replies : list Reply) : list Verdict :=
  match replies with
  | [] => []
  | r :: rest =>
      match r with
      | Success _ _ _ => []
      | Failure options status => [ fst (ajax_error options status p) ]
      end ++ verdicts (on_reply p r) rest
  end.

(** [storeOfflineAction(type, data)], the storage taking the write (a
    failure of [localStorage] is caught and nothing is stored then).  The
    data is kept as it is handed over: what the trip through JSON text
    changes of it, properties that are [undefined], is not modelled. *)
Definition storeOfflineAction (now random : Z) (type : string) (data : JS.Value) (s : State)
    : State :=
  {| onLine := onLine s;
     offline_actions :=
       offline_actions s ++
       [ {| type := type; data := data; timestamp := now; id := (now, random) |} ];
     apiCache := apiCache s; sent := sent s; running := running s |}.

(** [result.value] is truthy: the key is not zero. *)
Definition id_truthy (key : Z * Z) : bool :=
  negb ((fst key =? 0)%Z && (snd key =? 0)%Z).

(** The callback of [Promise.allSettled] of the pass number [k]:
    [resolved] tells, action by action, whether [optimizedAjax] resolved
    the promise of the replay; a rejected one is turned into [null]. *)
Definition allSettled (k : nat) (resolved : list bool) (s : State) : State :=
  match running s !! k with
  | None => s
  | Some offlineActions =>
      let syncedIds :=
        map (fun af => id (fst af))
            (List.filter (fun af => snd af && id_truthy (id (fst af)))
                         (combine offlineActions resolved)) in
      let rest := take k (running s) ++ drop (S k) (running s) in
      if (0 <? length syncedIds)%nat
      then {| onLine := onLine s;
              offline_actions :=
                List.filter (fun action =>
                               negb (existsb (fun key => bool_decide (key = id action))
                                             syncedIds))
                            offlineActions;
              apiCache := apiCache s; sent := sent s; running := rest |}
      else {| onLine := onLine s; offline_actions := offline_actions s;
              apiCache := apiCache s; sent := sent s; running := rest |}
  end.

End Page.

(** *** The classification rule of the router as the specification words it

    The rule of section 4.1, evaluated in order.  It is compared with
    [SW.onFetch] and [SW.handleRequest] in Part II. *)

Module RouterSpec.
Import JSString.

Inductive Strategy : Type :=
| Passthrough                 (* not intercepted *)
| CacheFirst
| NetworkFirstWithFallback
| NetworkFirst
| DirectNetwork.

Definition stylesheets : list string := [ ".css" ].
Definition scripts : list string := [ ".js" ].
Definition images : list string := [ ".png"; ".jpg"; ".jpeg"; ".gif"; ".svg"; ".ico" ].
Definition fonts : list string := [ ".woff"; ".woff2" ].
Definition markup : list string := [ ".html" ].

(** Rule 3: a known static-asset suffix, or the root path. *)
Definition static_asset (path : string) : bool :=
  existsb (fun suffix => endsWith path suffix)
          (stylesheets ++ scripts ++ images ++ fonts ++ markup) ||
  String.eqb path "/".

(** Rule 4: under the API namespace. *)
Definition under_api (path : string) : bool := startsWith path "/api/".

(** Rule 5: an HTML document. *)
Definition html_document (path : string) : bool := endsWith path ".html".

Definition classify (own_origin origin method path : string) : Strategy :=
  if negb (String.eqb origin own_origin) then Passthrough
  else if negb (String.eqb method "GET") then Passthrough
  else if static_asset path then CacheFirst
  else if under_api path then NetworkFirstWithFallback
  else if html_document path then NetworkFirst
  else DirectNetwork.

(** What the worker runs for each class; every strategy of an
    intercepted request runs under the [catch] of [handleRequest]. *)
Definition on_error (env : SW.Env) (request : SW.Request) (error : Error)
    : M SW.World SW.Response :=
  if String.eqb (SW.destination request) "document" then
    offlineResponse ← SW.caches_match (SW.location_origin env +:+ "/offline.html");
    match offlineResponse with
    | Some r => mret r
    | None => mret (SW.text_response SW.no_connection)
    end
  else throw error.

Definition run (env : SW.Env) (s : Strategy) (request : SW.Request)
    : option (M SW.World SW.Response) :=
  match s with
  | Passthrough => None
  | CacheFirst =>
      Some (try_catch (SW.cacheFirst env request SW.STATIC_CACHE) (on_error env request))
  | NetworkFirstWithFallback =>
      Some (try_catch (SW.networkFirstWithFallback env request) (on_error env request))
  | NetworkFirst =>
      Some (try_catch (SW.networkFirst env request SW.STATIC_CACHE) (on_error env request))
  | DirectNetwork =>
      Some (try_catch (SW.fetch env request) (on_error env request))
  end.


(** What two answers of a route have in common: the properties that both
    carry, objects being compared property by property. *)
Fixpoint shared (a b : JS.Value) : JS.Value :=
  match a with
  | JS.Obj props =>
      JS.Obj ((fix each (ps : list (string * JS.Value)) : list (string * JS.Value) :=
                 match ps with
                 | [] => []
                 | (k, v) :: rest =>
                     if JS.has_own b k then (k, shared v (JS.get b k)) :: each rest
                     else each rest
                 end) props)
  | _ => a
  end.



End RouterSpec.

(** *** What a drain pass of the worker is expected to do *)

Module DrainSpec.

(** The request that replays [item]. *)
Definition replay_request (env : SW.Env) (path : string) (item : SW.Pending) : SW.Request :=
  SW.post_json env path (SW.data item).

(** The replay of [item], sent when [log] had gone out, got a success. *)
Definition replay_succeeds (env : SW.Env) (path : string) (log : list SW.Request)
    (item : SW.Pending) : bool :=
  match SW.network env log (replay_request env path item) with
  | Ok response => SW.ok response
  | Throw _ => false
  end.

(** The database carries out the removal of [item] from [storeName]. *)
Definition removal_succeeds (env : SW.Env) (storeName : string) (item : SW.Pending) : bool :=
  match SW.db_delete env storeName (SW.id item) with
  | Ok _ => true
  | Throw _ => false
  end.

(** The entry leaves the queue: its replay got a success and its removal
    was carried out. *)
Definition leaves (env : SW.Env) (storeName path : string) (log : list SW.Request)
    (item : SW.Pending) : bool :=
  replay_succeeds env path log item && removal_succeeds env storeName item.

(** The queue after a pass that replays [pending] in order. *)
Fixpoint survivors (env : SW.Env) (storeName path : string) (log : list SW.Request)
    (pending : list SW.Pending) : list SW.Pending :=
  match pending with
  | [] => []
  | item :: rest =>
      let log' := log ++ [replay_request env path item] in
      if leaves env storeName path log item
      then survivors env storeName path log' rest
      else item :: survivors env storeName path log' rest
  end.

(** The keys of the entries that leave the queue. *)
Fixpoint gone (env : SW.Env) (storeName path : string) (log : list SW.Request)
    (pending : list SW.Pending) : list Z :=
  match pending with
  | [] => []
  | item :: rest =>
      let log' := log ++ [replay_request env path item] in
      if leaves env storeName path log item
      then SW.id item :: gone env storeName path log' rest
      else gone env storeName path log' rest
  end.

(** The world after the replay of one entry. *)
Definition after_replay (env : SW.Env) (storeName path title : string)
    (w : SW.World) (item : SW.Pending) : SW.World :=
  let sent := SW.set_netlog (fun l => l ++ [replay_request env path item]) w in
  if leaves env storeName path (SW.netlog w) item then
    let removed :=
      SW.set_db (fun d => <[storeName :=
                   SW.store_delete (SW.store_of sent storeName) (SW.id item)]> d) sent in
    if SW.can_notify env
    then SW.set_notifications
           (fun l => (l ++ [(title, "ข้อมูลถูกส่งเมื่อออนไลน์แล้ว")])%list) removed
    else removed
  else sent.

(** The database opens and lists the store: the pass has a queue to go
    through. *)
Definition lists (env : SW.Env) (storeName : string) : bool :=
  match SW.db_open env, SW.db_getAll env storeName with
  | Ok _, Ok _ => true
  | _, _ => false
  end.

(** One pass over the store [storeName], replayed against [path], that
    started in [w] and ended with [out]. *)
Definition fifo_pass (env : SW.Env) (storeName path : string) (w : SW.World)
    (out : result unit * SW.World) : Prop :=
  let queue := SW.records (SW.store_of w storeName) in
  let request := replay_request env path in
  (* the pass ends normally, whatever the database and the replays did *)
  fst out = Ok tt /\
  (* without a queue to go through nothing is sent and nothing changes *)
  (lists env storeName = false -> snd out = w) /\
  (lists env storeName = true ->
     (* every entry was replayed, once, in the order of the queue *)
     SW.netlog (snd out) = SW.netlog w ++ map request queue /\
     (* the queue keeps exactly the entries that did not leave it *)
     SW.records (SW.store_of (snd out) storeName) =
       survivors env storeName path (SW.netlog w) queue /\
     (forall before item after, queue = before ++ item :: after ->
        (In item (SW.records (SW.store_of (snd out) storeName)) <->
         replay_succeeds env path (SW.netlog w ++ map request before) item = false \/
         removal_succeeds env storeName item = false))) /\
  (* a replay is a POST of the payload, as JSON, to the path of the action *)
  (forall item,
     SW.method (request item) = "POST" /\
     SW.origin (request item) = SW.location_origin env /\
     SW.pathname (request item) = path /\
     SW.search (request item) = EmptyString /\
     SW.destination (request item) = EmptyString /\
     SW.req_headers (request item) =
       SW.Headers_of [ ("Content-Type", "application/json") ] /\
     SW.Headers_get (SW.req_headers (request item)) "Content-Type" =
       Some "application/json" /\
     SW.req_body (request item) = JS.stringify_opt (SW.data item)) /\
  (* the order of the queue is the order of insertion: a new record goes last *)
  (forall d, SW.records (SW.store_add (SW.store_of w storeName) d) =
             queue ++ [ {| SW.id := (SW.keygen (SW.store_of w storeName) + 1)%Z;
                           SW.data := d |} ]).

End DrainSpec.

(** *** Words for the upkeep of the worker's caches *)

Module UpkeepSpec.

(** One of the three stores of this version of the worker. *)
Definition current_cache (name : string) : bool :=
  String.eqb name SW.CACHE_NAME || String.eqb name SW.STATIC_CACHE ||
  String.eqb name SW.API_CACHE.

(** The answers of the network to [requests], sent one after the other
    when [log] had gone out. *)
Fixpoint answers (env : SW.Env) (log : list SW.Request) (requests : list SW.Request)
    : list (SW.Request * result SW.Response) :=
  match requests with
  | [] => []
  | request :: rest =>
      (request, SW.network env log request) :: answers env (log ++ [request]) rest
  end.


(** The store called [name] set to [c]. *)
Definition replace_store (name : string) (c : gmap string SW.Response)
    (cs : list (string * gmap string SW.Response)) : list (string * gmap string SW.Response) :=
  map (fun nc => if String.eqb (fst nc) name then (fst nc, c) else nc) cs.

(** The entry is one that [cleanOldCacheEntries] removes. *)
Definition stale (clock : SW.Clock) (response : SW.Response) : bool :=
  match SW.Headers_get (SW.headers response) "date" with
  | Some dateHeader =>
      negb (String.eqb dateHeader EmptyString) &&
      match SW.Date_getTime clock dateHeader with
      | Some responseDate => (responseDate <? SW.Date_now clock - 60 * 60 * 1000)%Z
      | None => false
      end
  | None => false
  end.

(** What the cleaning leaves of an entry. *)
Definition kept (clock : SW.Clock) (entry : option SW.Response) : option SW.Response :=
  match entry with
  | Some r => if stale clock r then None else Some r
  | None => None
  end.

End UpkeepSpec.

(** *** Words for the outcome of a pass of the application's drain *)

Module AppSpec.

(** The replay of [x] is confirmed by the server and its record is
    removed from the store. *)
Definition settles (a : App.Answers) (x : App.Action) : bool :=
  App.is_clock_action x &&
  App.replay_confirmed (App.replay_answer a x) &&
  match App.remove_answer a x with
  | Ok _ => true
  | Throw _ => false
  end.

(** The store after the entries of [todo] were gone through in order. *)
Fixpoint drained (a : App.Answers) (todo : list App.Action) (q : list App.Action)
    : list App.Action :=
  match todo with
  | [] => q
  | x :: rest =>
      drained a rest (if settles a x then App.remove_action (App.id x) q else q)
  end.

(** The toasts at the end of a pass. *)
Definition toasts_of (syncedCount failedCount : nat) : list string :=
  (if (0 <? syncedCount)%nat
   then [ "ส่งข้อมูลออฟไลน์ " +:+ JSString.of_Z (Z.of_nat syncedCount) +:+ " รายการเรียบร้อย" ]
   else []) ++
  (if (0 <? failedCount)%nat
   then [ "ส่งข้อมูลไม่สำเร็จ " +:+ JSString.of_Z (Z.of_nat failedCount) +:+ " รายการ" ]
   else []).

End AppSpec.

(** ** Sample data, to run the definitions on *)

Module Samples.

(** An environment with no connectivity and a healthy database. *)
Definition offline_env : SW.Env :=
  {| SW.location_origin := "https://app.example";
     SW.network := fun _ _ => Throw (TypeError "Failed to fetch");
     SW.db_open := Ok tt;
     SW.db_getAll := fun _ => Ok tt;
     SW.db_delete := fun _ _ => Ok tt;
     SW.can_notify := true;
     SW.today := "3/11/2569" |}.

Definition ok_response (text : string) : SW.Response :=
  {| SW.status := 200; SW.statusText := "OK";
     SW.headers := SW.Headers_of [ ("Content-Type", "application/json");
                                   ("Date", "Tue, 03 Nov 2026 08:00:00 GMT") ];
     SW.body := text |}.

Definition empty_world : SW.World :=
  {| SW.caches := []; SW.netlog := []; SW.db := ∅; SW.notifications := [] |}.

(** A world whose API store holds one roster answer. *)
Definition world_with_roster : SW.World :=
  {| SW.caches :=
       [ (SW.STATIC_CACHE, ∅);
         (SW.API_CACHE,
          {[ "https://app.example/api/mobile/employees" := ok_response "{}" ]}) ];
     SW.netlog := []; SW.db := ∅; SW.notifications := [] |}.

(** A network that drops the first call and accepts every later one. *)
Definition flaky_env : SW.Env :=
  {| SW.location_origin := "https://app.example";
     SW.network := fun log _ =>
       match log with
       | [] => Throw (TypeError "Failed to fetch")
       | _ :: _ => Ok (ok_response "{}")
       end;
     SW.db_open := Ok tt;
     SW.db_getAll := fun _ => Ok tt;
     SW.db_delete := fun _ _ => Ok tt;
     SW.can_notify := true;
     SW.today := "3/11/2569" |}.

Definition clock_in_of (name : string) : JS.Value :=
  JS.Obj [ ("employee", JS.Str name); ("userinfo", JS.Str EmptyString) ].

(** Two clock-ins queued, in this order, in an empty store. *)
Definition two_queued : SW.World :=
  {| SW.caches := []; SW.netlog := [];
     SW.db := {[ "pendingClockIns" :=
                   SW.store_add (SW.store_add SW.empty_store (clock_in_of "Somchai"))
                                (clock_in_of "Malee") ]};
     SW.notifications := [] |}.

(** The mobile core without connectivity: every [fetch] is rejected. *)
Definition core_offline : Core.Env :=
  {| Core.onLine := false;
     Core.network := fun _ _ => Throw (TypeError "Failed to fetch");
     Core.now := 1793692800000;
     Core.iso_now := "2026-11-03T08:00:00.000Z";
     Core.random := 0;
     Core.db_open := Ok tt;
     Core.db_add := Ok tt |}.

Definition core_idle : Core.World :=
  {| Core.cache := ∅; Core.pendingRequests := ∅; Core.lastAction := JS.Null;
     Core.netlog := []; Core.pendingActions := []; Core.globals := ∅ |}.

(** The application online and at rest, with two actions queued. *)
Definition app_idle : App.State :=
  {| App.isOnline := true; App.syncInProgress := false;
     App.queue := [ {| App.id := (1793692800000, 17)%Z; App.type := "clockin";
                       App.data := clock_in_of "Somchai" |};
                    {| App.id := (1793692800500, 4)%Z; App.type := "clockout";
                       App.data := clock_in_of "Malee" |} ];
     App.running := []; App.toasts := [] |}.

(** Answers of a bad day: the store opens, every replay is rejected. *)
Definition all_rejected : App.Answers :=
  {| App.store_answer := Ok tt;
     App.replay_answer := fun _ => Throw (ReferenceError "clockData");
     App.remove_answer := fun _ => Ok tt |}.

(** The page online with one action queued and nothing cached. *)
Definition page_idle : Page.State :=
  {| Page.onLine := true;
     Page.offline_actions :=
       [ {| Page.type := "clockin"; Page.data := clock_in_of "Somchai";
            Page.timestamp := 1793692800000; Page.id := (1793692800000, 17)%Z |} ];
     Page.apiCache := ∅; Page.sent := []; Page.running := [] |}.

(** A network that accepts every call, with a database that opens and
    lists its stores but refuses every removal. *)
Definition stuck_store_env : SW.Env :=
  {| SW.location_origin := "https://app.example";
     SW.network := fun _ _ => Ok (ok_response "{}");
     SW.db_open := Ok tt;
     SW.db_getAll := fun _ => Ok tt;
     SW.db_delete := fun _ _ => Throw (StorageError "The transaction was aborted");
     SW.can_notify := true;
     SW.today := "3/11/2569" |}.

(** A partial response, as a server that honours a [Range] header sends
    it, and a network that answers every call with it. *)
Definition partial_response : SW.Response :=
  {| SW.status := 206; SW.statusText := "Partial Content";
     SW.headers := SW.Headers_of [ ("Content-Type", "text/javascript");
                                   ("Content-Range", "bytes 0-1023/4096") ];
     SW.body := "(function(){" |}.

Definition partial_env : SW.Env :=
  {| SW.location_origin := "https://app.example";
     SW.network := fun _ _ => Ok partial_response;
     SW.db_open := Ok tt;
     SW.db_getAll := fun _ => Ok tt;
     SW.db_delete := fun _ _ => Ok tt;
     SW.can_notify := true;
     SW.today := "3/11/2569" |}.

(** A response that varies on every header. *)
Definition varying_response : SW.Response :=
  {| SW.status := 200; SW.statusText := "OK";
     SW.headers := SW.Headers_of [ ("Content-Type", "text/css");
                                   ("Vary", "Accept-Encoding, *") ];
     SW.body := "body{}" |}.


(** A network that answers every call with a success. *)
Definition online_env : SW.Env :=
  {| SW.location_origin := "https://app.example";
     SW.network := fun _ _ => Ok (ok_response "{}");
     SW.db_open := Ok tt;
     SW.db_getAll := fun _ => Ok tt;
     SW.db_delete := fun _ _ => Ok tt;
     SW.can_notify := true;
     SW.today := "3/11/2569" |}.

Definition get_request (path : string) : SW.Request :=
  {| SW.method := "GET"; SW.origin := "https://app.example"; SW.pathname := path;
     SW.search := EmptyString; SW.destination := EmptyString;
     SW.req_headers := []; SW.req_body := None |}.

(** A response that carries the [Date] header [date], and one without it. *)
Definition dated_response (date : string) : SW.Response :=
  {| SW.status := 200; SW.statusText := "OK";
     SW.headers := SW.Headers_of [ ("Content-Type", "application/json"); ("Date", date) ];
     SW.body := "{}" |}.

Definition undated_response : SW.Response :=
  {| SW.status := 200; SW.statusText := "OK";
     SW.headers := SW.Headers_of [ ("Content-Type", "application/json") ];
     SW.body := "{}" |}.

(** Ten o'clock on the third of November 2026, with the two dates that the
    sample entries carry. *)
Definition ten_o_clock : SW.Clock :=
  {| SW.Date_now := 1793700000000;
     SW.Date_getTime := fun text =>
       if String.eqb text "Tue, 03 Nov 2026 08:00:00 GMT" then Some 1793692800000%Z
       else if String.eqb text "Tue, 03 Nov 2026 09:30:00 GMT" then Some 1793698200000%Z
       else None |}.

(** An API store with an entry of eight o'clock, one of half past nine,
    one without a date and one whose date cannot be read, beside a store
    of an earlier version of the worker. *)
Definition world_with_dated_entries : SW.World :=
  {| SW.caches :=
       [ ("static-v1.1", {[ "https://app.example/index.html" := undated_response ]});
         (SW.STATIC_CACHE,
          {[ "https://app.example/" := dated_response "Tue, 03 Nov 2026 08:00:00 GMT" ]});
         (SW.API_CACHE,
          {[ "https://app.example/api/mobile/employees" :=
               dated_response "Tue, 03 Nov 2026 08:00:00 GMT";
             "https://app.example/api/mobile/dashboard" :=
               dated_response "Tue, 03 Nov 2026 09:30:00 GMT";
             "https://app.example/api/getLiffId" := undated_response;
             "https://app.example/api/getTimeOffset" := dated_response "yesterday" ]}) ];
     SW.netlog := []; SW.db := ∅; SW.notifications := [] |}.

(** A worker that has just been registered. *)
Definition new_worker : SW.Worker :=
  {| SW.world := empty_world; SW.skippedWaiting := false; SW.claimedClients := false |}.

(** A network on which the CDN cannot be reached. *)
Definition no_cdn_env : SW.Env :=
  {| SW.location_origin := "https://app.example";
     SW.network := fun _ request =>
       if String.eqb (SW.origin request) "https://app.example"
       then Ok (ok_response "{}")
       else Throw (TypeError "Failed to fetch");
     SW.db_open := Ok tt;
     SW.db_getAll := fun _ => Ok tt;
     SW.db_delete := fun _ _ => Ok tt;
     SW.can_notify := true;
     SW.today := "3/11/2569" |}.

(** A navigation to [path]. *)
Definition navigation (path : string) : SW.Request :=
  {| SW.method := "GET"; SW.origin := "https://app.example"; SW.pathname := path;
     SW.search := EmptyString; SW.destination := "document";
     SW.req_headers := []; SW.req_body := None |}.

(** The answer of the server to an accepted clock action. *)
Definition confirmed_answer : JS.Value :=
  JS.Obj [ ("success", JS.Bool true); ("time", JS.Str "08:00");
           ("timestamp", JS.Str "2026-11-03T08:00:00.000Z") ].

(** The mobile core with connectivity, every call being accepted, at
    eight o'clock and five seconds later. *)
Definition core_online : Core.Env :=
  {| Core.onLine := true;
     Core.network := fun _ _ =>
       Ok {| Core.status := 200; Core.statusText := "OK";
             Core.json := Ok confirmed_answer |};
     Core.now := 1793692800000;
     Core.iso_now := "2026-11-03T08:00:00.000Z";
     Core.random := 0;
     Core.db_open := Ok tt;
     Core.db_add := Ok tt |}.

Definition core_online_later : Core.Env :=
  {| Core.onLine := true;
     Core.network := fun _ _ =>
       Ok {| Core.status := 200; Core.statusText := "OK";
             Core.json := Ok confirmed_answer |};
     Core.now := 1793692805000;
     Core.iso_now := "2026-11-03T08:00:05.000Z";
     Core.random := 0;
     Core.db_open := Ok tt;
     Core.db_add := Ok tt |}.

(** Answers of a better day: the clock-ins are accepted, the clock-outs
    are rejected. *)
Definition clock_ins_accepted : App.Answers :=
  {| App.store_answer := Ok tt;
     App.replay_answer := fun action =>
       if String.eqb (App.type action) "clockin" then Ok confirmed_answer
       else Throw (PlainError "การเชื่อมต่อล้มเหลว: Failed to fetch");
     App.remove_answer := fun _ => Ok tt |}.

(** The replay of the clock-in of [name] by the page script. *)
Definition page_clock_in (name : string) : Page.AjaxOptions :=
  {| Page.ajax_method := Some "POST"; Page.ajax_url := "/api/clockin";
     Page.ajax_data := clock_in_of name |}.

End Samples.

(* ================================================================== *)
(** * Part II: properties                                               *)
(* ================================================================== *)

(** ** A monad-free reading of the combinators *)

Lemma bind_ok {S A B} (m : M S A) (k : A -> M S B) s a s' :
  m s = (Ok a, s') -> (m ≫= k) s = k a s'.
Proof. intros H. unfold mbind, M_bind, bind. now rewrite H. Qed.

Lemma bind_throw {S A B} (m : M S A) (k : A -> M S B) s e s' :
  m s = (Throw e, s') -> (m ≫= k) s = (Throw e, s').
Proof. intros H. unfold mbind, M_bind, bind. now rewrite H. Qed.


Lemma try_throw {S A} (m : M S A) h s e s' :
  m s = (Throw e, s') -> try_catch m h s = h e s'.
Proof. intros H. unfold try_catch. now rewrite H. Qed.

(** A property read throws, or gives the property. *)
Lemma read_cases {S} (v : JS.Value) (k : string) (s : S) :
  (exists msg, read v k s = (Throw (TypeError msg), s) /\ JS.get v k = JS.Undefined) \/
  (read v k s = (Ok (JS.get v k), s) /\ v <> JS.Null /\ v <> JS.Undefined).
Proof.
  destruct v; cbn; try (right; split; [reflexivity | split; discriminate]);
    left; eexists; split; reflexivity.
Qed.

(** ** The request router *)

Section Router.
Import JSString.
Variable env : SW.Env.

Lemma static_asset_isStaticResource path :
  RouterSpec.static_asset path = SW.isStaticResource path.
Proof.
  unfold RouterSpec.static_asset, SW.isStaticResource, some.
  rewrite !existsb_app. cbn [existsb RouterSpec.stylesheets RouterSpec.scripts
    RouterSpec.images RouterSpec.fonts RouterSpec.markup SW.staticExtensions].
  rewrite !orb_false_r.
  repeat match goal with |- context [endsWith path ?x] =>
    generalize (endsWith path x); intro end.
  generalize (String.eqb path "/"); intro.
  repeat match goal with b : bool |- _ => destruct b; try reflexivity end.
Qed.

(** Sample requests, to try the router on. *)
Example classify_samples :
  RouterSpec.classify "https://app" "https://cdn" "GET" "/x.css" = RouterSpec.Passthrough /\
  RouterSpec.classify "https://app" "https://app" "POST" "/api/clockin" = RouterSpec.Passthrough /\
  RouterSpec.classify "https://app" "https://app" "GET" "/css/style.css" = RouterSpec.CacheFirst /\
  RouterSpec.classify "https://app" "https://app" "GET" "/" = RouterSpec.CacheFirst /\
  RouterSpec.classify "https://app" "https://app" "GET" "/index.html" = RouterSpec.CacheFirst /\
  RouterSpec.classify "https://app" "https://app" "GET" "/api/mobile/employees" =
    RouterSpec.NetworkFirstWithFallback /\
  RouterSpec.classify "https://app" "https://app" "GET" "/admin" = RouterSpec.DirectNetwork.
Proof. repeat split; reflexivity. Qed.

(** The fetch listener and [handleRequest] together run, for every
    request, the strategy that the rules of section 4.1, taken in their
    order, give for the request's origin, method and path: cross-origin
    and non-GET requests are not intercepted (no cache is read or written
    for them), static suffixes and the root take cache-first, paths under
    /api/ take network-first-with-fallback, all the rest the network.  The
    class is computed before anything runs, from these three fields only,
    so two requests that agree on them, or the same request classified
    again, get the same strategy.  Taken in this order the rule for HTML
    documents is reached by no path: see [html_rule_is_shadowed] below. *)
Theorem classification_follows_ordered_rule (request : SW.Request) :
  let strategy :=
    RouterSpec.classify (SW.location_origin env) (SW.origin request)
                        (SW.method request) (SW.pathname request) in
  SW.onFetch env request = RouterSpec.run env strategy request /\
  (SW.origin request <> SW.location_origin env \/ SW.method request <> "GET" ->
   strategy = RouterSpec.Passthrough /\ SW.onFetch env request = None) /\
  (forall request' : SW.Request,
     SW.origin request' = SW.origin request ->
     SW.method request' = SW.method request ->
     SW.pathname request' = SW.pathname request ->
     RouterSpec.classify (SW.location_origin env) (SW.origin request')
                         (SW.method request') (SW.pathname request') = strategy).
Proof.
  cbv zeta. split; [| split].
  - unfold SW.onFetch, RouterSpec.classify, SW.handleRequest.
    rewrite static_asset_isStaticResource.
    unfold RouterSpec.under_api, RouterSpec.html_document.
    destruct (String.eqb (SW.origin request) (SW.location_origin env)); [| reflexivity].
    destruct (String.eqb (SW.method request) "GET"); [| reflexivity].
    cbn [negb].
    destruct (SW.isStaticResource (SW.pathname request)) eqn:Hstatic; [reflexivity |].
    destruct (startsWith (SW.pathname request) "/api/"); [reflexivity |].
    assert (Hroot : String.eqb (SW.pathname request) "/" = false).
    { unfold SW.isStaticResource in Hstatic.
      apply orb_false_iff in Hstatic as [Hstatic _].
      now apply orb_false_iff in Hstatic as [_ Hstatic]. }
    rewrite Hroot, orb_false_r.
    destruct (endsWith (SW.pathname request) ".html"); reflexivity.
  - intros Hout. unfold SW.onFetch, RouterSpec.classify.
    destruct Hout as [Horigin | Hmethod].
    + apply String.eqb_neq in Horigin. now rewrite Horigin.
    + apply String.eqb_neq in Hmethod. rewrite Hmethod.
      now destruct (String.eqb (SW.origin request) (SW.location_origin env)).
  - intros request' -> -> ->. reflexivity.
Qed.

(** The rule for HTML documents is never the one that fires: a path that
    ends in [.html], like the root path, already matches the static rule. *)
Remark html_rule_is_shadowed (own_origin origin method path : string) :
  RouterSpec.classify own_origin origin method path <> RouterSpec.NetworkFirst.
Proof.
  unfold RouterSpec.classify, RouterSpec.static_asset, RouterSpec.html_document.
  rewrite !existsb_app. cbn [existsb RouterSpec.markup].
  destruct (negb (String.eqb origin own_origin)); [discriminate |].
  destruct (negb (String.eqb method "GET")); [discriminate |].
  destruct (endsWith path ".html").
  - rewrite !orb_true_r. discriminate.
  - repeat match goal with |- context [if ?b then _ else _] => destruct b end;
      discriminate.
Qed.

(** A same-origin GET request for a path that ends in [.html], or for the
    root path, is served cache first from the static store:
    [isStaticResource] accepts both, so the network-first branch of
    [handleRequest] is never the one taken. *)
Theorem html_documents_are_served_cache_first (request : SW.Request) :
  SW.origin request = SW.location_origin env ->
  SW.method request = "GET" ->
  endsWith (SW.pathname request) ".html" = true \/ SW.pathname request = "/" ->
  SW.onFetch env request =
  Some (try_catch (SW.cacheFirst env request SW.STATIC_CACHE)
                  (RouterSpec.on_error env request)).
Proof.
  intros Horigin Hmethod Hhtml. unfold SW.onFetch, SW.handleRequest.
  rewrite Horigin, Hmethod, !String.eqb_refl. cbn [negb].
  assert (Hstatic : SW.isStaticResource (SW.pathname request) = true).
  { unfold SW.isStaticResource. destruct Hhtml as [-> | ->].
    - apply orb_true_r.
    - reflexivity. }
  now rewrite Hstatic.
Qed.

End Router.

Lemma html_documents_are_served_cache_first_witness :
  SW.onFetch Samples.offline_env (Samples.get_request "/index.html") =
  Some (try_catch (SW.cacheFirst Samples.offline_env (Samples.get_request "/index.html")
                                 SW.STATIC_CACHE)
                  (RouterSpec.on_error Samples.offline_env
                                       (Samples.get_request "/index.html"))).
Proof.
  apply (html_documents_are_served_cache_first Samples.offline_env
           (Samples.get_request "/index.html")); [reflexivity | reflexivity |].
  left. reflexivity.
Defined.

Lemma classification_follows_ordered_rule_witness :
  SW.onFetch Samples.offline_env
    (SW.post_json Samples.offline_env "/api/clockin" JS.Null) = None.
Proof.
  apply (classification_follows_ordered_rule Samples.offline_env
           (SW.post_json Samples.offline_env "/api/clockin" JS.Null)).
  right. discriminate.
Defined.

(** ** The Cache Storage *)

Section CacheStorage.
Import SW.
Implicit Types (cs : list (string * gmap string Response)) (name key : string).

Lemma named_app name cs cs' : named name (cs ++ cs') = named name cs ++ named name cs'.
Proof. unfold named. apply List.filter_app. Qed.

Lemma match_in_app cs cs' key :
  match_in (cs ++ cs') key =
  match match_in cs key with Some r => Some r | None => match_in cs' key end.
Proof.
  induction cs as [| [n c] cs IH]; cbn; [reflexivity |].
  destruct (c !! key); [reflexivity | exact IH].
Qed.

(** After [caches.open(name)] and [cache.put], the store has the entry. *)
Lemma put_in_open_in_entry name key r cs :
  match_in (named name (put_in name key r (open_in name cs))) key = Some r.
Proof.
  unfold open_in. destruct (has_cache name cs) eqn:Hhas.
  - induction cs as [| [n c] cs IH]; [discriminate |].
    cbn in Hhas |- *. destruct (String.eqb n name) eqn:Hn; cbn; rewrite Hn; cbn.
    + now rewrite lookup_insert_eq.
    + apply IH. exact Hhas.
  - unfold put_in. rewrite List.map_app, named_app, match_in_app.
    assert (Hnone : named name (map (fun nc => if String.eqb (fst nc) name
                 then (fst nc, <[key := r]> (snd nc)) else nc) cs) = []).
    { induction cs as [| [n c] cs IH]; [reflexivity |].
      cbn in Hhas |- *. apply orb_false_iff in Hhas as [Hn Hrest].
      rewrite Hn. cbn. rewrite Hn. now apply IH. }
    rewrite Hnone. cbn. rewrite String.eqb_refl. cbn. rewrite String.eqb_refl. cbn.
    now rewrite lookup_insert_eq.
Qed.

(** ... and every other entry of every store is what it was. *)
Lemma put_in_open_in_frame name key r cs name' key' :
  name' <> name \/ key' <> key ->
  match_in (named name' (put_in name key r (open_in name cs))) key' =
  match_in (named name' cs) key'.
Proof.
  intros Hother.
  assert (Hput : forall cs0,
    match_in (named name' (put_in name key r cs0)) key' = match_in (named name' cs0) key').
  { induction cs0 as [| [n c] cs0 IH]; [reflexivity |].
    cbn. destruct (String.eqb_spec n name) as [-> | Hn]; cbn.
    - destruct (String.eqb_spec name name') as [<- | Hn']; cbn; [| exact IH].
      destruct Hother as [Hname | Hkey]; [congruence |].
      rewrite lookup_insert_ne by congruence.
      destruct (c !! key'); [reflexivity | exact IH].
    - destruct (String.eqb n name'); cbn; [| exact IH].
      destruct (c !! key'); [reflexivity | exact IH]. }
  rewrite Hput. unfold open_in. destruct (has_cache name cs); [reflexivity |].
  rewrite named_app, match_in_app. cbn.
  destruct (match_in (named name' cs) key'); [reflexivity |].
  destruct (String.eqb name name'); reflexivity.
Qed.

(** When no other store holds the key, [caches.match] answers with the
    entry of the named store. *)
Lemma match_in_only name key cs :
  (forall name', name' <> name -> match_in (named name' cs) key = None) ->
  match_in cs key = match_in (named name cs) key.
Proof.
  induction cs as [| [n c] cs IH]; intros Hothers; [reflexivity |].
  cbn. destruct (String.eqb_spec n name) as [-> | Hn]; cbn.
  - destruct (c !! key); [reflexivity |]. apply IH.
    intros name' Hname'. specialize (Hothers name' Hname'). cbn in Hothers.
    destruct (String.eqb_spec name name'); [congruence | exact Hothers].
  - pose proof (Hothers n Hn) as Hhead. cbn in Hhead. rewrite String.eqb_refl in Hhead.
    cbn in Hhead. destruct (c !! key); [discriminate |]. apply IH.
    intros name' Hname'. specialize (Hothers name' Hname'). cbn in Hothers.
    destruct (String.eqb n name'); cbn in Hothers; [| exact Hothers].
    destruct (c !! key); [discriminate | exact Hothers].
Qed.

(** A hit in one store is a hit of [caches.match]. *)
Lemma match_in_named_hit name key cs r :
  match_in (named name cs) key = Some r -> match_in cs key <> None.
Proof.
  induction cs as [| [n c] cs IH]; [discriminate |].
  cbn. destruct (String.eqb n name); cbn.
  - destruct (c !! key); [discriminate | exact IH].
  - destruct (c !! key); [discriminate | exact IH].
Qed.

(** Opening a store files nothing. *)
Lemma match_in_named_open_in name name' key cs :
  match_in (named name' (open_in name cs)) key = match_in (named name' cs) key.
Proof.
  unfold open_in. destruct (has_cache name cs); [reflexivity |].
  rewrite named_app, match_in_app.
  destruct (match_in (named name' cs) key); [reflexivity |].
  cbn. destruct (String.eqb name name'); reflexivity.
Qed.

(** What an unawaited [cache.put] leaves behind. *)
Lemma unawaited_put name request r w :
  unawaited (cache_put name request r) w =
  (Ok tt, if storable request r
          then set_caches (put_in name (url request) r) w
          else w).
Proof. unfold unawaited, cache_put. now destruct (storable request r). Qed.

End CacheStorage.

(** ** Headers *)

Section HeadersFacts.
Import SW JSString.

Lemma Headers_get_lc_set_lc_eq h name value :
  Headers_get_lc (Headers_set_lc h name value) name = Some value.
Proof.
  induction h as [| [k v] h IH]; cbn.
  - now rewrite String.eqb_refl.
  - destruct (String.eqb k name) eqn:Hk; cbn; rewrite Hk; [reflexivity | exact IH].
Qed.

Lemma Headers_get_lc_set_lc_ne h name value name' :
  name <> name' ->
  Headers_get_lc (Headers_set_lc h name value) name' = Headers_get_lc h name'.
Proof.
  intros Hne. induction h as [| [k v] h IH]; cbn.
  - apply String.eqb_neq in Hne. now rewrite Hne.
  - destruct (String.eqb_spec k name) as [-> | Hk]; cbn.
    + apply String.eqb_neq in Hne. now rewrite Hne.
    + destruct (String.eqb k name'); [reflexivity | exact IH].
Qed.

Lemma Headers_get_set_eq h name value :
  Headers_get (Headers_set h name value) name = Some value.
Proof. apply Headers_get_lc_set_lc_eq. Qed.

Lemma Headers_get_set_ne h name value name' :
  lower name <> lower name' ->
  Headers_get (Headers_set h name value) name' = Headers_get h name'.
Proof. apply Headers_get_lc_set_lc_ne. Qed.

End HeadersFacts.

(** ** The cache-first strategy *)

Section CacheFirst.
Import SW.
Variable env : Env.

(** C7 (as the code has it). Cache first: when [caches.match] finds the
    request, the handler returns that very response and leaves the world as
    it is, so no call of [fetch] is made; an entry of the named store is
    such a hit, and it is the response returned when no other store holds
    the key.  On a miss the handler calls the network once and returns the
    live response.  A successful response is handed to [cache.put], which
    is not awaited: it is filed in the named store under the request when
    the Cache API takes it (a GET over http or https, a status other than
    206, no [Vary: *]), every other entry staying as it was, and it is
    filed nowhere otherwise; an unsuccessful response is never stored, and
    a rejected [fetch] rejects the handler without touching the stores. *)
Theorem cacheFirst_hit_and_miss (w : World) (request : Request) (cacheName : string) :
  let key := url request in
  let out := cacheFirst env request cacheName w in
  (forall cached, match_in (caches w) key = Some cached -> out = (Ok cached, w)) /\
  (forall entry, cache_entry w cacheName key = Some entry ->
     exists cached, match_in (caches w) key = Some cached /\
       ((forall other, other <> cacheName -> cache_entry w other key = None) ->
        cached = entry)) /\
  (match_in (caches w) key = None ->
     netlog (snd out) = netlog w ++ [request] /\
     db (snd out) = db w /\
     notifications (snd out) = notifications w /\
     match network env (netlog w) request with
     | Throw e => fst out = Throw e /\ caches (snd out) = caches w
     | Ok response =>
         fst out = Ok response /\
         if ok response
         then if storable request response
              then cache_entry (snd out) cacheName key = Some response /\
                   (forall name' key', name' <> cacheName \/ key' <> key ->
                      cache_entry (snd out) name' key' = cache_entry w name' key')
              else forall name' key',
                     cache_entry (snd out) name' key' = cache_entry w name' key'
         else caches (snd out) = caches w
     end).
Proof.
  cbv zeta. split; [| split].
  - intros cached Hhit. unfold cacheFirst.
    erewrite bind_ok by (unfold caches_match, gets; rewrite Hhit; reflexivity).
    reflexivity.
  - intros entry Hentry. unfold cache_entry in *.
    destruct (match_in (caches w) (url request)) as [cached |] eqn:Hmatch.
    + exists cached. split; [reflexivity |]. intros Hothers.
      rewrite (match_in_only cacheName) in Hmatch by exact Hothers. congruence.
    + now apply match_in_named_hit in Hentry.
  - intros Hmiss. unfold cacheFirst.
    erewrite bind_ok by (unfold caches_match, gets; rewrite Hmiss; reflexivity).
    unfold mbind, M_bind, bind, fetch, mret, M_ret, ret, caches_open.
    destruct (network env (netlog w) request) as [response | e]; cbn [fst snd].
    + destruct (ok response); [| repeat split].
      rewrite unawaited_put.
      destruct (storable request response); cbn [fst snd]; unfold set_caches, set_netlog;
        cbn [caches netlog db notifications].
      * repeat split; try reflexivity.
        -- unfold cache_entry. cbn [caches]. apply put_in_open_in_entry.
        -- intros name' key' Hother. unfold cache_entry. cbn [caches].
           now apply put_in_open_in_frame.
      * repeat split; try reflexivity.
        intros name' key'. unfold cache_entry. cbn [caches]. apply match_in_named_open_in.
    + repeat split; reflexivity.
Qed.

End CacheFirst.

(** C7 (as stated) fails for a partial response: the network answers the
    request for a script with status 206, which is a success; the handler
    returns it, and the static store does not hold it afterwards. *)
Lemma partial_response_is_returned_and_not_stored :
  ~ (fst (SW.cacheFirst Samples.partial_env (Samples.get_request "/js/main.js")
            SW.STATIC_CACHE Samples.empty_world) = Ok Samples.partial_response ->
     SW.ok Samples.partial_response = true ->
     SW.cache_entry
       (snd (SW.cacheFirst Samples.partial_env (Samples.get_request "/js/main.js")
               SW.STATIC_CACHE Samples.empty_world))
       SW.STATIC_CACHE "https://app.example/js/main.js" = Some Samples.partial_response).
Proof. intros Hclaim. specialize (Hclaim eq_refl eq_refl). discriminate Hclaim. Qed.

(** A successful response whose [Vary] header names [*] among its fields
    is not one that the Cache API takes either. *)
Example varying_response_is_not_storable :
  SW.ok Samples.varying_response = true /\
  SW.storable (Samples.get_request "/css/style.css") Samples.varying_response = false /\
  SW.storable (Samples.get_request "/css/style.css") (Samples.ok_response "{}") = true.
Proof. repeat split. Qed.

(** ** HTML documents *)

Section HtmlDocuments.
Import JSString SW.
Variable env : Env.


End HtmlDocuments.


(** ** Network first with fallback *)

Section NetworkFirstWithFallback.
Import SW JSString.
Variable env : Env.

(** The date a cached response was captured, as the marker header gives it. *)
Lemma served_from_cache_markers (cached : Response) :
  Headers_get (headers (served_from_cache cached)) "X-Served-By" = Some "ServiceWorker" /\
  Headers_get (headers (served_from_cache cached)) "X-Cache-Date" =
    Some (match Headers_get (headers cached) "date" with
          | Some d => if String.eqb d EmptyString then "unknown" else d
          | None => "unknown"
          end) /\
  (forall name, lower name <> "x-served-by" -> lower name <> "x-cache-date" ->
     Headers_get (headers (served_from_cache cached)) name =
     Headers_get (headers cached) name).
Proof.
  unfold served_from_cache. cbn [headers]. repeat split.
  - rewrite Headers_get_set_ne by discriminate. apply Headers_get_set_eq.
  - apply Headers_get_set_eq.
  - intros name Hserved Hdate.
    rewrite !Headers_get_set_ne; [reflexivity | |];
      intros Heq; [apply Hserved | apply Hdate]; now rewrite <- Heq.
Qed.

Lemma served_is_not_synthesized (cached : Response) (pathname : string) :
  served_from_cache cached <> createOfflineAPIResponse env pathname.
Proof.
  intros Heq.
  pose proof (served_from_cache_markers cached) as [Hserved _].
  rewrite Heq in Hserved. discriminate Hserved.
Qed.

(** C5. Network first with fallback, when the network attempt fails (a
    rejected [fetch] or a response that is not a success): one call went to
    the network and nothing else changed; if [caches.match] finds the
    request, the answer is the cached response with its status and body,
    its headers, and the two markers [X-Served-By: ServiceWorker] and
    [X-Cache-Date] (the cached [date] header, or [unknown] without one), and
    it is never the synthesized response; an entry of the API store is such
    a hit; the synthesizer answers only when [caches.match] finds nothing. *)
Theorem api_fallback_prefers_the_cache (w : World) (request : Request) :
  let key := url request in
  let out := networkFirstWithFallback env request w in
  network_failed env w request ->
  snd out = set_netlog (fun l => l ++ [request]) w /\
  (forall cached, match_in (caches w) key = Some cached ->
     fst out = Ok (served_from_cache cached) /\
     served_from_cache cached <> createOfflineAPIResponse env (pathname request) /\
     status (served_from_cache cached) = status cached /\
     body (served_from_cache cached) = body cached /\
     Headers_get (headers (served_from_cache cached)) "X-Served-By" = Some "ServiceWorker" /\
     Headers_get (headers (served_from_cache cached)) "X-Cache-Date" =
       Some (match Headers_get (headers cached) "date" with
             | Some d => if String.eqb d EmptyString then "unknown" else d
             | None => "unknown"
             end) /\
     (forall name, lower name <> "x-served-by" -> lower name <> "x-cache-date" ->
        Headers_get (headers (served_from_cache cached)) name =
        Headers_get (headers cached) name)) /\
  (forall entry, cache_entry w API_CACHE key = Some entry ->
     exists cached, match_in (caches w) key = Some cached /\
       ((forall other, other <> API_CACHE -> cache_entry w other key = None) ->
        cached = entry)) /\
  (fst out = Ok (createOfflineAPIResponse env (pathname request)) <->
   match_in (caches w) key = None).
Proof.
  cbv zeta. intros Hfail.
  assert (Hrun : networkFirstWithFallback env request w =
                 (match match_in (caches w) (url request) with
                  | Some c => Ok (served_from_cache c)
                  | None => Ok (createOfflineAPIResponse env (pathname request))
                  end, set_netlog (fun l => l ++ [request]) w)).
  { unfold networkFirstWithFallback, network_failed in *.
    unfold try_catch, mbind, M_bind, bind, fetch, throw, caches_match, gets, mret, M_ret, ret.
    destruct (network env (netlog w) request) as [response | e]; cbn.
    - rewrite Hfail. cbn. destruct (match_in (caches w) (url request)); reflexivity.
    - destruct (match_in (caches w) (url request)); reflexivity. }
  rewrite Hrun. cbn [fst snd]. split; [reflexivity |]. split; [| split].
  - intros cached Hhit. rewrite Hhit.
    pose proof (served_from_cache_markers cached) as (Hserved & Hdate & Hrest).
    split; [reflexivity |]. split; [apply served_is_not_synthesized |].
    repeat split; assumption.
  - intros entry Hentry. unfold cache_entry in *.
    destruct (match_in (caches w) (url request)) as [cached |] eqn:Hmatch.
    + exists cached. split; [reflexivity |]. intros Hothers.
      rewrite (match_in_only API_CACHE) in Hmatch by exact Hothers. congruence.
    + now apply match_in_named_hit in Hentry.
  - destruct (match_in (caches w) (url request)) as [cached |]; split; intros H;
      try reflexivity; try discriminate.
    exfalso. apply (served_is_not_synthesized cached (pathname request)). congruence.
Qed.

(** When the network answers with a success, the live response is
    returned.  It is filed in the API store when the path starts with one
    of the allow-listed prefixes and the Cache API takes the pair (a GET
    over http or https, a status other than 206, no [Vary: *]), every
    other entry staying as it was; otherwise nothing is filed. *)
Theorem api_success_is_cached_when_allow_listed (w : World) (request : Request)
    (response : Response) :
  network env (netlog w) request = Ok response ->
  ok response = true ->
  let key := url request in
  let out := networkFirstWithFallback env request w in
  fst out = Ok response /\
  netlog (snd out) = netlog w ++ [request] /\
  if isCacheableAPI (pathname request) && storable request response
  then cache_entry (snd out) API_CACHE key = Some response /\
       (forall name' key', name' <> API_CACHE \/ key' <> key ->
          cache_entry (snd out) name' key' = cache_entry w name' key')
  else forall name' key', cache_entry (snd out) name' key' = cache_entry w name' key'.
Proof.
  intros Hnet Hok. cbv zeta. unfold networkFirstWithFallback.
  unfold try_catch, mbind, M_bind, bind, fetch, mret, M_ret, ret, caches_open.
  rewrite Hnet. cbn [fst snd]. rewrite Hok.
  destruct (isCacheableAPI (pathname request)); cbn [andb].
  - rewrite unawaited_put.
    destruct (storable request response); cbn [fst snd]; unfold set_caches, set_netlog;
      cbn [caches netlog].
    + repeat split.
      * unfold cache_entry. cbn [caches]. apply put_in_open_in_entry.
      * intros name' key' Hother. unfold cache_entry. cbn [caches].
        now apply put_in_open_in_frame.
    + repeat split. intros name' key'. unfold cache_entry. cbn [caches].
      apply match_in_named_open_in.
  - repeat split.
Qed.

End NetworkFirstWithFallback.

Lemma api_success_is_cached_when_allow_listed_witness :
  SW.cache_entry
    (snd (SW.networkFirstWithFallback Samples.online_env
            (Samples.get_request "/api/mobile/employees") Samples.empty_world))
    SW.API_CACHE "https://app.example/api/mobile/employees" =
  Some (Samples.ok_response "{}").
Proof.
  apply (api_success_is_cached_when_allow_listed Samples.online_env Samples.empty_world
           (Samples.get_request "/api/mobile/employees") (Samples.ok_response "{}")
           eq_refl eq_refl).
Defined.

Lemma api_fallback_prefers_the_cache_witness :
  fst (SW.networkFirstWithFallback Samples.offline_env
         (Samples.get_request "/api/mobile/employees") Samples.world_with_roster) =
  Ok (SW.served_from_cache (Samples.ok_response "{}")).
Proof.
  apply (api_fallback_prefers_the_cache Samples.offline_env Samples.world_with_roster
           (Samples.get_request "/api/mobile/employees")).
  - exact I.
  - reflexivity.
Defined.

(** ** The pending-action stores of the worker and their drain *)

Section ObjectStores.
Import SW.

Lemma ascending_tail r l : ascending (r :: l) = true -> ascending l = true.
Proof. cbn. intros H. now apply andb_true_iff in H. Qed.

Lemma ascending_head r l x :
  ascending (r :: l) = true -> In x l -> (id r < id x)%Z.
Proof.
  cbn. intros H Hin. apply andb_true_iff in H as [H _].
  rewrite forallb_forall in H. apply Z.ltb_lt. now apply H.
Qed.

(** Two records of a store never share a key. *)
Lemma ascending_head_fresh r l x :
  ascending (r :: l) = true -> In x l -> id x <> id r.
Proof. intros H Hin. pose proof (ascending_head r l x H Hin). lia. Qed.

(** [add] with a generated key puts the new record last. *)
Lemma store_add_appends st d :
  store_ok st = true ->
  records (store_add st d) = records st ++ [ {| id := (keygen st + 1)%Z; data := d |} ].
Proof.
  unfold store_ok, store_add. cbn. intros H. apply andb_true_iff in H as [_ H].
  induction (records st) as [| r l IH]; [reflexivity |].
  cbn in H |- *. apply andb_true_iff in H as [Hr Hl].
  apply Z.leb_le in Hr.
  destruct (Z.ltb_spec (keygen st + 1) (id r)); [lia |].
  now rewrite IH.
Qed.

Lemma store_add_ok st d : store_ok st = true -> store_ok (store_add st d) = true.
Proof.
  intros H. unfold store_ok. rewrite (store_add_appends st d H).
  unfold store_ok in H. apply andb_true_iff in H as [Hasc Hle].
  cbn [keygen store_add]. apply andb_true_iff. split.
  - clear - Hasc Hle. induction (records st) as [| r l IH]; [reflexivity |].
    cbn in *. apply andb_true_iff in Hasc as [Hr Hasc].
    apply andb_true_iff in Hle as [Hle1 Hle2].
    rewrite forallb_app, Hr, (IH Hasc Hle2). cbn.
    apply Z.leb_le in Hle1. rewrite andb_true_r. apply andb_true_iff. split; [| reflexivity].
    apply Z.ltb_lt. lia.
  - rewrite forallb_app. cbn. apply andb_true_iff. split.
    + rewrite forallb_forall in Hle |- *. intros x Hx. specialize (Hle x Hx).
      apply Z.leb_le in Hle. apply Z.leb_le. lia.
    + rewrite andb_true_r. apply Z.leb_le. lia.
Qed.

(** [delete] keeps the order of the records that stay. *)
Lemma store_delete_ok st k : store_ok st = true -> store_ok (store_delete st k) = true.
Proof.
  unfold store_ok, store_delete. cbn. intros H. apply andb_true_iff in H as [Hasc Hle].
  apply andb_true_iff. split.
  - clear Hle. induction (records st) as [| r l IH]; [reflexivity |].
    cbn in Hasc |- *. apply andb_true_iff in Hasc as [Hr Hasc].
    destruct (negb (id r =? k)%Z); cbn; [| now apply IH].
    rewrite (IH Hasc), andb_true_r.
    rewrite forallb_forall in Hr |- *. intros x Hx. apply Hr.
    now apply List.filter_In in Hx.
  - rewrite forallb_forall in Hle |- *. intros x Hx. apply Hle.
    now apply List.filter_In in Hx.
Qed.

End ObjectStores.

Section Drain.
Import SW DrainSpec.
Variable env : Env.
Variables storeName path title : string.

Lemma gone_among log pending k :
  In k (gone env storeName path log pending) -> In k (map id pending).
Proof.
  revert log. induction pending as [| item rest IH]; intros log; cbn; [tauto |].
  destruct (leaves env storeName path log item); cbn; intros H.
  - destruct H as [H | H]; [now left | right; eauto].
  - right. eauto.
Qed.

Lemma survivors_among log pending x :
  In x (survivors env storeName path log pending) -> In x pending.
Proof.
  revert log. induction pending as [| item rest IH]; intros log; cbn; [tauto |].
  destruct (leaves env storeName path log item); cbn; intros H.
  - right. eauto.
  - destruct H as [H | H]; [now left | right; eauto].
Qed.

(** One turn of the loop never throws, whatever the network and the
    database say: a failed removal is caught like a failed replay. *)
Lemma replay_all_cons item rest w :
  replay_all env storeName path title (item :: rest) w =
  replay_all env storeName path title rest (after_replay env storeName path title w item).
Proof.
  cbn [replay_all].
  unfold mbind, M_bind, bind, try_catch, fetch, removeStoredData, showNotification,
    modify, mret, M_ret, ret, after_replay, leaves, replay_succeeds, removal_succeeds,
    replay_request.
  destruct (network env (netlog w) (post_json env path (data item))) as [response | e];
    [| reflexivity].
  destruct (ok response); [| reflexivity]. cbn [andb].
  destruct (db_delete env storeName (id item)) as [[] | e]; [| reflexivity].
  destruct (can_notify env); reflexivity.
Qed.

Lemma after_replay_netlog w item :
  netlog (after_replay env storeName path title w item) = netlog w ++ [replay_request env path item].
Proof.
  unfold after_replay. destruct (leaves env storeName path (netlog w) item); [| reflexivity].
  destruct (can_notify env); reflexivity.
Qed.

Lemma after_replay_store w item :
  records (store_of (after_replay env storeName path title w item) storeName) =
  if leaves env storeName path (netlog w) item
  then List.filter (fun r => negb (id r =? id item)%Z) (records (store_of w storeName))
  else records (store_of w storeName).
Proof.
  unfold after_replay. destruct (leaves env storeName path (netlog w) item); [| reflexivity].
  unfold store_of. destruct (can_notify env); cbn; now rewrite lookup_insert_eq.
Qed.

(** The loop, entry by entry: every replay goes out, and the store loses
    the keys of the entries that leave. *)
Lemma replay_all_effect :
  forall pending w,
    let out := replay_all env storeName path title pending w in
    fst out = Ok tt /\
    netlog (snd out) = netlog w ++ map (replay_request env path) pending /\
    records (store_of (snd out) storeName) =
      List.filter (fun r => negb (existsb (Z.eqb (id r))
                                    (gone env storeName path (netlog w) pending)))
                  (records (store_of w storeName)).
Proof.
  induction pending as [| item rest IH]; intros w; cbv zeta.
  - cbn. rewrite app_nil_r. repeat split.
    induction (records (store_of w storeName)) as [| r l IHl]; [reflexivity |].
    cbn. now rewrite <- IHl.
  - rewrite replay_all_cons.
    specialize (IH (after_replay env storeName path title w item)). cbv zeta in IH.
    destruct IH as (IH1 & IH2 & IH3). split; [exact IH1 |]. split.
    + rewrite IH2, after_replay_netlog. cbn [map]. now rewrite <- app_assoc.
    + rewrite IH3, after_replay_netlog, after_replay_store. cbn [gone].
      destruct (leaves env storeName path (netlog w) item); [| reflexivity].
      induction (records (store_of w storeName)) as [| r l IHl]; [reflexivity |].
      cbn. destruct (id r =? id item)%Z; cbn; [exact IHl |].
      destruct (existsb (Z.eqb (id r)) _); cbn; [exact IHl | now rewrite IHl].
Qed.

(** On a queue without repeated keys, dropping the keys that are gone is
    keeping the entries that stayed. *)
Lemma filter_gone_survivors pending log :
  ascending pending = true ->
  List.filter (fun r => negb (existsb (Z.eqb (id r)) (gone env storeName path log pending)))
              pending =
  survivors env storeName path log pending.
Proof.
  revert log. induction pending as [| item rest IH]; intros log Hasc; [reflexivity |].
  pose proof (ascending_tail _ _ Hasc) as Hrest.
  assert (Hfresh : forall log', existsb (Z.eqb (id item))
                                  (gone env storeName path log' rest) = false).
  { intros log'. destruct (existsb _ _) eqn:Hex; [| reflexivity].
    apply existsb_exists in Hex as (k & Hk & Heq). apply Z.eqb_eq in Heq. subst k.
    apply gone_among, in_map_iff in Hk as (x & Hid & Hx).
    now apply (ascending_head_fresh _ _ _ Hasc) in Hx. }
  cbn [survivors gone].
  destruct (leaves env storeName path log item).
  - cbn. rewrite Z.eqb_refl. cbn. rewrite <- (IH _ Hrest).
    apply List.filter_ext_in. intros x Hx. cbn.
    destruct (Z.eqb_spec (id x) (id item)) as [Heq | _]; [| reflexivity].
    now apply (ascending_head_fresh _ _ _ Hasc) in Hx.
  - cbn. rewrite Hfresh. cbn. now rewrite (IH _ Hrest).
Qed.

(** An entry stays exactly when it did not leave: its own replay, sent
    after those of the entries before it, got no success, or its removal
    was not carried out. *)
Lemma survivors_iff before item after log :
  ascending (before ++ item :: after) = true ->
  In item (survivors env storeName path log (before ++ item :: after)) <->
  leaves env storeName path (log ++ map (replay_request env path) before) item = false.
Proof.
  revert log. induction before as [| b before IH]; intros log Hasc.
  - cbn. rewrite app_nil_r. destruct (leaves env storeName path log item).
    + split; [| discriminate]. intros Hin. apply survivors_among in Hin.
      now apply (ascending_head_fresh _ _ _ Hasc) in Hin.
    + split; [reflexivity | now left].
  - cbn [app survivors map].
    assert (Hne : b <> item).
    { intros ->. apply (ascending_head_fresh item (before ++ item :: after) item Hasc);
        [apply in_or_app; right; now left | reflexivity]. }
    specialize (IH (log ++ [replay_request env path b]) (ascending_tail _ _ Hasc)).
    rewrite <- app_assoc in IH. cbn [app] in IH. rewrite <- IH.
    destruct (leaves env storeName path log b); [reflexivity |].
    cbn. split; [intros [H | H]; [congruence | exact H] | now right].
Qed.

End Drain.

Section DrainPass.
Import SW DrainSpec.

Lemma sync_store_pass (env : Env) (w : World) (storeName path title : string) :
  store_ok (store_of w storeName) = true ->
  fifo_pass env storeName path w
    (try_catch
       (openIndexedDB env ≫= fun _ =>
        getStoredData env storeName ≫= fun pending =>
        replay_all env storeName path title pending)
       (fun _ => mret tt) w).
Proof.
  intros Hok.
  assert (Hasc : ascending (records (store_of w storeName)) = true).
  { unfold store_ok in Hok. now apply andb_true_iff in Hok. }
  pose proof (replay_all_effect env storeName path title
                (records (store_of w storeName)) w) as Heffect.
  cbv zeta in Heffect. destruct Heffect as (Hresult & Hlog & Hstore).
  rewrite filter_gone_survivors in Hstore by exact Hasc.
  unfold fifo_pass, lists.
  unfold try_catch, mbind, M_bind, bind, openIndexedDB, getStoredData, settle.
  destruct (db_open env) as [[] | e].
  2:{ cbn [fst snd]. split; [reflexivity |]. split; [reflexivity |].
      split; [discriminate |]. split; [intros item; repeat split |].
      intros d. now apply store_add_appends. }
  destruct (db_getAll env storeName) as [[] | e].
  2:{ cbn [fst snd]. split; [reflexivity |]. split; [reflexivity |].
      split; [discriminate |]. split; [intros item; repeat split |].
      intros d. now apply store_add_appends. }
  destruct (replay_all env storeName path title (records (store_of w storeName)) w)
    as [[[] | e] w'] eqn:Hrun; cbn [fst snd] in *; [| discriminate].
  split; [reflexivity |]. split; [discriminate |]. split; [| split].
  - intros _. split; [exact Hlog |]. split; [exact Hstore |].
    intros before item after Hsplit. rewrite Hstore, Hsplit.
    rewrite survivors_iff by now rewrite <- Hsplit.
    unfold leaves. apply andb_false_iff.
  - intros item. repeat split.
  - intros d. now apply store_add_appends.
Qed.

(** C2 (as the code has it). One pass of [syncClockInData], and one of
    [syncClockOutData], ends normally whatever happens.  When the database
    opens and lists the store, the entries of the queue are replayed
    against the network once each, in the order of the queue, which is the
    order of insertion; each replay is a POST of the entry's payload as
    JSON to the path of its action; an entry leaves the queue exactly when
    its own replay got a success response and the database carried its
    removal out; an entry whose replay was rejected or got another status,
    or whose removal failed, stays where it was, and the replays after it
    still go out.  When the database does not open or does not list the
    store, nothing is sent and nothing changes. *)
Theorem drain_pass_is_fifo_and_keeps_failures (env : Env) (w : World) :
  store_ok (store_of w "pendingClockIns") = true ->
  store_ok (store_of w "pendingClockOuts") = true ->
  fifo_pass env "pendingClockIns" "/api/clockin" w (syncClockInData env w) /\
  fifo_pass env "pendingClockOuts" "/api/clockout" w (syncClockOutData env w).
Proof.
  intros Hins Houts. split.
  - now apply sync_store_pass.
  - now apply sync_store_pass.
Qed.

(** The pass on two queued clock-ins with a network that drops the first
    call: both are sent, in order, and only the first stays queued. *)
Example partial_drain :
  let out := syncClockInData Samples.flaky_env Samples.two_queued in
  map pathname (netlog (snd out)) = [ "/api/clockin"; "/api/clockin" ] /\
  map req_body (netlog (snd out)) =
    [ Some (JS.stringify (Samples.clock_in_of "Somchai"));
      Some (JS.stringify (Samples.clock_in_of "Malee")) ] /\
  records (store_of (snd out) "pendingClockIns") =
    [ {| id := 1; data := Samples.clock_in_of "Somchai" |} ].
Proof. vm_compute. repeat split. Qed.

(** A record without [data] is replayed as a POST without a body. *)
Example replay_without_payload :
  req_body (DrainSpec.replay_request Samples.flaky_env "/api/clockin"
              {| id := 1; data := JS.Undefined |}) = None.
Proof. reflexivity. Qed.

End DrainPass.

Lemma drain_pass_is_fifo_and_keeps_failures_witness :
  DrainSpec.fifo_pass Samples.flaky_env "pendingClockIns" "/api/clockin" Samples.two_queued
    (SW.syncClockInData Samples.flaky_env Samples.two_queued).
Proof.
  apply (drain_pass_is_fifo_and_keeps_failures Samples.flaky_env Samples.two_queued).
  - vm_compute. reflexivity.
  - vm_compute. reflexivity.
Defined.

(** C2 (as stated) fails when the database refuses the removal: the
    replay of the first queued clock-in got a success response, and the
    entry is still in the queue after the pass. *)
Lemma replayed_entry_stays_when_its_removal_fails :
  ~ (DrainSpec.replay_succeeds Samples.stuck_store_env "/api/clockin" []
       {| SW.id := 1; SW.data := Samples.clock_in_of "Somchai" |} = true ->
     ~ In {| SW.id := 1; SW.data := Samples.clock_in_of "Somchai" |}
          (SW.records
             (SW.store_of (snd (SW.syncClockInData Samples.stuck_store_env
                                  Samples.two_queued))
                          "pendingClockIns"))).
Proof.
  intros Hclaim. apply Hclaim; [reflexivity |]. vm_compute. now left.
Qed.

(** ** The in-memory cache of the API client *)

Section ApiCache.
Import Core.

(** C9 (as the code has it). A lookup returns the stored value as long as
    the clock has not passed the entry's expiry, that is as long as no
    more than its time-to-live has elapsed since it was stored, the exact
    expiry included; after that the lookup deletes the entry and returns
    [null]; a key that was never stored gives [null] too. *)
Theorem api_cache_serves_until_expiry (c : gmap string CacheEntry) (key : string)
    (now : Z) :
  let out := getFromCache c key now in
  (c !! key = None -> out = (JS.Null, c)) /\
  (forall entry, c !! key = Some entry ->
     ((now <= expires entry)%Z -> out = (data entry, c)) /\
     ((expires entry < now)%Z -> out = (JS.Null, delete key c) /\ snd out !! key = None)) /\
  (forall d ttl stored_at,
     let c' := setCache c key d ttl stored_at in
     c' !! key = Some {| data := d; expires := (stored_at + ttl)%Z |} /\
     ((now - stored_at <= ttl)%Z -> getFromCache c' key now = (d, c')) /\
     ((ttl < now - stored_at)%Z -> getFromCache c' key now = (JS.Null, delete key c'))).
Proof.
  cbv zeta. unfold getFromCache, setCache. split; [| split].
  - intros ->. reflexivity.
  - intros entry ->. split.
    + intros Hfresh. destruct (Z.gtb_spec now (expires entry)); [lia | reflexivity].
    + intros Hstale. destruct (Z.gtb_spec now (expires entry)); [| lia].
      split; [reflexivity | apply lookup_delete_eq].
  - intros d ttl stored_at. rewrite lookup_insert_eq. cbn. repeat split.
    + intros Hfresh. destruct (Z.gtb_spec now (stored_at + ttl)); [lia | reflexivity].
    + intros Hstale. destruct (Z.gtb_spec now (stored_at + ttl)); [reflexivity | lia].
Qed.

End ApiCache.

(** C9 (as stated) fails at the boundary: an entry stored at 1000 with a
    time-to-live of 30000 is still served at 31000, when the whole
    time-to-live has elapsed. *)
Lemma entry_served_at_exact_expiry :
  ~ (fst (Core.getFromCache
            (Core.setCache ∅ "/employees:{}" (JS.Obj [ ("success", JS.Bool true) ])
                           30000 1000)
            "/employees:{}" 31000) = JS.Obj [ ("success", JS.Bool true) ] ->
     (31000 - 1000 < 30000)%Z).
Proof. intros Hclaim. specialize (Hclaim eq_refl). lia. Qed.

(** ** Clock-in and clock-out without connectivity *)

Section OfflineClockAction.
Import Core.
Variable env : Env.

Lemma attempts_untouched f left attempt w :
  untouched w (snd (attempts env f left attempt w)).
Proof.
  revert attempt w. induction left as [| left IH]; intros attempt w; [now split |].
  cbn [attempts]. unfold try_catch, mbind, M_bind, bind, fetch, throw, settle.
  destruct (String.eqb (fetch_method f) "GET" && bool_decide (fetch_body f <> None)).
  - destruct (attempt =? retryCount)%nat; [now split | apply IH].
  - destruct (network env (netlog w) f) as [response | e]; cbn.
    + destruct (ok response); cbn.
      * destruct (json response); cbn; [now split |].
        destruct (attempt =? retryCount)%nat; [now split |].
        apply (IH (S attempt) (set_netlog (fun l => l ++ [f]) w)).
      * destruct (attempt =? retryCount)%nat; [now split |].
        apply (IH (S attempt) (set_netlog (fun l => l ++ [f]) w)).
    + destruct (attempt =? retryCount)%nat; [now split |].
      apply (IH (S attempt) (set_netlog (fun l => l ++ [f]) w)).
Qed.

Lemma makeRequest_untouched endpoint options w :
  untouched w (snd (makeRequest env endpoint options w)).
Proof. apply attempts_untouched. Qed.

Lemma call_untouched endpoint options w :
  untouched w (snd (call env endpoint options w)).
Proof.
  unfold call, try_catch, mbind, M_bind, bind, gets, settle, modify, throw, mret, M_ret, ret.
  destruct (is_get options); cbn -[makeRequest].
  - destruct (getFromCache (cache w) _ (now env)) as [v c]. cbn -[makeRequest].
    destruct (JS.truthy v); [now split |]. cbn -[makeRequest].
    destruct (pendingRequests w !! _) as [[v' | e] |]; cbn -[makeRequest]; try now split.
    pose proof (makeRequest_untouched endpoint options (set_cache (fun _ => c) w)) as Hframe.
    destruct (makeRequest env endpoint options (set_cache (fun _ => c) w))
      as [[result | e] w1]; cbn -[makeRequest read] in *.
    + match goal with |- context [read result "success" ?w3] =>
        destruct (read_cases result "success" w3) as [[msg [-> _]] | [-> _]]
      end; [exact Hframe |].
      destruct (JS.truthy (JS.get result "success")); exact Hframe.
    + exact Hframe.
  - destruct (pendingRequests w !! _) as [[v' | e] |]; cbn -[makeRequest]; try now split.
    pose proof (makeRequest_untouched endpoint options w) as Hframe.
    destruct (makeRequest env endpoint options w) as [[result | e] w1]; exact Hframe.
Qed.

(** The [catch] block of both methods, without connectivity: reading
    [clockData] there fails, before anything is stored. *)
Lemma catch_block_cannot_read_clockData (frames : list Frame) (type : string)
    (answer : JS.Value) (w : World) :
  lookup_frames frames "clockData" = None ->
  globals w !! "clockData" = None ->
  (resolve frames "clockData" ≫= fun clockData =>
   storeOfflineAction env type clockData ≫= fun _ => mret answer) w =
  (Throw (ReferenceError "clockData"), w).
Proof.
  intros Hframes Hglobal.
  unfold mbind, M_bind, bind, resolve. now rewrite Hframes, Hglobal.
Qed.

(** C1 (what the code does). When the runtime reports no connectivity and
    no global binding of [clockData] exists, a clock-in or a clock-out
    whose call fails in transport is rejected with a [ReferenceError]:
    the [catch] block reads [clockData], which is declared in the [try]
    block and is out of scope there.  Nothing is added to the pending
    queue and the caller gets no soft success. *)
Theorem offline_clock_action_rejects (w : World) (employeeName : string)
    (options : JS.Value) :
  onLine env = false ->
  globals w !! "clockData" = None ->
  (transport_fails env "/clockin" (clockInData env employeeName (or_empty options)) w ->
   fst (clockIn env employeeName options w) = Throw (ReferenceError "clockData") /\
   pendingActions (snd (clockIn env employeeName options w)) = pendingActions w) /\
  (transport_fails env "/clockout" (clockOutData env employeeName (or_empty options)) w ->
   fst (clockOut env employeeName options w) = Throw (ReferenceError "clockData") /\
   pendingActions (snd (clockOut env employeeName options w)) = pendingActions w).
Proof.
  intros Hoffline Hglobal. split; intros [e Hfails].
  - pose proof (call_untouched "/clockin"
                  (POST (clockInData env employeeName (or_empty options))) w)
      as [Hqueue Hglobals].
    destruct (call env "/clockin" (POST (clockInData env employeeName (or_empty options))) w)
      as [[response | e'] w'] eqn:Hcall; cbn [fst snd] in *; [discriminate |].
    assert (Hrun : exists w0,
               clockIn env employeeName options w =
                 (Throw (ReferenceError "clockData"), w0) /\
               pendingActions w0 = pendingActions w).
    { unfold clockIn, try_catch. cbv zeta.
      unfold mbind at 1, M_bind at 1, bind at 1.
      destruct (read_cases (or_empty options) "note" w) as [[msg [-> _]] | [-> _]].
      - exists w. rewrite Hoffline. cbn [negb]. split; [| reflexivity].
        now apply catch_block_cannot_read_clockData.
      - exists w'. unfold mbind at 1, M_bind at 1, bind at 1. rewrite Hcall, Hoffline.
        cbn [negb]. split; [| exact Hqueue].
        apply catch_block_cannot_read_clockData; [reflexivity | now rewrite Hglobals]. }
    destruct Hrun as (w0 & -> & Hw0). now split.
  - pose proof (call_untouched "/clockout"
                  (POST (clockOutData env employeeName (or_empty options))) w)
      as [Hqueue Hglobals].
    destruct (call env "/clockout" (POST (clockOutData env employeeName (or_empty options))) w)
      as [[response | e'] w'] eqn:Hcall; cbn [fst snd] in *; [discriminate |].
    assert (Hrun : exists w0,
               clockOut env employeeName options w =
                 (Throw (ReferenceError "clockData"), w0) /\
               pendingActions w0 = pendingActions w).
    { unfold clockOut, try_catch. cbv zeta.
      unfold mbind at 1, M_bind at 1, bind at 1.
      destruct (read_cases (or_empty options) "latitude" w) as [[msg [-> _]] | [-> _]].
      - exists w. rewrite Hoffline. cbn [negb]. split; [| reflexivity].
        now apply catch_block_cannot_read_clockData.
      - exists w'. unfold mbind at 1, M_bind at 1, bind at 1. rewrite Hcall, Hoffline.
        cbn [negb]. split; [| exact Hqueue].
        apply catch_block_cannot_read_clockData; [reflexivity | now rewrite Hglobals]. }
    destruct Hrun as (w0 & -> & Hw0). now split.
Qed.

End OfflineClockAction.

(** The failing input: a clock-in of one employee, no connectivity, every
    [fetch] rejected. *)
Lemma offline_clock_action_rejects_witness :
  Core.clockIn Samples.core_offline "Somchai" JS.Undefined Samples.core_idle =
    (Throw (ReferenceError "clockData"),
     Core.set_netlog
       (fun _ => let f := {| Core.fetch_url := "/api/mobile/clockin";
                             Core.fetch_method := "POST";
                             Core.fetch_body :=
                               Some (JS.stringify
                                       (Core.clockInData Samples.core_offline "Somchai"
                                          (JS.Obj []))) |} in
                 [f; f; f])
       Samples.core_idle) /\
  Core.pendingActions
    (snd (Core.clockIn Samples.core_offline "Somchai" JS.Undefined Samples.core_idle)) = [].
Proof.
  split; [vm_compute; reflexivity |].
  apply (offline_clock_action_rejects Samples.core_offline Samples.core_idle
           "Somchai" JS.Undefined); [reflexivity | reflexivity |].
  eexists. vm_compute. reflexivity.
Defined.

(** ** The drain of the application *)

Section AppDrain.
Import App.

Lemma finish_idle syncedCount failedCount s p :
  running s = [p] -> idle (finish 0 syncedCount failedCount s).
Proof.
  intros Hrun. unfold finish, idle.
  destruct (0 <? syncedCount)%nat, (0 <? failedCount)%nat; cbn; now rewrite Hrun.
Qed.

Lemma advance_idle_or_draining todo syncedCount failedCount s :
  draining s ->
  idle (advance 0 todo syncedCount failedCount s) \/
  draining (advance 0 todo syncedCount failedCount s).
Proof.
  intros [[p Hrun] Hflag]. revert failedCount.
  induction todo as [| action rest IH]; intros failedCount; cbn [advance].
  - left. now apply (finish_idle _ _ _ p).
  - destruct (is_clock_action action); [| apply IH].
    right. split; [| exact Hflag]. cbn. rewrite Hrun. cbn. eauto.
Qed.

Lemma syncOfflineData_idle_or_draining s :
  idle s \/ draining s ->
  idle (syncOfflineData s) \/ draining (syncOfflineData s).
Proof.
  intros [[Hrun Hflag] | [Hrun Hflag]]; unfold syncOfflineData; rewrite Hflag; cbn.
  - destruct (isOnline s); cbn; [| now left].
    right. split; [| reflexivity]. cbn. rewrite Hrun. cbn. eauto.
  - now right.
Qed.

(** Each turn of the event loop takes a state with no invocation
    suspended and the flag down, or one suspended and the flag up, to
    such a state again. *)
Lemma step_idle_or_draining s e :
  idle s \/ draining s -> idle (step s e) \/ draining (step s e).
Proof.
  intros Hinv. destruct e as [| | | | | k listed | k replayed removed]; cbn [step].
  - now apply syncOfflineData_idle_or_draining.
  - apply syncOfflineData_idle_or_draining.
    destruct Hinv as [[Hrun Hflag] | [Hrun Hflag]]; [left | right]; now split.
  - destruct Hinv as [[Hrun Hflag] | [Hrun Hflag]]; [left | right]; now split.
  - destruct (isOnline s); [now apply syncOfflineData_idle_or_draining | exact Hinv].
  - destruct (isOnline s && negb (syncInProgress s));
      [now apply syncOfflineData_idle_or_draining | exact Hinv].
  - destruct Hinv as [[Hrun Hflag] | [[p Hrun] Hflag]].
    + rewrite Hrun, lookup_nil. left. now split.
    + rewrite Hrun. destruct k as [| k]; cbn; [| right; split; eauto].
      destruct p; [| right; split; eauto].
      assert (Hleave : idle (leave 0 (set_flag false s))).
      { split; cbn; [now rewrite Hrun | reflexivity]. }
      destruct listed; [| now left].
      destruct (queue s) as [| action rest] eqn:Hqueue; [now left |].
      apply (advance_idle_or_draining (action :: rest) 0 0 s). split; eauto.
  - destruct Hinv as [[Hrun Hflag] | [[p Hrun] Hflag]].
    + rewrite Hrun, lookup_nil. left. now split.
    + rewrite Hrun. destruct k as [| k]; cbn; [| right; split; eauto].
      destruct p; [right; split; eauto |].
      destruct (replay_confirmed replayed); [destruct removed |];
        apply advance_idle_or_draining; split; eauto.
Qed.

Lemma run_idle_or_draining s events :
  idle s \/ draining s -> idle (run s events) \/ draining (run s events).
Proof.
  revert s. induction events as [| e events IH]; intros s Hinv; [exact Hinv |].
  cbn. apply IH. now apply step_idle_or_draining.
Qed.

(** A settling answer never starts an invocation. *)
Lemma settle_step_starts_nothing s :
  idle s \/ draining s ->
  forall k listed replayed removed,
    (length (running (step s (StoreSettled k listed))) <= length (running s))%nat /\
    (length (running (step s (ReplaySettled k replayed removed))) <= length (running s))%nat.
Proof.
  intros Hinv k listed replayed removed.
  pose proof (step_idle_or_draining s (StoreSettled k listed) Hinv) as Hstore.
  pose proof (step_idle_or_draining s (ReplaySettled k replayed removed) Hinv) as Hreplay.
  destruct Hinv as [[Hrun Hflag] | [[p Hrun] Hflag]].
  - cbn [step]. rewrite Hrun, !lookup_nil. rewrite Hrun. cbn. lia.
  - rewrite Hrun. cbn [length]. split.
    + destruct Hstore as [[-> _] | [[q ->] _]]; cbn; lia.
    + destruct Hreplay as [[-> _] | [[q ->] _]]; cbn; lia.
Qed.

(** C3 (for the application's drain). From a state at rest and through
    any sequence of events, at most one invocation of [syncOfflineData] is
    suspended, and the flag [syncInProgress] is up exactly while one is.
    While one is, a further trigger (a direct call, the document shown
    again, the timer) leaves the state as it is, and the [online] event only
    records the connectivity; nothing of the trigger is kept, and the
    answers that let the running pass go on and finish start no pass. *)
Theorem app_drain_never_reenters (s0 : State) (events : list Event) :
  idle s0 ->
  let s := run s0 events in
  (length (running s) <= 1)%nat /\
  (syncInProgress s = true <-> running s <> []) /\
  (running s <> [] ->
     step s Invoke = s /\ step s Visible = s /\ step s Tick = s /\
     running (step s Online) = running s /\
     syncInProgress (step s Online) = true) /\
  (forall k listed replayed removed,
     (length (running (step s (StoreSettled k listed))) <= length (running s))%nat /\
     (length (running (step s (ReplaySettled k replayed removed)))
        <= length (running s))%nat).
Proof.
  intros Hidle. cbv zeta.
  pose proof (run_idle_or_draining s0 events (or_introl Hidle)) as Hinv.
  split; [| split; [| split]].
  - destruct Hinv as [[-> _] | [[p ->] _]]; cbn; lia.
  - destruct Hinv as [[-> ->] | [[p ->] ->]]; split; congruence.
  - intros Hbusy. destruct Hinv as [[Hrun _] | [[p Hrun] Hflag]]; [congruence |].
    cbn [step]. unfold syncOfflineData. cbn. rewrite Hflag. cbn.
    destruct (isOnline (run s0 events)); cbn; repeat split; try reflexivity; exact Hrun || exact Hflag.
  - now apply settle_step_starts_nothing.
Qed.

End AppDrain.

(** Two triggers in a row, then the answers of the first pass: one pass,
    and at rest again when it has finished. *)
Lemma app_drain_never_reenters_witness :
  App.idle Samples.app_idle /\
  App.step (App.run Samples.app_idle [App.Invoke; App.Invoke]) App.Invoke =
    App.run Samples.app_idle [App.Invoke; App.Invoke].
Proof.
  assert (Hidle : App.idle Samples.app_idle) by (split; reflexivity).
  split; [exact Hidle |].
  apply (app_drain_never_reenters Samples.app_idle [App.Invoke; App.Invoke] Hidle).
  discriminate.
Defined.

(** C3 (as stated) fails for the drain of the page script: it has no
    flag, and a second trigger while the first pass waits for its answers
    starts a second pass, which sends every queued action again. *)
Lemma page_drain_runs_twice :
  ~ (length (Page.running
               (Page.syncOfflineActions 1793692801000
                  (Page.syncOfflineActions 1793692800900 Samples.page_idle))) <= 1)%nat.
Proof. vm_compute. lia. Qed.

Example page_drain_sends_twice :
  map Page.ajax_url
    (Page.sent (Page.syncOfflineActions 1793692801000
                  (Page.syncOfflineActions 1793692800900 Samples.page_idle))) =
  [ "/api/clockin"; "/api/clockin" ].
Proof. reflexivity. Qed.

Section AppDrainSettles.
Import App.
Variable a : Answers.

Lemma resume_n_idle n s : idle s -> resume_n a n s = s.
Proof.
  intros [Hrun _]. induction n as [| n IH]; [reflexivity |].
  cbn. unfold resume at 1. now rewrite Hrun.
Qed.

(** From any point of the loop the pass reaches its end within one answer
    per remaining entry, and is at rest there. *)
Lemma advance_settles n :
  forall todo syncedCount failedCount s,
    draining s -> (length todo <= n)%nat ->
    idle (resume_n a n (advance 0 todo syncedCount failedCount s)).
Proof.
  induction n as [| n IHn]; intros todo.
  - destruct todo as [| action rest]; cbn [length]; intros; [| lia].
    destruct H as [[p Hrun] _]. cbn. now apply (finish_idle _ _ _ p).
  - induction todo as [| action rest IHtodo];
      intros syncedCount failedCount s Hdraining Hlen.
    + destruct Hdraining as [[p Hrun] _]. cbn [advance].
      rewrite resume_n_idle; now apply (finish_idle _ _ _ p).
    + cbn [advance length] in *. destruct (is_clock_action action).
      * destruct Hdraining as [[p Hrun] Hflag].
        cbn [resume_n]. unfold resume at 1. cbn. rewrite Hrun. cbn.
        destruct (replay_confirmed (replay_answer a action));
          [destruct (remove_answer a action) |];
          apply IHn; try lia; (split; [cbn; rewrite Hrun; cbn; eauto | exact Hflag]).
      * apply IHtodo; [exact Hdraining | lia].
Qed.

(** C10. An invocation of [syncOfflineData] made at rest, and followed
    through the answers it waits for, settles with no invocation suspended
    and the flag down, whether the store could be listed or not, whatever
    the replays and the deletions answer, and whether the queue was empty
    or not; so a failed or aborted pass leaves no flag stuck and the next
    trigger is not blocked.  (An invocation that the guard turns away
    starts no pass: it returns at once and changes nothing, and the pass
    that is running lowers the flag when it settles.) *)
Theorem drain_flag_is_down_when_the_pass_settles (s : State) :
  idle s ->
  idle (syncOfflineData_settled a s) /\
  (isOnline s = true -> draining (syncOfflineData s)) /\
  (forall s', syncInProgress s' = true \/ isOnline s' = false -> syncOfflineData s' = s').
Proof.
  intros [Hrun Hflag]. split; [| split].
  - unfold syncOfflineData_settled, syncOfflineData. rewrite Hflag. cbn [orb].
    destruct (isOnline s); cbn [negb].
    + cbn [resume_n]. unfold resume at 1. cbn. rewrite Hrun. cbn.
      assert (Hleave : idle (leave 0 (set_flag false
                (set_running (fun ps => ps ++ [AwaitingStore]) (set_flag true s))))).
      { split; cbn; [now rewrite Hrun | reflexivity]. }
      destruct (store_answer a).
      * destruct (queue s) as [| action rest] eqn:Hqueue.
        -- now rewrite resume_n_idle.
        -- apply (advance_settles (length (action :: rest)) (action :: rest) 0 0);
             [| lia]. split; [cbn; rewrite Hrun; cbn; eauto | reflexivity].
      * now rewrite resume_n_idle.
    + rewrite resume_n_idle; now split.
  - intros Honline. unfold syncOfflineData. rewrite Hflag, Honline. cbn.
    split; [cbn; rewrite Hrun; cbn; eauto | reflexivity].
  - intros s' [Hbusy | Hoffline]; unfold syncOfflineData.
    + now rewrite Hbusy.
    + rewrite Hoffline. now rewrite orb_true_r.
Qed.

End AppDrainSettles.

Lemma drain_flag_is_down_when_the_pass_settles_witness :
  App.idle Samples.app_idle /\
  App.idle (App.syncOfflineData_settled Samples.all_rejected Samples.app_idle).
Proof.
  assert (Hidle : App.idle Samples.app_idle) by (split; reflexivity).
  split; [exact Hidle |].
  apply (drain_flag_is_down_when_the_pass_settles Samples.all_rejected
           Samples.app_idle Hidle).
Defined.

(** An invocation made while a pass is running returns at the guard: it
    starts no pass, and the flag stays up for the pass that is running. *)
Example turned_away_invocation_starts_no_pass :
  App.step (App.step Samples.app_idle App.Invoke) App.Invoke =
    App.step Samples.app_idle App.Invoke /\
  App.syncInProgress (App.step Samples.app_idle App.Invoke) = true.
Proof. split; reflexivity. Qed.

(** ** [JSON.stringify] is one to one on data *)

Section JsonText.
Import JSString JS.
#[local] Arguments String.append : simpl nomatch.


(** *** Quoted strings *)




(** *** Numbers *)






(** *** Arrays and objects *)


















End JsonText.

(** ** The offline response synthesizer *)

Section Synthesizer.
Import SW RouterSpec.
Variable env : Env.



End Synthesizer.


(** The roster body has what both answers of the roster route carry, the
    flag and the list; of what only one of them carries, the [count] of
    the success and the [message] of the failure, it has neither. *)
Example roster_body_against_each_answer :
  let data := SW.offlineData Samples.offline_env "/api/mobile/employees" in
  RouterSpec.shared (Server.mobile_employees []) Server.mobile_employees_failed =
    JS.Obj [ ("success", JS.Bool true); ("employees", JS.Arr []) ] /\
  JS.has_own data "count" = false /\ JS.has_own data "message" = false.
Proof. repeat split. Qed.

(** What the answers of the dashboard route have in common, and the
    property of it that the synthesized body lacks. *)
Example dashboard_answers_share_a_count :
  JS.get (JS.get (RouterSpec.shared (Server.mobile_dashboard "3/11/2569" 12 9 2)
                    (Server.mobile_dashboard_failed "connect ECONNREFUSED")) "today")
         "checked_out" = JS.Num 7 /\
  JS.has_own (JS.get (SW.offlineData Samples.offline_env "/api/mobile/dashboard") "today")
             "checked_out" = false.
Proof. split; reflexivity. Qed.

(** ** The cache keys *)

Lemma list_ascii_app a b :
  list_ascii_of_string (a +:+ b) = list_ascii_of_string a ++ list_ascii_of_string b.
Proof.
  induction a as [| x a IH]; [reflexivity |].
  change (x :: list_ascii_of_string (a +:+ b) =
          x :: (list_ascii_of_string a ++ list_ascii_of_string b)).
  now rewrite IH.
Qed.

Lemma append_inv_tail (a b s : string) : a +:+ s = b +:+ s -> a = b.
Proof.
  intros H. apply (f_equal list_ascii_of_string) in H. rewrite !list_ascii_app in H.
  apply app_inv_tail in H. apply (f_equal string_of_list_ascii) in H.
  now rewrite !string_of_list_ascii_of_string in H.
Qed.

Section CacheKeys.
Import JS.

Lemma or_else_truthy b d : truthy b = true -> or_else b d = b.
Proof. unfold or_else. now intros ->. Qed.


End CacheKeys.

(** A read that leaves its body out and one whose body is the empty
    object are the same read, and they share their key; two payloads that
    differ in one coordinate do not. *)
Example cache_key_samples :
  Core.cacheKey "/employees" JS.Undefined = Core.cacheKey "/employees" (JS.Obj []) /\
  Core.cacheKey "/employees" JS.Undefined = "/employees:{}" /\
  Core.cacheKey "/nearby" (JS.Obj [ ("lat", JS.Num 13); ("lon", JS.Num 100) ]) <>
  Core.cacheKey "/nearby" (JS.Obj [ ("lat", JS.Num 13); ("lon", JS.Num 101) ]).
Proof. repeat split. discriminate. Qed.

(* ------------------------------------------------------------------ *)
(** * More of the service worker: life cycle, upkeep and failures       *)
(* ------------------------------------------------------------------ *)

(** ** The activation of a new version of the worker *)

Section Activation.
Import SW UpkeepSpec.

Lemma filter_filter_l {A} (p q : A -> bool) l :
  List.filter p (List.filter q l) = List.filter (fun x => q x && p x) l.
Proof.
  induction l as [| x l IH]; [reflexivity |]. cbn.
  destruct (q x); cbn; [destruct (p x) |]; now rewrite IH.
Qed.

Lemma set_caches_set_caches f g w : set_caches f (set_caches g w) = set_caches (fun cs => f (g cs)) w.
Proof. reflexivity. Qed.

Lemma activate_loop names : forall w,
  for_each names
    (fun cacheName =>
       if negb (String.eqb cacheName CACHE_NAME) &&
          negb (String.eqb cacheName STATIC_CACHE) &&
          negb (String.eqb cacheName API_CACHE)
       then caches_delete cacheName ≫= (fun _ => mret tt)
       else mret tt) w =
  (Ok tt,
   set_caches (List.filter (fun nc => current_cache (fst nc) ||
                                      negb (existsb (String.eqb (fst nc)) names))) w).
Proof.
  induction names as [| name names IH]; intros w.
  - cbn. unfold ret. f_equal. destruct w as [cs ? ? ?]. unfold set_caches. cbn. f_equal.
    induction cs as [| x cs IHcs]; [reflexivity |]. cbn. rewrite orb_true_r. now f_equal.
  - cbn [for_each]. unfold bind at 1.
    assert (Hequiv : forall x : string * gmap string Response,
              (current_cache (fst x) || negb (existsb (String.eqb (fst x)) (name :: names))) =
              ((current_cache name || negb (String.eqb (fst x) name)) &&
               (current_cache (fst x) || negb (existsb (String.eqb (fst x)) names)))).
    { intros x. cbn [existsb]. destruct (String.eqb_spec (fst x) name) as [-> | Hne]; cbn.
      - destruct (current_cache name); reflexivity.
      - rewrite orb_true_r. reflexivity. }
    destruct (negb (String.eqb name CACHE_NAME) && negb (String.eqb name STATIC_CACHE) &&
              negb (String.eqb name API_CACHE)) eqn:Hold.
    + assert (Hcur : current_cache name = false).
      { unfold current_cache. rewrite <- negb_true_iff, !negb_orb. exact Hold. }
      unfold mbind, M_bind, bind, caches_delete, mret, M_ret, ret. rewrite IH.
      f_equal. rewrite set_caches_set_caches. destruct w as [cs ? ? ?]. unfold set_caches. cbn.
      f_equal. rewrite filter_filter_l. apply List.filter_ext. intros x. rewrite Hequiv, Hcur.
      reflexivity.
    + assert (Hcur : current_cache name = true).
      { unfold current_cache. rewrite <- negb_false_iff, !negb_orb. exact Hold. }
      unfold mret, M_ret, ret. rewrite IH. f_equal. destruct w as [cs ? ? ?]. unfold set_caches. cbn.
      f_equal. apply List.filter_ext. intros x. rewrite Hequiv, Hcur. reflexivity.
Qed.

Lemma named_filter_current name cs :
  named name (List.filter (fun nc => current_cache (fst nc)) cs) =
  if current_cache name then named name cs else [].
Proof.
  unfold named. rewrite filter_filter_l.
  destruct (current_cache name) eqn:Hcur.
  - apply List.filter_ext_in. intros x _.
    destruct (String.eqb_spec (fst x) name) as [-> | Hne]; [now rewrite Hcur | apply andb_false_r].
  - induction cs as [| x cs IH]; [reflexivity |]. cbn.
    destruct (String.eqb_spec (fst x) name) as [-> | Hne].
    + rewrite Hcur. exact IH.
    + rewrite andb_false_r. exact IH.
Qed.

Lemma has_cache_filter_current name cs :
  has_cache name (List.filter (fun nc => current_cache (fst nc)) cs) =
  current_cache name && has_cache name cs.
Proof.
  unfold has_cache. induction cs as [| x cs IH]; cbn [List.filter existsb].
  - now rewrite andb_false_r.
  - destruct (String.eqb_spec (fst x) name) as [Heq | Hne].
    + destruct (current_cache (fst x)) eqn:Hcur; cbn [existsb].
      * rewrite Heq in *. rewrite String.eqb_refl, Hcur. reflexivity.
      * rewrite IH. rewrite Heq in Hcur. now rewrite Hcur.
    + destruct (current_cache (fst x)) eqn:Hcur; cbn [existsb].
      * apply String.eqb_neq in Hne. rewrite Hne. exact IH.
      * exact IH.
Qed.

(** Activation, the Cache Storage carrying out what is asked of it (the
    listener catches nothing), claims the open pages and deletes every
    store whose name is not one of the three of this version, and only
    those: the entries of the three current stores are all kept, in the
    same stores, and no entry of another store can be found afterwards. *)
Theorem activation_keeps_only_current_caches (k : Worker) :
  let out := onActivate k in
  claimedClients (snd out) = true /\
  skippedWaiting (snd out) = skippedWaiting k /\
  netlog (world (snd out)) = netlog (world k) /\
  db (world (snd out)) = db (world k) /\
  caches (world (snd out)) =
    List.filter (fun nc => current_cache (fst nc)) (caches (world k)) /\
  (forall name key,
     cache_entry (world (snd out)) name key =
     if current_cache name then cache_entry (world k) name key else None) /\
  (forall name, has_cache name (caches (world (snd out))) =
                current_cache name && has_cache name (caches (world k))).
Proof.
  cbv zeta.
  assert (Hfilter :
            List.filter (fun nc : string * gmap string Response =>
                           current_cache (fst nc) ||
                           negb (existsb (String.eqb (fst nc)) (map fst (caches (world k)))))
                        (caches (world k)) =
            List.filter (fun nc => current_cache (fst nc)) (caches (world k))).
  { apply List.filter_ext_in. intros x Hin.
    assert (Hex : existsb (String.eqb (fst x)) (map fst (caches (world k))) = true).
    { apply existsb_exists. exists (fst x). split; [now apply in_map | apply String.eqb_refl]. }
    rewrite Hex. apply orb_false_r. }
  assert (Hrun : onActivate k =
                 (Ok tt,
                  {| world := set_caches (List.filter (fun nc => current_cache (fst nc)))
                                         (world k);
                     skippedWaiting := skippedWaiting k; claimedClients := true |})).
  { unfold onActivate, in_world, clients_claim, modify, mbind, M_bind, bind, caches_keys, gets.
    pose proof (activate_loop (map fst (caches (world k))) (world k)) as Hloop.
    unfold mbind, M_bind, bind in Hloop. rewrite Hloop. cbn. unfold set_caches.
    now rewrite Hfilter. }
  rewrite Hrun. unfold set_caches. cbn [fst snd world claimedClients skippedWaiting caches netlog db].
  repeat split.
  - intros name key. unfold cache_entry. cbn [caches]. rewrite named_filter_current.
    destruct (current_cache name); reflexivity.
  - intros name. apply has_cache_filter_current.
Qed.

End Activation.

(** ** The installation and its precache *)

Section Install.
Import SW UpkeepSpec.
Variable env : Env.







Lemma has_cache_open_in name cs : has_cache name (open_in name cs) = true.
Proof.
  unfold open_in. destruct (has_cache name cs) eqn:H; [exact H |].
  unfold has_cache. rewrite existsb_app. cbn. rewrite String.eqb_refl. now rewrite orb_true_r.
Qed.





End Install.

(** ** The cleaning of the API store *)

Section Cleaning.
Import SW UpkeepSpec.
Variable clock : Clock.

Lemma map_fmap {A B} (f : A -> B) (l : list A) : map f l = f <$> l.
Proof. induction l; [reflexivity | cbn; now f_equal]. Qed.

Lemma named_replace_store_other name name' c cs :
  name' <> name -> named name' (replace_store name c cs) = named name' cs.
Proof.
  intros Hne. unfold named, replace_store. induction cs as [| x cs IH]; [reflexivity |].
  cbn. destruct (String.eqb_spec (fst x) name) as [Heq | Hx]; cbn.
  - rewrite Heq. apply not_eq_sym, String.eqb_neq in Hne. rewrite Hne. exact IH.
  - now rewrite IH.
Qed.

Lemma match_in_replace_store name c cs key :
  has_cache name cs = true ->
  match_in (named name (replace_store name c cs)) key = c !! key.
Proof.
  unfold has_cache, named, replace_store. induction cs as [| x cs IH]; [discriminate |].
  cbn. destruct (String.eqb_spec (fst x) name) as [Heq | Hx]; cbn.
  - intros _. rewrite Heq, String.eqb_refl. cbn. destruct (c !! key) eqn:Hc; [reflexivity |].
    clear IH. induction cs as [| y cs IH]; [reflexivity |]. cbn.
    destruct (String.eqb_spec (fst y) name) as [Hy | Hy]; cbn.
    + rewrite Hy, String.eqb_refl. cbn. now rewrite Hc.
    + apply String.eqb_neq in Hy. now rewrite Hy.
  - intros H. apply String.eqb_neq in Hx. rewrite Hx. now apply IH.
Qed.

Lemma delete_in_replace_store name key c cs :
  delete_in name key (replace_store name c cs) = replace_store name (delete key c) cs.
Proof.
  unfold delete_in, replace_store. rewrite map_map. apply map_ext. intros x.
  destruct (String.eqb (fst x) name) eqn:Hx; cbn; now rewrite Hx.
Qed.

Lemma replace_store_replace_store name c c' cs :
  replace_store name c' (replace_store name c cs) = replace_store name c' cs.
Proof.
  unfold replace_store. rewrite map_map. apply map_ext. intros x.
  destruct (String.eqb (fst x) name) eqn:Hx; cbn; now rewrite Hx.
Qed.

Lemma replace_store_absent name c cs :
  named name cs = [] -> replace_store name c cs = cs.
Proof.
  unfold named, replace_store. induction cs as [| y cs IH]; [reflexivity |]. cbn.
  destruct (String.eqb (fst y) name); [discriminate |]. intros H. f_equal. now apply IH.
Qed.

Lemma named_absent name cs : ~ In name (map fst cs) -> named name cs = [].
Proof.
  unfold named. induction cs as [| y cs IH]; [reflexivity |]. cbn. intros Hin.
  destruct (String.eqb_spec (fst y) name) as [Hy | Hy].
  - exfalso. apply Hin. now left.
  - apply IH. intros H. apply Hin. now right.
Qed.

Lemma replace_store_same name c cs :
  NoDup (map fst cs) -> named name cs = [(name, c)] -> replace_store name c cs = cs.
Proof.
  induction cs as [| x cs IH]; [reflexivity |].
  cbn. intros Hnd Hnamed. apply NoDup_cons in Hnd as [Hx Hnd].
  rewrite list_elem_of_In in Hx.
  destruct (String.eqb_spec (fst x) name) as [Heq | Hne].
  - injection Hnamed as Hxc Hrest. f_equal; [now rewrite Hxc |].
    apply replace_store_absent. apply named_absent. now rewrite <- Heq.
  - f_equal. now apply IH.
Qed.

Lemma clean_loop l : forall (c : gmap string Response) w cs0,
  has_cache API_CACHE cs0 = true ->
  caches w = replace_store API_CACHE c cs0 ->
  NoDup l ->
  (forall k, k ∈ l -> is_Some (c !! k)) ->
  exists c' : gmap string Response,
    for_each l (clean_entry clock API_CACHE) w =
    (Ok tt, set_caches (fun _ => replace_store API_CACHE c' cs0) w) /\
    forall k, c' !! k = if bool_decide (k ∈ l) then kept clock (c !! k) else c !! k.
Proof.
  induction l as [| key l IH]; intros c w cs0 Hhas Hcs Hnd Hin.
  - exists c. split.
    + cbn. unfold ret. f_equal. destruct w. unfold set_caches. cbn in *. now rewrite Hcs.
    + intros k. rewrite bool_decide_eq_false_2; [reflexivity | apply not_elem_of_nil].
  - apply NoDup_cons in Hnd as [Hkey Hnd].
    destruct (Hin key) as [r Hr]; [apply elem_of_cons; now left |].
    assert (Hentry : cache_entry w API_CACHE key = Some r).
    { unfold cache_entry. rewrite Hcs, match_in_replace_store by exact Hhas. exact Hr. }
    assert (Hlookup : forall c1 : gmap string Response,
              (forall k, k <> key -> c1 !! k = c !! k) ->
              c1 !! key = (if stale clock r then None else Some r) ->
              forall c' : gmap string Response,
                (forall k, c' !! k = if bool_decide (k ∈ l) then kept clock (c1 !! k)
                                     else c1 !! k) ->
                forall k, c' !! k = if bool_decide (k ∈ key :: l) then kept clock (c !! k)
                                    else c !! k).
    { intros c1 Hother Hat c' Hc' k. rewrite Hc'.
      destruct (decide (k = key)) as [-> | Hne].
      - rewrite (bool_decide_eq_false_2 _ Hkey).
        rewrite bool_decide_eq_true_2 by (apply elem_of_cons; now left).
        now rewrite Hat, Hr.
      - rewrite (Hother k Hne).
        destruct (decide (k ∈ l)) as [Hk | Hk].
        + rewrite !bool_decide_eq_true_2; [reflexivity | apply elem_of_cons; now right | exact Hk].
        + rewrite !bool_decide_eq_false_2; [reflexivity | | exact Hk].
          intros [-> | H]%elem_of_cons; [now apply Hne | now apply Hk]. }
    assert (Hkeep : stale clock r = false ->
              exists c' : gmap string Response,
                for_each l (clean_entry clock API_CACHE) w =
                (Ok tt, set_caches (fun _ => replace_store API_CACHE c' cs0) w) /\
                forall k, c' !! k = if bool_decide (k ∈ key :: l) then kept clock (c !! k)
                                    else c !! k).
    { intros Hfresh. destruct (IH c w cs0) as (c' & Hrun & Hc'); try assumption.
      - intros k Hk. apply Hin, elem_of_cons. now right.
      - exists c'. split; [exact Hrun |].
        apply (Hlookup c); [reflexivity | now rewrite Hfresh | exact Hc']. }
    cbn [for_each]. unfold bind at 1. unfold clean_entry at 1.
    unfold mbind at 1, M_bind at 1, bind at 1.
    unfold cache_match at 1, gets. rewrite Hentry.
    unfold stale in Hkeep, Hlookup.
    destruct (Headers_get (headers r) "date") as [dateHeader |] eqn:Hdate;
      [| now apply Hkeep].
    destruct (negb (String.eqb dateHeader EmptyString)) eqn:Hnonempty;
      [| now apply Hkeep].
    destruct (Date_getTime clock dateHeader) as [responseDate |] eqn:Htime;
      [| now apply Hkeep].
    destruct (responseDate <? Date_now clock - 60 * 60 * 1000)%Z eqn:Hold;
      [| now apply Hkeep].
    clear Hkeep. unfold cache_delete at 1, modify.
    destruct (IH (delete key c) (set_caches (delete_in API_CACHE key) w) cs0)
      as (c' & Hrun & Hc').
    + exact Hhas.
    + cbn. rewrite Hcs. apply delete_in_replace_store.
    + exact Hnd.
    + intros k Hk. rewrite lookup_delete_ne.
      * apply Hin, elem_of_cons. now right.
      * intros <-. now apply Hkey.
    + exists c'. split.
      * rewrite Hrun. reflexivity.
      * apply (Hlookup (delete key c)); [| | exact Hc'].
        -- intros k Hne. now apply lookup_delete_ne.
        -- cbn. apply lookup_delete_eq.
Qed.

Lemma NoDup_open_in name cs :
  NoDup (map fst cs) -> NoDup (map fst (open_in name cs)).
Proof.
  intros Hnd. unfold open_in. destruct (has_cache name cs) eqn:Hhas; [exact Hnd |].
  rewrite map_app. apply NoDup_app. split; [exact Hnd |]. split.
  - intros x Hx Hk. cbn in Hk. apply list_elem_of_singleton in Hk. subst x.
    apply list_elem_of_In, in_map_iff in Hx as ((n & c) & Hn & Hin). cbn in Hn. subst n.
    unfold has_cache in Hhas. rewrite <- not_true_iff_false in Hhas. apply Hhas.
    apply existsb_exists. exists (name, c). split; [exact Hin | apply String.eqb_refl].
  - cbn. apply NoDup_singleton.
Qed.

Lemma named_shape name cs :
  NoDup (map fst cs) -> has_cache name cs = true -> exists c, named name cs = [(name, c)].
Proof.
  induction cs as [| x cs IH]; [discriminate |]. intros Hnd Hhas. cbn [map] in Hnd.
  apply NoDup_cons in Hnd as [Hx Hnd]. rewrite list_elem_of_In in Hx.
  unfold has_cache in Hhas. cbn [existsb] in Hhas.
  change (named name (x :: cs))
    with (if String.eqb (fst x) name then x :: named name cs else named name cs).
  destruct (String.eqb_spec (fst x) name) as [Heq | Hne].
  - exists (snd x). rewrite named_absent by now rewrite <- Heq.
    destruct x as [n c]. cbn in *. now subst n.
  - cbn in Hhas. now apply IH.
Qed.

(** The cleaning never fails.  It removes from the API store exactly the
    entries whose [date] header names an instant more than one hour in the
    past; an entry without the header, with an empty one, or with one that
    is no date is kept however old it is; the other stores, the network
    and the database are not touched. *)
Theorem cleaning_removes_only_dated_old_api_entries (w : World) :
  NoDup (map fst (caches w)) ->
  let out := cleanOldCacheEntries clock w in
  fst out = Ok tt /\
  netlog (snd out) = netlog w /\ db (snd out) = db w /\
  notifications (snd out) = notifications w /\
  (forall name key, name <> API_CACHE ->
     cache_entry (snd out) name key = cache_entry w name key) /\
  (forall key entry,
     cache_entry (snd out) API_CACHE key = Some entry ->
     cache_entry w API_CACHE key = Some entry) /\
  (forall key entry,
     cache_entry w API_CACHE key = Some entry ->
     (cache_entry (snd out) API_CACHE key = None <->
      exists dateHeader responseDate,
        Headers_get (headers entry) "date" = Some dateHeader /\
        dateHeader <> EmptyString /\
        Date_getTime clock dateHeader = Some responseDate /\
        (responseDate < Date_now clock - 3600000)%Z)).
Proof.
  intros Hnd. cbv zeta.
  set (cs0 := open_in API_CACHE (caches w)).
  assert (Hhas : has_cache API_CACHE cs0 = true) by apply has_cache_open_in.
  assert (Hnd0 : NoDup (map fst cs0)) by now apply NoDup_open_in.
  destruct (named_shape API_CACHE cs0 Hnd0 Hhas) as (c & Hc).
  assert (Hsame : replace_store API_CACHE c cs0 = cs0) by now apply replace_store_same.
  destruct (clean_loop (map fst (map_to_list c)) c (set_caches (open_in API_CACHE) w) cs0)
    as (c' & Hloop & Hc'); try assumption.
  { cbn. now rewrite Hsame. }
  { rewrite map_fmap. apply NoDup_fst_map_to_list. }
  { intros k Hk. rewrite map_fmap in Hk. apply list_elem_of_fmap in Hk as ((k' & r) & -> & Hin).
    apply elem_of_map_to_list in Hin. cbn. now exists r. }
  assert (Hrun : cleanOldCacheEntries clock w =
                 (Ok tt, set_caches (fun _ => replace_store API_CACHE c' cs0) w)).
  { unfold cleanOldCacheEntries, try_catch, mbind, M_bind, bind, caches_open, cache_keys, gets.
    cbn [caches set_caches]. fold cs0. rewrite Hc, Hloop. reflexivity. }
  assert (Hbefore : forall key, cache_entry w API_CACHE key = c !! key).
  { intros key. unfold cache_entry. rewrite <- (match_in_named_open_in API_CACHE).
    fold cs0. rewrite Hc. cbn. now destruct (c !! key). }
  assert (Hafter : forall key,
            cache_entry (set_caches (fun _ => replace_store API_CACHE c' cs0) w) API_CACHE key =
            kept clock (c !! key)).
  { intros key. unfold cache_entry. cbn [caches set_caches].
    rewrite match_in_replace_store by exact Hhas. rewrite Hc'.
    destruct (decide (key ∈ map fst (map_to_list c))) as [Hin | Hout].
    - now rewrite bool_decide_eq_true_2.
    - rewrite bool_decide_eq_false_2 by exact Hout.
      destruct (c !! key) as [r |] eqn:Hr; [| reflexivity].
      exfalso. apply Hout. rewrite map_fmap. apply list_elem_of_fmap. exists (key, r).
      split; [reflexivity | now apply elem_of_map_to_list]. }
  rewrite Hrun. cbn [fst snd]. repeat split.
  - intros name key Hne. unfold cache_entry. cbn [caches set_caches].
    rewrite named_replace_store_other by exact Hne. apply match_in_named_open_in.
  - intros key entry. rewrite Hafter, Hbefore. unfold kept.
    destruct (c !! key) as [r |]; [| discriminate]. now destruct (stale clock r).
  - rewrite Hafter. rewrite Hbefore in H. rewrite H. unfold kept, stale.
    destruct (Headers_get (headers entry) "date") as [d |]; [| discriminate].
    destruct (String.eqb_spec d EmptyString) as [-> | Hd]; [discriminate |]. cbn [negb andb].
    destruct (Date_getTime clock d) as [t |] eqn:Ht; [| discriminate].
    destruct (Z.ltb_spec t (Date_now clock - 60 * 60 * 1000)); [| discriminate].
    intros _. exists d, t. repeat split; [exact Hd | exact Ht | lia].
  - rewrite Hafter. rewrite Hbefore in H. rewrite H. unfold kept, stale.
    intros (d & t & -> & Hd & Ht & Hold). rewrite Ht.
    apply String.eqb_neq in Hd. rewrite Hd. cbn [negb andb].
    destruct (Z.ltb_spec t (Date_now clock - 60 * 60 * 1000)); [reflexivity | lia].
Qed.

End Cleaning.

(** ** The periodic background sync *)

Section BackgroundSync.
Import SW DrainSpec UpkeepSpec.
Variable env : Env.

(** A function that swallows what its body throws always returns. *)
Lemma swallowed_returns {S} (m : M S unit) (s : S) :
  fst (try_catch m (fun _ => mret tt) s) = Ok tt.
Proof.
  unfold try_catch. destruct (m s) as [[[] | e] s']; reflexivity.
Qed.

(** The replays touch the store they drain and nothing else of the
    database, and they leave the caches alone. *)
Lemma replay_all_turn storeName path title item rest w :
  exists w2,
    replay_all env storeName path title (item :: rest) w =
    replay_all env storeName path title rest w2 /\
    caches w2 = caches w /\
    (forall other, other <> storeName -> db w2 !! other = db w !! other).
Proof.
  cbn [replay_all].
  unfold mbind, M_bind, bind, try_catch, fetch, removeStoredData, showNotification,
    modify, mret, M_ret, ret.
  destruct (network env (netlog w) (post_json env path (data item))) as [response | e].
  2:{ eexists. split; [reflexivity |]. split; reflexivity. }
  destruct (ok response).
  2:{ eexists. split; [reflexivity |]. split; reflexivity. }
  destruct (db_delete env storeName (id item)) as [[] | e].
  2:{ eexists. split; [reflexivity |]. split; reflexivity. }
  destruct (can_notify env); eexists; (split; [reflexivity |]); cbn;
    (split; [reflexivity |]); intros other Hne; now rewrite lookup_insert_ne.
Qed.

Lemma replay_all_frame storeName path title pending : forall w,
  let out := replay_all env storeName path title pending w in
  caches (snd out) = caches w /\
  (forall other, other <> storeName -> db (snd out) !! other = db w !! other).
Proof.
  induction pending as [| item rest IH]; intros w; cbv zeta.
  - split; reflexivity.
  - destruct (replay_all_turn storeName path title item rest w) as (w2 & -> & Hc & Hd).
    destruct (IH w2) as (IHc & IHd). split; [congruence |].
    intros other Hne. rewrite IHd by exact Hne. now apply Hd.
Qed.

Lemma sync_store_frame storeName path title w :
  let out := try_catch
               (openIndexedDB env ≫= fun _ =>
                getStoredData env storeName ≫= fun pending =>
                replay_all env storeName path title pending)
               (fun _ => mret tt) w in
  caches (snd out) = caches w /\
  (forall other, other <> storeName -> db (snd out) !! other = db w !! other) /\
  (forall e, db_open env = Throw e -> snd out = w).
Proof.
  cbv zeta. unfold try_catch, mbind, M_bind, bind, openIndexedDB, getStoredData, settle.
  destruct (db_open env) as [[] | e].
  2:{ cbn. repeat split. }
  destruct (db_getAll env storeName) as [[] | e].
  2:{ cbn. repeat split. }
  pose proof (replay_all_frame storeName path title (records (store_of w storeName)) w)
    as Hframe.
  cbv zeta in Hframe. destruct Hframe as (Hc & Hd).
  destruct (replay_all env storeName path title (records (store_of w storeName)) w)
    as [[[] | e] w']; cbn [fst snd] in *; repeat split; try assumption; intros; discriminate.
Qed.

Lemma clean_entry_frame clock cache key w :
  let out := clean_entry clock cache key w in
  netlog (snd out) = netlog w /\ db (snd out) = db w /\
  notifications (snd out) = notifications w.
Proof.
  cbv zeta. unfold clean_entry, mbind, M_bind, bind, cache_match, gets.
  destruct (cache_entry w cache key) as [r |]; [| repeat split].
  destruct (Headers_get (headers r) "date") as [d |]; [| repeat split].
  destruct (negb (String.eqb d EmptyString)); [| repeat split].
  destruct (Date_getTime clock d) as [t |]; [| repeat split].
  destruct (t <? Date_now clock - 60 * 60 * 1000)%Z; repeat split.
Qed.

Lemma clean_loop_frame clock cache l : forall w,
  let out := for_each l (clean_entry clock cache) w in
  netlog (snd out) = netlog w /\ db (snd out) = db w /\
  notifications (snd out) = notifications w.
Proof.
  induction l as [| key l IH]; intros w; cbv zeta; [repeat split |].
  cbn [for_each]. unfold bind.
  pose proof (clean_entry_frame clock cache key w) as Hturn. cbv zeta in Hturn.
  destruct (clean_entry clock cache key w) as [[[] | e] w2]; cbn [fst snd] in *;
    [| exact Hturn].
  destruct Hturn as (H1 & H2 & H3). destruct (IH w2) as (I1 & I2 & I3).
  repeat split; congruence.
Qed.

Lemma cleanOldCacheEntries_frame clock w :
  let out := cleanOldCacheEntries clock w in
  fst out = Ok tt /\ netlog (snd out) = netlog w /\ db (snd out) = db w /\
  notifications (snd out) = notifications w.
Proof.
  cbv zeta. split; [apply swallowed_returns |].
  unfold cleanOldCacheEntries, try_catch, mbind, M_bind, bind, caches_open, cache_keys, gets.
  cbn [caches set_caches].
  match goal with |- context [for_each ?l ?f ?w0] =>
    pose proof (clean_loop_frame clock API_CACHE l w0) as Hframe;
    destruct (for_each l f w0) as [[[] | e] w']
  end; cbn [fst snd] in *; exact Hframe.
Qed.

Lemma clean_entry_caches clock cache key w w' :
  caches w = caches w' ->
  fst (clean_entry clock cache key w) = fst (clean_entry clock cache key w') /\
  caches (snd (clean_entry clock cache key w)) = caches (snd (clean_entry clock cache key w')).
Proof.
  intros Hsame. unfold clean_entry, mbind, M_bind, bind, cache_match, gets, cache_entry.
  rewrite Hsame.
  destruct (match_in (named cache (caches w')) key) as [r |]; [| now split].
  destruct (Headers_get (headers r) "date") as [d |]; [| now split].
  destruct (negb (String.eqb d EmptyString)); [| now split].
  destruct (Date_getTime clock d) as [t |]; [| now split].
  destruct (t <? Date_now clock - 60 * 60 * 1000)%Z; [| now split].
  cbn. now rewrite Hsame.
Qed.

Lemma clean_loop_caches clock cache l : forall w w',
  caches w = caches w' ->
  caches (snd (for_each l (clean_entry clock cache) w)) =
  caches (snd (for_each l (clean_entry clock cache) w')).
Proof.
  induction l as [| key l IH]; intros w w' Hsame; [exact Hsame |].
  cbn [for_each]. unfold bind.
  destruct (clean_entry_caches clock cache key w w' Hsame) as (Hfst & Hsnd).
  destruct (clean_entry clock cache key w) as [[[] | e] w2];
    destruct (clean_entry clock cache key w') as [[[] | e'] w2'];
    cbn [fst snd] in *; try discriminate; [now apply IH | exact Hsnd].
Qed.

Lemma cleanOldCacheEntries_caches clock w w' :
  caches w = caches w' ->
  caches (snd (cleanOldCacheEntries clock w)) = caches (snd (cleanOldCacheEntries clock w')).
Proof.
  intros Hsame.
  unfold cleanOldCacheEntries, try_catch, mbind, M_bind, bind, caches_open, cache_keys, gets.
  cbn [caches set_caches]. rewrite Hsame.
  match goal with |- caches (snd (let '(_, _) := for_each ?l ?f ?a in _)) =
                     caches (snd (let '(_, _) := for_each ?l ?f ?b in _)) =>
    pose proof (clean_loop_caches clock API_CACHE l a b) as Hloop;
    destruct (for_each l f a) as [[[] | e] w2];
    destruct (for_each l f b) as [[[] | e'] w2']
  end; cbn [fst snd] in *; apply Hloop; cbn; now rewrite Hsame.
Qed.

Lemma doBackgroundSync_run clock w :
  doBackgroundSync env clock w =
  (Ok tt,
   snd (cleanOldCacheEntries clock
          (snd (syncClockOutData env (snd (syncClockInData env w)))))).
Proof.
  unfold doBackgroundSync. unfold try_catch at 1, mbind, M_bind, bind.
  pose proof (swallowed_returns
                (openIndexedDB env ≫= fun _ =>
                 getStoredData env "pendingClockIns" ≫= fun pending =>
                 replay_all env "pendingClockIns" "/api/clockin" "ลงเวลาเข้าสำเร็จ" pending) w)
    as Hins.
  change (fst (syncClockInData env w) = Ok tt) in Hins.
  destruct (syncClockInData env w) as [[[] | e] w1]; [| discriminate]. cbn [snd].
  pose proof (swallowed_returns
                (openIndexedDB env ≫= fun _ =>
                 getStoredData env "pendingClockOuts" ≫= fun pending =>
                 replay_all env "pendingClockOuts" "/api/clockout" "ลงเวลาออกสำเร็จ" pending) w1)
    as Houts.
  change (fst (syncClockOutData env w1) = Ok tt) in Houts.
  destruct (syncClockOutData env w1) as [[[] | e] w2]; [| discriminate]. cbn [snd].
  pose proof (cleanOldCacheEntries_frame clock w2) as (Hclean & _). cbv zeta in Hclean.
  destruct (cleanOldCacheEntries clock w2) as [[[] | e] w3]; [reflexivity | discriminate].
Qed.

(** The periodic sync never fails.  It drains the clock-ins and then the
    clock-outs: of each store that the database opens and lists, every
    entry is replayed, the clock-ins first, in their order, then the
    clock-outs, in theirs, and the store keeps exactly the entries whose
    replay had no success or whose removal failed; of a store that the
    database does not list nothing is sent and nothing changes.  Whatever
    the drains did, the caches end as the cleaning of the API store alone
    would leave them. *)
Theorem background_sync_drains_both_queues_in_order (clock : Clock) (w : World) :
  let out := doBackgroundSync env clock w in
  let ins := records (store_of w "pendingClockIns") in
  let outs := records (store_of w "pendingClockOuts") in
  let sent_ins :=
    if lists env "pendingClockIns" then map (replay_request env "/api/clockin") ins
    else [] in
  let sent_outs :=
    if lists env "pendingClockOuts" then map (replay_request env "/api/clockout") outs
    else [] in
  fst out = Ok tt /\
  caches (snd out) = caches (snd (cleanOldCacheEntries clock w)) /\
  (store_ok (store_of w "pendingClockIns") = true ->
   store_ok (store_of w "pendingClockOuts") = true ->
     netlog (snd out) = netlog w ++ sent_ins ++ sent_outs /\
     records (store_of (snd out) "pendingClockIns") =
       (if lists env "pendingClockIns"
        then survivors env "pendingClockIns" "/api/clockin" (netlog w) ins
        else ins) /\
     records (store_of (snd out) "pendingClockOuts") =
       (if lists env "pendingClockOuts"
        then survivors env "pendingClockOuts" "/api/clockout" (netlog w ++ sent_ins) outs
        else outs)) /\
  (forall e, db_open env = Throw e ->
     netlog (snd out) = netlog w /\ db (snd out) = db w).
Proof.
  cbv zeta. rewrite doBackgroundSync_run. cbn [fst snd].
  set (w1 := snd (syncClockInData env w)).
  set (w2 := snd (syncClockOutData env w1)).
  destruct (cleanOldCacheEntries_frame clock w2) as (_ & Hlog3 & Hdb3 & _).
  pose proof (sync_store_frame "pendingClockIns" "/api/clockin" "ลงเวลาเข้าสำเร็จ" w)
    as (Hc1 & Hd1 & Hbroken1).
  fold (syncClockInData env) in Hc1, Hd1, Hbroken1. fold w1 in Hc1, Hd1, Hbroken1.
  pose proof (sync_store_frame "pendingClockOuts" "/api/clockout" "ลงเวลาออกสำเร็จ" w1)
    as (Hc2 & Hd2 & Hbroken2).
  fold (syncClockOutData env) in Hc2, Hd2, Hbroken2. fold w2 in Hc2, Hd2, Hbroken2.
  split; [reflexivity |]. split; [| split].
  - apply cleanOldCacheEntries_caches. congruence.
  - intros Hins Houts.
    pose proof (sync_store_pass env w "pendingClockIns" "/api/clockin" "ลงเวลาเข้าสำเร็จ"
                  Hins) as (_ & Hnone1 & Hsome1 & _).
    fold (syncClockInData env) in Hnone1, Hsome1. fold w1 in Hnone1, Hsome1.
    assert (Hstore : store_of w1 "pendingClockOuts" = store_of w "pendingClockOuts").
    { unfold store_of. now rewrite Hd1. }
    assert (Houts1 : store_ok (store_of w1 "pendingClockOuts") = true) by now rewrite Hstore.
    pose proof (sync_store_pass env w1 "pendingClockOuts" "/api/clockout" "ลงเวลาออกสำเร็จ"
                  Houts1) as (_ & Hnone2 & Hsome2 & _).
    fold (syncClockOutData env) in Hnone2, Hsome2. fold w2 in Hnone2, Hsome2.
    rewrite Hstore in Hsome2.
    assert (Hlog1 : netlog w1 = netlog w ++
              (if lists env "pendingClockIns"
               then map (replay_request env "/api/clockin")
                        (records (store_of w "pendingClockIns"))
               else [])).
    { destruct (lists env "pendingClockIns").
      - now destruct (Hsome1 eq_refl) as (H & _).
      - rewrite (Hnone1 eq_refl). now rewrite app_nil_r. }
    assert (Hrec1 : records (store_of w1 "pendingClockIns") =
              (if lists env "pendingClockIns"
               then survivors env "pendingClockIns" "/api/clockin" (netlog w)
                              (records (store_of w "pendingClockIns"))
               else records (store_of w "pendingClockIns"))).
    { destruct (lists env "pendingClockIns").
      - now destruct (Hsome1 eq_refl) as (_ & H & _).
      - now rewrite (Hnone1 eq_refl). }
    split; [| split].
    + rewrite Hlog3. destruct (lists env "pendingClockOuts").
      * destruct (Hsome2 eq_refl) as (H & _). rewrite H, Hlog1. now rewrite <- app_assoc.
      * rewrite (Hnone2 eq_refl), Hlog1. now rewrite app_nil_r.
    + unfold store_of. rewrite Hdb3, Hd2 by discriminate. exact Hrec1.
    + unfold store_of at 1. rewrite Hdb3. fold (store_of w2 "pendingClockOuts").
      destruct (lists env "pendingClockOuts").
      * destruct (Hsome2 eq_refl) as (_ & H & _). rewrite H, Hlog1. reflexivity.
      * rewrite (Hnone2 eq_refl). now rewrite Hstore.
  - intros e Hopen. rewrite Hlog3, Hdb3.
    rewrite (Hbroken2 e Hopen), (Hbroken1 e Hopen). split; reflexivity.
Qed.

End BackgroundSync.

(** ** What the request handler answers when the network fails *)

Section Answers.
Import JSString SW UpkeepSpec.
Variable env : Env.

Lemma networkFirstWithFallback_returns request w :
  exists response, fst (networkFirstWithFallback env request w) = Ok response.
Proof.
  unfold networkFirstWithFallback, try_catch, mbind, M_bind, bind, fetch, caches_match, gets,
    caches_open, cache_put, modify, mret, M_ret, ret, throw.
  destruct (network env (netlog w) request) as [response | e]; cbn -[isCacheableAPI].
  - destruct (ok response).
    + destruct (isCacheableAPI (pathname request)); cbn; eauto.
    + cbn. destruct (match_in _ _); cbn; eauto.
  - destruct (match_in _ _); cbn; eauto.
Qed.

(** A navigation is always answered: when its strategy fails, the answer
    is the cached offline page, or a plain text when that page is not
    cached.  A read under [/api/] that is not taken for a static resource
    is always answered too.  For any other request a failure of the
    strategy is passed on. *)
Theorem navigations_and_api_reads_are_always_answered (request : Request) (w : World) :
  let out := handleRequest env request w in
  let offline_page := match_in (caches w) (location_origin env +:+ "/offline.html") in
  (destination request = "document" -> exists response, fst out = Ok response) /\
  (isStaticResource (pathname request) = false ->
   startsWith (pathname request) "/api/" = true ->
     exists response, fst out = Ok response) /\
  (forall e,
     isStaticResource (pathname request) = true ->
     match_in (caches w) (url request) = None ->
     network env (netlog w) request = Throw e ->
       caches (snd out) = caches w /\
       fst out = if String.eqb (destination request) "document"
                 then Ok (default (text_response no_connection) offline_page)
                 else Throw e).
Proof.
  cbv zeta. split; [| split].
  - intros Hdoc. unfold handleRequest, try_catch. rewrite Hdoc. cbn [String.eqb].
    match goal with |- context [let '(_, _) := ?m w in _] => destruct (m w) as [[r | e] w'] end.
    + eauto.
    + unfold mbind, M_bind, bind, caches_match, gets, mret, M_ret, ret. cbn.
      destruct (match_in (caches w') (location_origin env +:+ "/offline.html")); cbn; eauto.
  - intros Hstatic Hapi. unfold handleRequest. rewrite Hstatic, Hapi.
    destruct (networkFirstWithFallback_returns request w) as (response & Hr).
    unfold try_catch. destruct (networkFirstWithFallback env request w) as [[r | e] w'];
      cbn [fst] in *; [eauto | discriminate].
  - intros e Hstatic Hmiss Hnet. unfold handleRequest. rewrite Hstatic.
    unfold try_catch, cacheFirst, mbind, M_bind, bind, caches_match, gets, fetch.
    rewrite Hmiss, Hnet. cbn.
    destruct (String.eqb (destination request) "document"); cbn; [| split; reflexivity].
    unfold mret, M_ret, ret.
    destruct (match_in (caches w) (location_origin env +:+ "/offline.html")); cbn;
      split; reflexivity.
Qed.

(** Network first: the answer of the network is returned whatever its
    status.  A successful one is handed to [cache.put], which is not
    awaited: it is filed in the named store when the Cache API takes it (a
    GET over http or https, a status other than 206, no [Vary: *]) and
    nowhere otherwise.  The cache is read only when [fetch] rejects, and a
    miss then passes the rejection on. *)
Theorem networkFirst_reads_the_cache_only_on_rejection (request : Request)
    (cacheName : string) (w : World) :
  let key := url request in
  let out := networkFirst env request cacheName w in
  netlog (snd out) = netlog w ++ [request] /\
  db (snd out) = db w /\
  match network env (netlog w) request with
  | Ok response =>
      fst out = Ok response /\
      if ok response && negb (String.eqb cacheName EmptyString)
      then if storable request response
           then cache_entry (snd out) cacheName key = Some response /\
                (forall name' key', name' <> cacheName \/ key' <> key ->
                   cache_entry (snd out) name' key' = cache_entry w name' key')
           else forall name' key',
                  cache_entry (snd out) name' key' = cache_entry w name' key'
      else caches (snd out) = caches w
  | Throw e =>
      caches (snd out) = caches w /\
      fst out = match match_in (caches w) key with
                | Some cached => Ok cached
                | None => Throw e
                end
  end.
Proof.
  cbv zeta. unfold networkFirst, try_catch, mbind, M_bind, bind, fetch, caches_match, gets,
    caches_open, mret, M_ret, ret, throw.
  destruct (network env (netlog w) request) as [response | e]; cbn [fst snd].
  - destruct (ok response && negb (String.eqb cacheName EmptyString));
      [| cbn; repeat split].
    rewrite unawaited_put.
    destruct (storable request response); cbn [fst snd]; unfold set_caches, set_netlog;
      cbn [caches netlog db].
    + repeat split.
      * unfold cache_entry. cbn [caches]. apply put_in_open_in_entry.
      * intros name' key' Hother. unfold cache_entry. cbn [caches].
        now apply put_in_open_in_frame.
    + repeat split. intros name' key'. unfold cache_entry. cbn [caches].
      apply match_in_named_open_in.
  - cbn. destruct (match_in (caches w) (url request)); cbn; repeat split.
Qed.

Lemma filter_none {A} (p : A -> bool) (l : list A) :
  (forall x, In x l -> p x = false) -> List.filter p l = [].
Proof.
  induction l as [| x l IH]; [reflexivity |]. intros Hall. cbn.
  rewrite (Hall x) by now left. apply IH. intros y Hy. apply Hall. now right.
Qed.

Lemma clear_loop names : forall w,
  for_each names (fun name => caches_delete name ≫= fun _ => mret tt) w =
  (Ok tt,
   set_caches (List.filter (fun nc => negb (existsb (String.eqb (fst nc)) names))) w).
Proof.
  induction names as [| name names IH]; intros w.
  - cbn. unfold ret. f_equal. destruct w as [cs ? ? ?]. unfold set_caches. cbn. f_equal.
    induction cs as [| x cs IHcs]; [reflexivity |]. cbn. now f_equal.
  - cbn [for_each]. unfold bind at 1. unfold mbind, M_bind, bind, caches_delete, mret, M_ret, ret.
    rewrite IH. f_equal. destruct w as [cs ? ? ?]. unfold set_caches. cbn. f_equal.
    rewrite filter_filter_l. apply List.filter_ext. intros x. cbn [existsb].
    now rewrite negb_orb.
Qed.

(** Clearing the caches never fails and leaves no store behind: no request
    finds a cached response afterwards, so a read under [/api/] whose
    network attempt fails gets the synthesized response, not an old one. *)
Theorem cleared_caches_serve_nothing (w : World) (request : Request) :
  let out := clearAllCaches w in
  fst out = Ok tt /\
  caches (snd out) = [] /\
  netlog (snd out) = netlog w /\ db (snd out) = db w /\
  (forall key, match_in (caches (snd out)) key = None) /\
  (network_failed env (snd out) request ->
     fst (networkFirstWithFallback env request (snd out)) =
     Ok (createOfflineAPIResponse env (pathname request))).
Proof.
  cbv zeta.
  assert (Hrun : clearAllCaches w = (Ok tt, set_caches (fun _ => []) w)).
  { unfold clearAllCaches, try_catch. unfold mbind at 1, M_bind at 1, bind at 1.
    unfold caches_keys, gets. rewrite clear_loop. f_equal. destruct w as [cs ? ? ?].
    unfold set_caches. cbn. f_equal. apply filter_none. intros y Hy.
    apply negb_false_iff, existsb_exists. exists (fst y).
    split; [now apply in_map | apply String.eqb_refl]. }
  rewrite Hrun. cbn [fst snd set_caches caches netlog db]. repeat split.
  intros Hfail. unfold networkFirstWithFallback, network_failed in *.
  unfold try_catch, mbind, M_bind, bind, fetch, throw, caches_match, gets, mret, M_ret, ret.
  cbn [netlog set_caches] in *.
  destruct (network env (netlog w) request) as [response | e]; cbn.
  - rewrite Hfail. reflexivity.
  - reflexivity.
Qed.

End Answers.

Lemma cleaning_removes_only_dated_old_api_entries_witness :
  NoDup (map fst (SW.caches Samples.world_with_dated_entries)) /\
  fst (SW.cleanOldCacheEntries Samples.ten_o_clock Samples.world_with_dated_entries) = Ok tt.
Proof.
  assert (H : NoDup (map fst (SW.caches Samples.world_with_dated_entries))).
  { compute_done. }
  split; [exact H |].
  apply (cleaning_removes_only_dated_old_api_entries Samples.ten_o_clock
           Samples.world_with_dated_entries H).
Defined.

(** At ten o'clock the cleaning drops the API entry of eight o'clock and
    keeps the one of half past nine, the one without a date and the one
    whose date cannot be read; the entry of eight o'clock in the static
    store stays. *)
Example cleaning_at_ten_o_clock :
  let out := SW.cleanOldCacheEntries Samples.ten_o_clock Samples.world_with_dated_entries in
  SW.cache_entry (snd out) SW.API_CACHE "https://app.example/api/mobile/employees" = None /\
  SW.cache_entry (snd out) SW.API_CACHE "https://app.example/api/mobile/dashboard" =
    Some (Samples.dated_response "Tue, 03 Nov 2026 09:30:00 GMT") /\
  SW.cache_entry (snd out) SW.API_CACHE "https://app.example/api/getLiffId" =
    Some Samples.undated_response /\
  SW.cache_entry (snd out) SW.API_CACHE "https://app.example/api/getTimeOffset" =
    Some (Samples.dated_response "yesterday") /\
  SW.cache_entry (snd out) SW.STATIC_CACHE "https://app.example/" =
    Some (Samples.dated_response "Tue, 03 Nov 2026 08:00:00 GMT").
Proof. vm_compute. repeat split. Qed.

(** Activation removes the store of the earlier version. *)
Example activation_of_a_new_version :
  let k := {| SW.world := Samples.world_with_dated_entries;
              SW.skippedWaiting := true; SW.claimedClients := false |} in
  map fst (SW.caches (SW.world (snd (SW.onActivate k)))) = [ SW.STATIC_CACHE; SW.API_CACHE ].
Proof. vm_compute. reflexivity. Qed.

(** An installation with the whole network in reach files the twelve
    resources, and the offline page is not one of them: a navigation that
    fails right after it gets the plain text. *)
Example install_online :
  let k := snd (SW.onInstall Samples.online_env Samples.new_worker) in
  SW.skippedWaiting k = true /\
  length (SW.netlog (SW.world k)) = 12%nat /\
  SW.cache_entry (SW.world k) SW.STATIC_CACHE "https://app.example/index.html" =
    Some (Samples.ok_response "{}") /\
  SW.cache_entry (SW.world k) SW.STATIC_CACHE
    "https://cdn.jsdelivr.net/npm/bootstrap@5.1.3/dist/css/bootstrap.min.css" =
    Some (Samples.ok_response "{}") /\
  SW.match_in (SW.caches (SW.world k)) "https://app.example/offline.html" = None /\
  fst (SW.handleRequest Samples.offline_env (Samples.navigation "/admin/index.html")
         (SW.world k)) =
    Ok (SW.text_response SW.no_connection).
Proof. vm_compute. repeat split. Qed.

(** With the CDN out of reach the installation still ends well, but it
    files nothing and the worker does not skip the waiting phase. *)
Example install_without_the_cdn :
  let out := SW.onInstall Samples.no_cdn_env Samples.new_worker in
  fst out = Ok tt /\
  SW.skippedWaiting (snd out) = false /\
  SW.caches (SW.world (snd out)) = [ (SW.STATIC_CACHE, ∅) ] /\
  length (SW.netlog (SW.world (snd out))) = 12%nat.
Proof. vm_compute. repeat split. Qed.

(* ------------------------------------------------------------------ *)
(** * More of the mobile core: retries, reads and the roster            *)
(* ------------------------------------------------------------------ *)

(** ** The retry loop of the API client *)

Section Retries.
Import JSString Core.
Variable env : Env.

Lemma set_netlog_set_netlog g h w :
  set_netlog g (set_netlog h w) = set_netlog (fun l => g (h l)) w.
Proof. reflexivity. Qed.

Lemma set_netlog_nothing w : set_netlog (fun l => l ++ []) w = w.
Proof. destruct w. unfold set_netlog. cbn. now rewrite app_nil_r. Qed.

Lemma fetch_sendable f w :
  sendable f = true ->
  fetch env f w = (network env (netlog w) f, set_netlog (fun l => l ++ [f]) w).
Proof.
  unfold sendable, fetch. intros H. apply negb_true_iff in H. now rewrite H.
Qed.

(** One turn of the retry loop on a request that can be sent. *)
Lemma attempt_turn f w :
  sendable f = true ->
  (response ← fetch env f;
   if negb (ok response)
   then throw (PlainError ("HTTP " +:+ of_Z (status response) +:+ ": " +:+
                           statusText response))
   else settle (json response)) w =
  (attempt_outcome env (netlog w) f, set_netlog (fun l => l ++ [f]) w).
Proof.
  intros Hsend. unfold mbind, M_bind, bind. rewrite fetch_sendable by exact Hsend.
  unfold attempt_outcome. destruct (network env (netlog w) f) as [response | e]; [| reflexivity].
  destruct (ok response); reflexivity.
Qed.

Lemma attempts_sendable f left : forall attempt w,
  sendable f = true ->
  (1 <= left)%nat ->
  (attempt + left = 4)%nat ->
  exists n,
    (1 <= n <= left)%nat /\
    snd (attempts env f left attempt w) = set_netlog (fun l => l ++ repeat f n) w /\
    (forall i, (i < n - 1)%nat ->
       exists e, attempt_outcome env (netlog w ++ repeat f i) f = Throw e) /\
    match fst (attempts env f left attempt w) with
    | Ok v => attempt_outcome env (netlog w ++ repeat f (n - 1)) f = Ok v
    | Throw e =>
        n = left /\
        exists last,
          attempt_outcome env (netlog w ++ repeat f (n - 1)) f = Throw last /\
          e = PlainError ("การเชื่อมต่อล้มเหลว: " +:+ error_message last)
    end.
Proof.
  induction left as [| left IH]; intros attempt w Hsend Hleft Hsum; [lia |].
  cbn [attempts]. unfold try_catch. rewrite attempt_turn by exact Hsend.
  destruct (attempt_outcome env (netlog w) f) as [v | err] eqn:Hfirst.
  - exists 1%nat. cbn [fst snd repeat Nat.sub]. rewrite app_nil_r.
    split; [lia |]. split; [reflexivity |]. split; [intros i Hi; lia | exact Hfirst].
  - destruct (Nat.eqb_spec attempt retryCount) as [Hlast | Hmore].
    + unfold retryCount in Hlast. assert (left = 0)%nat as -> by lia.
      exists 1%nat. cbn [fst snd repeat Nat.sub throw]. rewrite app_nil_r.
      split; [lia |]. split; [reflexivity |]. split; [intros i Hi; lia |].
      split; [reflexivity |]. exists err. split; [exact Hfirst | reflexivity].
    + unfold retryCount in Hmore.
      destruct (IH (S attempt) (set_netlog (fun l => l ++ [f]) w) Hsend) as
        (n & Hn & Hlog & Hearlier & Hlast); [lia | lia |].
      exists (S n). split; [lia |]. split; [| split].
      * rewrite Hlog. destruct w. unfold set_netlog. cbn. f_equal.
        now rewrite <- app_assoc.
      * intros i Hi. destruct i as [| i].
        -- cbn. rewrite app_nil_r. eauto.
        -- destruct (Hearlier i) as (e & He); [lia |]. exists e.
           cbn [netlog set_netlog] in He. rewrite <- app_assoc in He. exact He.
      * cbn [netlog set_netlog] in Hlast. rewrite <- app_assoc in Hlast.
        replace (S n - 1)%nat with (S (n - 1)) by lia. cbn [repeat].
        destruct (fst (attempts env f left (S attempt) (set_netlog (fun l => l ++ [f]) w)))
          as [v | e].
        -- exact Hlast.
        -- destruct Hlast as (-> & Hrest). split; [reflexivity | exact Hrest].
Qed.

Lemma attempts_unsendable f left : forall attempt w,
  sendable f = false ->
  (1 <= left)%nat ->
  (attempt + left = 4)%nat ->
  attempts env f left attempt w =
  (Throw (PlainError ("การเชื่อมต่อล้มเหลว: " +:+
                      "Request with GET/HEAD method cannot have body")), w).
Proof.
  induction left as [| left IH]; intros attempt w Hsend Hleft Hsum; [lia |].
  cbn [attempts]. unfold try_catch, mbind, M_bind, bind, fetch.
  unfold sendable in Hsend. apply negb_false_iff in Hsend. rewrite Hsend.
  destruct (Nat.eqb_spec attempt retryCount) as [Hlast | Hmore]; [reflexivity |].
  unfold retryCount in Hmore. apply IH; [| lia | lia].
  unfold sendable. now rewrite Hsend.
Qed.

(** Whatever happens, [makeRequest] changes nothing but the log of the
    network, which grows by at most three copies of its request. *)
Lemma makeRequest_log endpoint options w :
  exists n, (n <= 3)%nat /\
    snd (makeRequest env endpoint options w) =
    set_netlog (fun l => l ++ repeat (request_of endpoint options) n) w.
Proof.
  unfold makeRequest. fold (request_of endpoint options).
  destruct (sendable (request_of endpoint options)) eqn:Hsend.
  - destruct (attempts_sendable (request_of endpoint options) retryCount 1 w Hsend)
      as (n & Hn & Hlog & _); [unfold retryCount; lia | reflexivity |].
    exists n. split; [unfold retryCount in Hn; lia | exact Hlog].
  - rewrite attempts_unsendable by (try exact Hsend; unfold retryCount; lia).
    exists 0%nat. split; [lia |]. cbn [snd repeat]. now rewrite set_netlog_nothing.
Qed.

Lemma makeRequest_sends_once_at_least (endpoint : string) (options : Options)
    (w : World) :
  sendable (request_of endpoint options) = true ->
  exists n,
    (1 <= n <= 3)%nat /\
    snd (makeRequest env endpoint options w) =
      set_netlog (fun l => l ++ repeat (request_of endpoint options) n) w.
Proof.
  intros Hsend. unfold makeRequest. fold (request_of endpoint options).
  destruct (attempts_sendable (request_of endpoint options) retryCount 1 w Hsend)
    as (n & Hn & Hlog & _); [unfold retryCount; lia | reflexivity |].
  unfold retryCount in *. exists n. split; [lia | exact Hlog].
Qed.

(** [makeRequest] sends its request until one attempt succeeds, three
    times at most.  It returns the body of the first successful attempt;
    when all three fail it rejects with the message of the last failure
    behind a fixed prefix.  Nothing but the log of the network changes. *)
Theorem makeRequest_stops_at_the_first_success (endpoint : string) (options : Options)
    (w : World) :
  let f := request_of endpoint options in
  let out := makeRequest env endpoint options w in
  sendable f = true ->
  exists n,
    (1 <= n <= 3)%nat /\
    snd out = set_netlog (fun l => l ++ repeat f n) w /\
    (forall i, (i < n - 1)%nat ->
       exists e, attempt_outcome env (netlog w ++ repeat f i) f = Throw e) /\
    match fst out with
    | Ok v => attempt_outcome env (netlog w ++ repeat f (n - 1)) f = Ok v
    | Throw e =>
        n = 3%nat /\
        exists last,
          attempt_outcome env (netlog w ++ repeat f 2) f = Throw last /\
          e = PlainError ("การเชื่อมต่อล้มเหลว: " +:+ error_message last)
    end.
Proof.
  cbv zeta. intros Hsend. unfold makeRequest. fold (request_of endpoint options).
  destruct (attempts_sendable (request_of endpoint options) retryCount 1 w Hsend)
    as (n & Hn & Hlog & Hearlier & Hlast); [unfold retryCount; lia | reflexivity |].
  unfold retryCount in *. exists n. split; [lia |]. split; [exact Hlog |].
  split; [exact Hearlier |].
  destruct (fst (attempts env (request_of endpoint options) 3 1 w)) as [v | e];
    [exact Hlast |].
  destruct Hlast as (-> & last & Hfail & He). split; [reflexivity |]. now exists last.
Qed.

End Retries.

(** ** The API client: cache, pending requests and mutating calls *)

Section ApiClient.
Import JSString Core.
Variable env : Env.

Lemma set_cache_same w : set_cache (fun _ => cache w) w = w.
Proof. now destruct w. Qed.

Lemma makeRequest_keeps endpoint options w :
  cache (snd (makeRequest env endpoint options w)) = cache w /\
  pendingRequests (snd (makeRequest env endpoint options w)) = pendingRequests w /\
  lastAction (snd (makeRequest env endpoint options w)) = lastAction w.
Proof.
  destruct (makeRequest_log env endpoint options w) as (n & _ & ->). repeat split.
Qed.

Lemma pending_restored (key : string) (settled : result JS.Value) w :
  pendingRequests w !! key = None ->
  set_pendingRequests (delete key) (set_pendingRequests (<[key := settled]>) w) = w.
Proof.
  intros Hnone. destruct w. unfold set_pendingRequests. cbn in *. f_equal.
  rewrite delete_insert_eq. now apply delete_id.
Qed.

(** A call that is not a read is one [makeRequest] and nothing more, when
    no identical call is in flight: the cache is neither consulted nor
    written, whatever it holds and whatever the answer is. *)
Theorem mutating_call_bypasses_the_cache (endpoint : string) (options : Options)
    (w : World) :
  is_get options = false ->
  pendingRequests w !! cacheKey endpoint (opt_body options) = None ->
  call env endpoint options w = makeRequest env endpoint options w.
Proof.
  intros Hpost Hnone. unfold call. rewrite Hpost.
  unfold try_catch, mbind, M_bind, bind, gets, mret, M_ret, ret, modify, throw.
  cbn [JS.truthy]. rewrite Hnone.
  destruct (makeRequest_keeps endpoint options w) as (_ & Hpending & _).
  destruct (makeRequest env endpoint options w) as [[result | e] w1] eqn:Hrun;
    cbn [fst snd andb] in *.
  - f_equal. apply pending_restored. now rewrite Hpending.
  - f_equal. apply pending_restored. now rewrite Hpending.
Qed.

Lemma attempts_set_cache g f left : forall attempt w,
  attempts env f left attempt (set_cache g w) =
  (fst (attempts env f left attempt w), set_cache g (snd (attempts env f left attempt w))).
Proof.
  induction left as [| left IH]; intros attempt w; [reflexivity |].
  cbn [attempts]. unfold try_catch, mbind, M_bind, bind, fetch, throw, settle.
  cbn [netlog set_cache].
  destruct (String.eqb (fetch_method f) "GET" && bool_decide (fetch_body f <> None)).
  - destruct (attempt =? retryCount)%nat; [reflexivity | apply IH].
  - destruct (network env (netlog w) f) as [response | e].
    + destruct (negb (ok response)); cbn.
      * destruct (attempt =? retryCount)%nat; [reflexivity |].
        apply (IH (S attempt) (set_netlog (fun l => l ++ [f]) w)).
      * destruct (json response) as [v | e]; [reflexivity |].
        destruct (attempt =? retryCount)%nat; [reflexivity |].
        apply (IH (S attempt) (set_netlog (fun l => l ++ [f]) w)).
    + destruct (attempt =? retryCount)%nat; [reflexivity |].
      apply (IH (S attempt) (set_netlog (fun l => l ++ [f]) w)).
Qed.

(** A read whose answer carries a true [success] is stored, and served
    from the cache to the next identical read until its time to live is
    over: that read returns the same answer, sends nothing and changes
    nothing.  (A time to live of zero, which the code replaces by the
    default, is left aside.) *)
Theorem successful_read_is_served_from_the_cache (env' : Env) (endpoint : string)
    (options : Options) (w : World) (answer : JS.Value) :
  let key := cacheKey endpoint (opt_body options) in
  let ttl := default 30000%Z (cacheTTL options) in
  is_get options = true ->
  cacheTTL options <> Some 0%Z ->
  JS.truthy (fst (getFromCache (cache w) key (now env))) = false ->
  pendingRequests w !! key = None ->
  fst (makeRequest env endpoint options w) = Ok answer ->
  JS.truthy (JS.get answer "success") = true ->
  (now env' <= now env + ttl)%Z ->
  let w1 := snd (call env endpoint options w) in
  fst (call env endpoint options w) = Ok answer /\
  netlog w1 = netlog (snd (makeRequest env endpoint options w)) /\
  call env' endpoint options w1 = (Ok answer, w1).
Proof.
  cbv zeta. intros Hget Hzero Hmiss Hnone Hanswer Hsuccess Hfresh.
  assert (Htruthy : JS.truthy answer = true).
  { destruct answer; try discriminate. reflexivity. }
  assert (Hread : forall w0 : World,
            read answer "success" w0 = (Ok (JS.get answer "success"), w0)).
  { intros w0. destruct answer; try discriminate. reflexivity. }
  assert (Httl : ttl_of options = default 30000%Z (cacheTTL options)).
  { unfold ttl_of. destruct (cacheTTL options) as [ttl |]; [| reflexivity].
    destruct (Z.eqb_spec ttl 0) as [-> | _]; [congruence | reflexivity]. }
  set (key := cacheKey endpoint (opt_body options)) in *.
  destruct (getFromCache (cache w) key (now env)) as [v c] eqn:Hlookup. cbn [fst] in Hmiss.
  destruct (makeRequest_keeps endpoint options w) as (_ & Hpending & _).
  set (w' := snd (makeRequest env endpoint options w)) in *.
  set (entry := {| data := answer;
                   expires := (now env + default 30000%Z (cacheTTL options))%Z |}).
  assert (Hrun : call env endpoint options w =
                 (Ok answer, set_cache (fun _ => <[key := entry]> c) w')).
  { unfold call. fold key. rewrite Hget.
    unfold try_catch, mbind, M_bind, bind, gets, mret, M_ret, ret, modify, throw.
    rewrite Hlookup, Hmiss. cbn [pendingRequests set_cache]. rewrite Hnone.
    unfold makeRequest. rewrite attempts_set_cache.
    fold (makeRequest env endpoint options w). fold w'. rewrite Hanswer.
    rewrite Hread, Hsuccess, Httl. f_equal.
    destruct w' as [c0 p0 a0 l0 q0 g0] eqn:Hw'. unfold set_cache, set_pendingRequests, setCache.
    cbn in *. f_equal. rewrite delete_insert_eq. apply delete_id. now rewrite Hpending. }
  rewrite Hrun. cbn [fst snd]. split; [reflexivity |]. split; [reflexivity |].
  unfold call. fold key. rewrite Hget.
  unfold try_catch, mbind, M_bind, bind, gets, mret, M_ret, ret, modify, throw.
  cbn [cache set_cache]. unfold getFromCache. rewrite lookup_insert_eq.
  unfold entry at 1. cbn [expires].
  destruct (Z.gtb_spec (now env') (now env + default 30000%Z (cacheTTL options))) as [Hlate | _];
    [lia |].
  change (data entry) with answer. rewrite Htruthy. cbn [fst snd]. f_equal.
Qed.

(** A call whose key is already pending joins the call in flight: it
    settles as that one does and sends nothing.  A call whose key is not
    pending leaves the table of pending requests as it found it, whether
    it returns or rejects; and a call that rejects adds nothing to the
    cache. *)
Theorem call_shares_and_clears_pending_requests (endpoint : string) (options : Options)
    (w : World) :
  let key := cacheKey endpoint (opt_body options) in
  let out := call env endpoint options w in
  (forall settled,
     pendingRequests w !! key = Some settled ->
     (is_get options = true ->
      JS.truthy (fst (getFromCache (cache w) key (now env))) = false) ->
       fst out = settled /\ netlog (snd out) = netlog w) /\
  (pendingRequests w !! key = None -> pendingRequests (snd out) = pendingRequests w) /\
  (forall e, fst out = Throw e ->
     forall k entry, cache (snd out) !! k = Some entry -> cache w !! k = Some entry).
Proof.
  cbv zeta. set (key := cacheKey endpoint (opt_body options)).
  assert (Hlookup : forall k entry,
            snd (getFromCache (cache w) key (now env)) !! k = Some entry ->
            cache w !! k = Some entry).
  { intros k entry. unfold getFromCache. destruct (cache w !! key) as [cached |] eqn:Hc;
      [| easy].
    destruct (now env >? expires cached)%Z; [| easy]. cbn.
    intros H. apply lookup_delete_Some in H. tauto. }
  unfold call. fold key.
  unfold try_catch, mbind, M_bind, bind, gets, mret, M_ret, ret, modify, throw, settle.
  destruct (is_get options) eqn:Hget.
  - destruct (getFromCache (cache w) key (now env)) as [v c] eqn:Hcache. cbn [fst snd] in *.
    destruct (JS.truthy v) eqn:Hv.
    + cbn [fst snd]. split; [| split].
      * intros settled _ Hmiss. specialize (Hmiss eq_refl). discriminate.
      * reflexivity.
      * discriminate.
    + cbn [pendingRequests set_cache]. destruct (pendingRequests w !! key) as [settled |] eqn:Hp.
      * split; [| split]; [| discriminate |].
        -- intros s [= <-] _. destruct settled; cbn; split; reflexivity.
        -- intros e He k entry. destruct settled as [a | e0]; cbn in *; apply Hlookup.
      * unfold makeRequest. rewrite attempts_set_cache. fold (makeRequest env endpoint options w).
        destruct (makeRequest_keeps endpoint options w) as (Hc & Hpending & _).
        destruct (makeRequest env endpoint options w) as [[answer | e] w1];
          cbn [fst snd andb] in *.
        -- split; [discriminate |].
           match goal with |- context [read answer "success" ?w3] =>
             destruct (read_cases answer "success" w3) as [[msg [-> _]] | [-> _]]
           end.
           ++ split.
              ** intros _. cbn. rewrite delete_insert_eq, Hpending.
                 rewrite (delete_id (pendingRequests w) key Hp). now apply delete_id.
              ** intros e0 _ k entry. cbn. apply Hlookup.
           ++ split.
              ** intros _. destruct (JS.truthy (JS.get answer "success")); cbn;
                   rewrite delete_insert_eq, Hpending; now apply delete_id.
              ** destruct (JS.truthy (JS.get answer "success")); discriminate.
        -- split; [discriminate |]. split.
           ++ intros _. cbn. rewrite delete_insert_eq, Hpending. now apply delete_id.
           ++ intros e0 _ k entry. cbn. apply Hlookup.
  - cbn [JS.truthy]. destruct (pendingRequests w !! key) as [settled |] eqn:Hp.
    + split; [| split]; [| discriminate |].
      * intros s [= <-] _. destruct settled; cbn; split; reflexivity.
      * intros e He k entry. destruct settled as [a | e0]; cbn in *; easy.
    + destruct (makeRequest_keeps endpoint options w) as (Hc & Hpending & _).
      destruct (makeRequest env endpoint options w) as [[answer | e] w1];
        cbn [fst snd andb] in *.
      * split; [discriminate |]. split; [| discriminate].
        intros _. cbn. rewrite delete_insert_eq, Hpending. now apply delete_id.
      * split; [discriminate |]. split.
        -- intros _. cbn. rewrite delete_insert_eq, Hpending. now apply delete_id.
        -- intros e0 _ k entry. cbn. now rewrite Hc.
Qed.

End ApiClient.

(** ** Clock actions with connectivity *)

Section ClockOnline.
Import JSString Core.
Variable env : Env.

Lemma call_keeps_lastAction endpoint options w :
  lastAction (snd (call env endpoint options w)) = lastAction w.
Proof.
  unfold call, try_catch, mbind, M_bind, bind, gets, settle, modify, throw, mret, M_ret, ret.
  destruct (is_get options); cbn -[makeRequest read].
  - destruct (getFromCache (cache w) _ (now env)) as [v c]. cbn -[makeRequest read].
    destruct (JS.truthy v); [reflexivity |]. cbn -[makeRequest read].
    destruct (pendingRequests w !! _) as [[v' | e] |]; cbn -[makeRequest read];
      try reflexivity.
    destruct (makeRequest_keeps env endpoint options (set_cache (fun _ => c) w))
      as (_ & _ & Hframe).
    destruct (makeRequest env endpoint options (set_cache (fun _ => c) w))
      as [[result | e] w1]; cbn -[makeRequest read] in *.
    + match goal with |- context [read result "success" ?w3] =>
        destruct (read_cases result "success" w3) as [[msg [-> _]] | [-> _]]
      end; [exact Hframe |].
      destruct (JS.truthy (JS.get result "success")); exact Hframe.
    + exact Hframe.
  - destruct (pendingRequests w !! _) as [[v' | e] |]; cbn -[makeRequest]; try reflexivity.
    destruct (makeRequest_keeps env endpoint options w) as (_ & _ & Hframe).
    destruct (makeRequest env endpoint options w) as [[result | e] w1]; exact Hframe.
Qed.

(** The options of a clock action can be read unless they are [null]. *)
Lemma read_options (options : JS.Value) (k : string) (w : World) :
  options <> JS.Null ->
  read (or_empty options) k w = (Ok (JS.get (or_empty options) k), w).
Proof. destruct options; intros H; try reflexivity. congruence. Qed.

Lemma clockIn_online_sent (w : World) (employeeName : string) (options : JS.Value) :
  onLine env = true -> options <> JS.Null ->
  let sent := call env "/clockin"
                (POST (clockInData env employeeName (or_empty options))) w in
  let done := clockIn env employeeName options w in
  let confirmed := match fst sent with
                   | Ok response => JS.truthy (JS.get response "success")
                   | Throw _ => false
                   end in
  exists answer,
    fst done = Ok answer /\
    JS.get answer "offline" = JS.Undefined /\
    pendingActions (snd done) = pendingActions w /\
    netlog (snd done) = netlog (snd sent) /\
    JS.get answer "success" = JS.Bool confirmed /\
    if confirmed
    then cache (snd done) = ∅ /\
         JS.get (lastAction (snd done)) "type" = JS.Str "clockin" /\
         JS.get (lastAction (snd done)) "employee" = JS.Str employeeName /\
         Ok (JS.get answer "data") = fst sent
    else lastAction (snd done) = lastAction w.
Proof.
  intros Honline Hoptions. cbv zeta.
  pose proof (call_untouched env "/clockin"
                (POST (clockInData env employeeName (or_empty options))) w) as (Hq & _).
  pose proof (call_keeps_lastAction "/clockin"
                (POST (clockInData env employeeName (or_empty options))) w) as Hlast.
  remember (clockIn env employeeName options w) as done eqn:Hdone.
  unfold clockIn, try_catch in Hdone. cbv zeta in Hdone.
  unfold mbind, M_bind, bind in Hdone. rewrite read_options in Hdone by exact Hoptions.
  rewrite Honline in Hdone. cbn [negb] in Hdone.
  destruct (call env "/clockin" (POST (clockInData env employeeName (or_empty options))) w)
    as [[response | e] w1]; cbn [fst snd] in *.
  - destruct (read_cases response "success" w1) as [[msg [Hr Hnone]] | [Hr _]];
      rewrite Hr in Hdone.
    + subst done. rewrite Hnone. eexists. split; [reflexivity |]. cbn.
      repeat split; assumption.
    + unfold modify, clearCache, mret, M_ret, ret in Hdone.
      destruct (JS.truthy (JS.get response "success")); subst done; cbn.
      * eexists. split; [reflexivity |]. cbn. repeat split. exact Hq.
      * eexists. split; [reflexivity |]. cbn. repeat split; assumption.
  - subst done. eexists. split; [reflexivity |]. cbn. repeat split; assumption.
Qed.

Lemma clockOut_online_sent (w : World) (employeeName : string) (options : JS.Value) :
  onLine env = true -> options <> JS.Null ->
  let sent := call env "/clockout"
                (POST (clockOutData env employeeName (or_empty options))) w in
  let done := clockOut env employeeName options w in
  let confirmed := match fst sent with
                   | Ok response => JS.truthy (JS.get response "success")
                   | Throw _ => false
                   end in
  exists answer,
    fst done = Ok answer /\
    JS.get answer "offline" = JS.Undefined /\
    pendingActions (snd done) = pendingActions w /\
    netlog (snd done) = netlog (snd sent) /\
    JS.get answer "success" = JS.Bool confirmed /\
    if confirmed
    then cache (snd done) = ∅ /\
         JS.get (lastAction (snd done)) "type" = JS.Str "clockout" /\
         JS.get (lastAction (snd done)) "employee" = JS.Str employeeName /\
         Ok (JS.get answer "data") = fst sent
    else lastAction (snd done) = lastAction w.
Proof.
  intros Honline Hoptions. cbv zeta.
  pose proof (call_untouched env "/clockout"
                (POST (clockOutData env employeeName (or_empty options))) w) as (Hq & _).
  pose proof (call_keeps_lastAction "/clockout"
                (POST (clockOutData env employeeName (or_empty options))) w) as Hlast.
  remember (clockOut env employeeName options w) as done eqn:Hdone.
  unfold clockOut, try_catch in Hdone. cbv zeta in Hdone.
  unfold mbind, M_bind, bind in Hdone. rewrite read_options in Hdone by exact Hoptions.
  rewrite Honline in Hdone. cbn [negb] in Hdone.
  destruct (call env "/clockout" (POST (clockOutData env employeeName (or_empty options))) w)
    as [[response | e] w1]; cbn [fst snd] in *.
  - destruct (read_cases response "success" w1) as [[msg [Hr Hnone]] | [Hr _]];
      rewrite Hr in Hdone.
    + subst done. rewrite Hnone. eexists. split; [reflexivity |]. cbn.
      repeat split; assumption.
    + unfold modify, clearCache, mret, M_ret, ret in Hdone.
      destruct (JS.truthy (JS.get response "success")); subst done; cbn.
      * eexists. split; [reflexivity |]. cbn. repeat split. exact Hq.
      * eexists. split; [reflexivity |]. cbn. repeat split; assumption.
  - subst done. eexists. split; [reflexivity |]. cbn. repeat split; assumption.
Qed.

(** With connectivity reported, a clock-in and a clock-out never reject
    and never queue anything; the caller gets an envelope without the
    offline marker.  With options that are [null] nothing is sent and the
    envelope reports a failure.  With any other options the call is made,
    and the envelope's [success] is true exactly when the call returned an
    answer with a true [success]: after such a success the whole API cache
    is empty and the last action is recorded; otherwise (the call
    rejected, or the answer was without success, [null] included) the last
    action is as it was. *)
Theorem online_clock_action_answers_with_an_envelope (w : World) (employeeName : string)
    (options : JS.Value) :
  onLine env = true ->
  let sent_in := call env "/clockin"
                   (POST (clockInData env employeeName (or_empty options))) w in
  let sent_out := call env "/clockout"
                    (POST (clockOutData env employeeName (or_empty options))) w in
  let confirmed := fun sent : result JS.Value * World =>
    match fst sent with
    | Ok response => JS.truthy (JS.get response "success")
    | Throw _ => false
    end in
  let outcome := fun (type : string) (sent done : result JS.Value * World) =>
    exists answer,
      fst done = Ok answer /\
      JS.get answer "offline" = JS.Undefined /\
      pendingActions (snd done) = pendingActions w /\
      if JS.is_null options
      then snd done = w /\ JS.get answer "success" = JS.Bool false
      else netlog (snd done) = netlog (snd sent) /\
           JS.get answer "success" = JS.Bool (confirmed sent) /\
           if confirmed sent
           then cache (snd done) = ∅ /\
                JS.get (lastAction (snd done)) "type" = JS.Str type /\
                JS.get (lastAction (snd done)) "employee" = JS.Str employeeName /\
                Ok (JS.get answer "data") = fst sent
           else lastAction (snd done) = lastAction w in
  outcome "clockin" sent_in (clockIn env employeeName options w) /\
  outcome "clockout" sent_out (clockOut env employeeName options w).
Proof.
  intros Honline. cbv zeta.
  destruct (JS.is_null options) eqn:Hnull.
  - destruct options; try discriminate Hnull.
    unfold clockIn, clockOut, try_catch, mbind, M_bind, bind. cbn. rewrite Honline. cbn.
    split; eexists; (split; [reflexivity |]); cbn; repeat split.
  - assert (Hnotnull : options <> JS.Null) by (intros ->; discriminate Hnull). split.
    + destruct (clockIn_online_sent w employeeName options Honline Hnotnull)
        as (answer & H1 & H2 & H3 & H4 & H5 & H6).
      exists answer. repeat split; assumption.
    + destruct (clockOut_online_sent w employeeName options Honline Hnotnull)
        as (answer & H1 & H2 & H3 & H4 & H5 & H6).
      exists answer. repeat split; assumption.
Qed.

End ClockOnline.

(** ** The status reads and their endpoints *)

Section StatusReads.
Import JSString Core.

#[local] Arguments String.append : simpl nomatch.

Lemma decode_encode_byte c rest :
  decodeURIComponent (encode_byte c +:+ rest) = String c (decodeURIComponent rest).
Proof.
  destruct c as [[] [] [] [] [] [] [] []]; reflexivity.
Qed.

Lemma append_assoc_s (a b c : string) : (a +:+ b) +:+ c = a +:+ (b +:+ c).
Proof. induction a as [| x a IH]; cbn; [reflexivity | now rewrite IH]. Qed.

Lemma decode_encode s : decodeURIComponent (encodeURIComponent s) = s.
Proof.
  induction s as [| c s IH]; [reflexivity |].
  cbn [encodeURIComponent]. rewrite decode_encode_byte. now rewrite IH.
Qed.

Lemma encode_byte_safe c x :
  In x (list_ascii_of_string (encode_byte c)) -> is_unreserved x = true \/ x = "%"%char.
Proof.
  destruct c as [[] [] [] [] [] [] [] []]; cbn; intros H;
    repeat (destruct H as [<- | H]; [(left; reflexivity) || (right; reflexivity) |]);
    contradiction.
Qed.

Lemma encode_safe s x :
  In x (list_ascii_of_string (encodeURIComponent s)) ->
  is_unreserved x = true \/ x = "%"%char.
Proof.
  induction s as [| c s IH]; [intros [] |].
  cbn [encodeURIComponent]. rewrite list_ascii_app. intros [H | H]%in_app_or.
  - now apply (encode_byte_safe c).
  - now apply IH.
Qed.

Lemma append_inv_head (p a b : string) : p +:+ a = p +:+ b -> a = b.
Proof. induction p as [| c p IH]; cbn; [easy |]. intros [= H]. now apply IH. Qed.

Lemma encodeURIComponent_inj n1 n2 :
  encodeURIComponent n1 = encodeURIComponent n2 -> n1 = n2.
Proof.
  intros H. apply (f_equal decodeURIComponent) in H. now rewrite !decode_encode in H.
Qed.

(** The name of an employee survives its trip in the path of a status
    read: decoding gives it back, the encoded name holds none of the
    characters that structure a URL or a cache key, and two names give
    the same endpoint, or the same cache key, only when they are the same
    name.  So the status cached for one employee is never served for
    another. *)
Theorem status_endpoint_tells_employees_apart (name1 name2 : string) :
  let endpoint := fun name => "/status/" +:+ encodeURIComponent name in
  decodeURIComponent (encodeURIComponent name1) = name1 /\
  (forall c, In c (list_ascii_of_string (encodeURIComponent name1)) ->
     ~ In c (list_ascii_of_string "/?#&:= ")) /\
  (endpoint name1 = endpoint name2 -> name1 = name2) /\
  (cacheKey (endpoint name1) JS.Undefined = cacheKey (endpoint name2) JS.Undefined ->
   name1 = name2).
Proof.
  cbv zeta. split; [apply decode_encode |]. split; [| split].
  - intros c Hc Hbad. apply encode_safe in Hc.
    cbn in Hbad. repeat (destruct Hbad as [<- | Hbad]; [destruct Hc; discriminate |]).
    contradiction.
  - intros H. apply append_inv_head in H. now apply encodeURIComponent_inj.
  - unfold cacheKey. intros H.
    apply append_inv_tail, append_inv_head in H. now apply encodeURIComponent_inj.
Qed.

Section Reads.
Variable env : Env.

Lemma checkStatus_world employeeName w :
  snd (checkStatus env employeeName w) =
  snd (call env ("/status/" +:+ encodeURIComponent employeeName) (reading 10000) w).
Proof.
  unfold checkStatus, try_catch, mbind, M_bind, bind, read, mret, M_ret, ret, throw.
  destruct (call env _ (reading 10000) w) as [[response | e] w1]; cbn [snd]; [| reflexivity].
  destruct response; cbn; try reflexivity;
    match goal with |- context [if ?b then _ else _] => destruct b end; reflexivity.
Qed.

(** The two reads of the clock manager never reject, and they change
    what their call changes.  [checkStatus] returns the server's own
    answer when its [success] is true, the envelope [unknown] when the
    answer has no true [success], and the envelope [error] when the call
    failed or the answer was [null].  [getHistory] returns the [history]
    of an answer whose [success] is true, and the empty list in every
    other case. *)
Theorem status_reads_never_reject (employeeName : string) (limit : JS.Value) (w : World) :
  let status_call :=
    call env ("/status/" +:+ encodeURIComponent employeeName) (reading 10000) w in
  let history_call :=
    call env ("/history/" +:+ encodeURIComponent employeeName +:+ "?limit=" +:+
              JS.to_string (match limit with JS.Undefined => JS.Num 7 | _ => limit end))
         (reading 60000) w in
  let unknown := JS.Obj [ ("success", JS.Bool false); ("status", JS.Str "unknown") ] in
  let error := JS.Obj [ ("success", JS.Bool false); ("status", JS.Str "error") ] in
  checkStatus env employeeName w =
    (Ok match fst status_call with
        | Ok JS.Null | Ok JS.Undefined | Throw _ => error
        | Ok response => if JS.truthy (JS.get response "success") then response else unknown
        end,
     snd status_call) /\
  getHistory env employeeName limit w =
    (Ok match fst history_call with
        | Ok response =>
            if JS.truthy (JS.get response "success") then JS.get response "history"
            else JS.Arr []
        | Throw _ => JS.Arr []
        end,
     snd history_call).
Proof.
  cbv zeta. split.
  - unfold checkStatus, try_catch, mbind, M_bind, bind, read, mret, M_ret, ret, throw.
    destruct (call env _ (reading 10000) w) as [[response | e] w1]; cbn [fst snd];
      [| reflexivity].
    destruct response; cbn; try reflexivity;
      match goal with |- context [if ?b then _ else _] => destruct b end; reflexivity.
  - unfold getHistory, try_catch, mbind, M_bind, bind, read, mret, M_ret, ret, throw.
    destruct (call env _ (reading 60000) w) as [[response | e] w1]; cbn [fst snd];
      [| reflexivity].
    destruct response; cbn; try reflexivity;
      match goal with |- context [if ?b then _ else _] => destruct b end; reflexivity.
Qed.

End Reads.

End StatusReads.

(** ** The status read that follows a clock action *)

Section FreshStatus.
Import JSString Core.

#[local] Arguments String.append : simpl nomatch.

Lemma call_pending_elsewhere env endpoint options w k :
  k <> cacheKey endpoint (opt_body options) ->
  pendingRequests (snd (call env endpoint options w)) !! k = pendingRequests w !! k.
Proof.
  intros Hk.
  unfold call, try_catch, mbind, M_bind, bind, gets, settle, modify, throw, mret, M_ret, ret.
  destruct (is_get options); cbn -[makeRequest read].
  - destruct (getFromCache (cache w) _ (now env)) as [v c]. cbn -[makeRequest read].
    destruct (JS.truthy v); [reflexivity |]. cbn -[makeRequest read].
    destruct (pendingRequests w !! cacheKey endpoint (opt_body options)) as [[v' | e] |];
      cbn -[makeRequest read]; try reflexivity.
    + now rewrite lookup_delete_ne by congruence.
    + destruct (makeRequest_keeps env endpoint options (set_cache (fun _ => c) w))
        as (_ & Hframe & _).
      destruct (makeRequest env endpoint options (set_cache (fun _ => c) w))
        as [[result | e] w1]; cbn -[makeRequest read] in *.
      * match goal with |- context [read result "success" ?w3] =>
          destruct (read_cases result "success" w3) as [[msg [-> _]] | [-> _]]
        end.
        -- cbn. rewrite !lookup_delete_ne, lookup_insert_ne, Hframe by congruence.
           reflexivity.
        -- destruct (JS.truthy (JS.get result "success")); cbn;
             rewrite lookup_delete_ne, lookup_insert_ne, Hframe by congruence; reflexivity.
      * rewrite lookup_delete_ne, lookup_insert_ne, Hframe by congruence. reflexivity.
  - destruct (pendingRequests w !! cacheKey endpoint (opt_body options)) as [[v' | e] |];
      cbn -[makeRequest]; try reflexivity.
    + now rewrite lookup_delete_ne by congruence.
    + destruct (makeRequest_keeps env endpoint options w) as (_ & Hframe & _).
      destruct (makeRequest env endpoint options w) as [[result | e] w1];
        cbn -[makeRequest] in *;
        rewrite lookup_delete_ne, lookup_insert_ne, Hframe by congruence; reflexivity.
Qed.

(** What the [catch] block of a clock action returns is never the
    envelope of a confirmed action. *)
Ltac caught_is_no_confirmation Hdone Hanswer Hsuccess Hoffline :=
  unfold resolve, storeOfflineAction, try_catch, settle, modify, mbind, M_bind, bind,
    mret, M_ret, ret in Hdone;
  cbn in Hdone;
  repeat match type of Hdone with
         | context [if ?b then _ else _] => destruct b; cbn in Hdone
         | context [match ?x with _ => _ end] => destruct x; cbn in Hdone
         end;
  subst; cbn in Hanswer;
  first [ discriminate Hanswer | injection Hanswer as <-; discriminate ].

Lemma clockIn_confirmed_state env w employeeName options answer :
  fst (clockIn env employeeName options w) = Ok answer ->
  JS.truthy (JS.get answer "success") = true ->
  JS.truthy (JS.get answer "offline") = false ->
  cache (snd (clockIn env employeeName options w)) = ∅ /\
  pendingRequests (snd (clockIn env employeeName options w)) =
  pendingRequests
    (snd (call env "/clockin" (POST (clockInData env employeeName (or_empty options))) w)).
Proof.
  intros Hanswer Hsuccess Hoffline.
  remember (clockIn env employeeName options w) as done eqn:Hdone.
  unfold clockIn, try_catch in Hdone. cbv zeta in Hdone. unfold mbind, M_bind, bind in Hdone.
  destruct (read_cases (or_empty options) "note" w) as [[msg [Hr _]] | [Hr _]];
    rewrite Hr in Hdone.
  { exfalso. caught_is_no_confirmation Hdone Hanswer Hsuccess Hoffline. }
  destruct (call env "/clockin" (POST (clockInData env employeeName (or_empty options))) w)
    as [[response | e] w1].
  2:{ exfalso. caught_is_no_confirmation Hdone Hanswer Hsuccess Hoffline. }
  destruct (read_cases response "success" w1) as [[msg [Hr2 _]] | [Hr2 _]];
    rewrite Hr2 in Hdone.
  { exfalso. caught_is_no_confirmation Hdone Hanswer Hsuccess Hoffline. }
  unfold modify, clearCache, mret, M_ret, ret in Hdone.
  destruct (JS.truthy (JS.get response "success")); subst done; cbn in *.
  - split; reflexivity.
  - injection Hanswer as <-. discriminate.
Qed.

Lemma clockOut_confirmed_state env w employeeName options answer :
  fst (clockOut env employeeName options w) = Ok answer ->
  JS.truthy (JS.get answer "success") = true ->
  JS.truthy (JS.get answer "offline") = false ->
  cache (snd (clockOut env employeeName options w)) = ∅ /\
  pendingRequests (snd (clockOut env employeeName options w)) =
  pendingRequests
    (snd (call env "/clockout" (POST (clockOutData env employeeName (or_empty options))) w)).
Proof.
  intros Hanswer Hsuccess Hoffline.
  remember (clockOut env employeeName options w) as done eqn:Hdone.
  unfold clockOut, try_catch in Hdone. cbv zeta in Hdone. unfold mbind, M_bind, bind in Hdone.
  destruct (read_cases (or_empty options) "latitude" w) as [[msg [Hr _]] | [Hr _]];
    rewrite Hr in Hdone.
  { exfalso. caught_is_no_confirmation Hdone Hanswer Hsuccess Hoffline. }
  destruct (call env "/clockout" (POST (clockOutData env employeeName (or_empty options))) w)
    as [[response | e] w1].
  2:{ exfalso. caught_is_no_confirmation Hdone Hanswer Hsuccess Hoffline. }
  destruct (read_cases response "success" w1) as [[msg [Hr2 _]] | [Hr2 _]];
    rewrite Hr2 in Hdone.
  { exfalso. caught_is_no_confirmation Hdone Hanswer Hsuccess Hoffline. }
  unfold modify, clearCache, mret, M_ret, ret in Hdone.
  destruct (JS.truthy (JS.get response "success")); subst done; cbn in *.
  - split; reflexivity.
  - injection Hanswer as <-. discriminate.
Qed.

(** After a clock-in or a clock-out that the server confirmed the API
    cache is empty, so the next status read is not served from it, for
    whichever employee and however fresh the status cached before: when no
    status read of that employee is in flight it goes to the network, with
    one to three requests; when one is in flight it joins that one and
    sends nothing. *)
Theorem status_read_after_a_confirmed_clock_action_is_fresh (env env' : Env) (w : World)
    (employeeName : string) (options : JS.Value) (asked : string) :
  let status_key := cacheKey ("/status/" +:+ encodeURIComponent asked) JS.Undefined in
  let status_request :=
    request_of ("/status/" +:+ encodeURIComponent asked) (reading 10000) in
  let confirmed := fun out : result JS.Value * World =>
    exists answer, fst out = Ok answer /\
      JS.truthy (JS.get answer "success") = true /\
      JS.truthy (JS.get answer "offline") = false in
  let fresh := fun w1 =>
    cache w1 = ∅ /\
    (pendingRequests w !! status_key = None ->
       exists n, (1 <= n <= 3)%nat /\
         netlog (snd (checkStatus env' asked w1)) = netlog w1 ++ repeat status_request n) /\
    (forall settled, pendingRequests w !! status_key = Some settled ->
       fst (call env' ("/status/" +:+ encodeURIComponent asked) (reading 10000) w1) =
         settled /\
       netlog (snd (checkStatus env' asked w1)) = netlog w1) in
  (confirmed (clockIn env employeeName options w) ->
   fresh (snd (clockIn env employeeName options w))) /\
  (confirmed (clockOut env employeeName options w) ->
   fresh (snd (clockOut env employeeName options w))).
Proof.
  cbv zeta.
  assert (Hfresh : forall w1,
            cache w1 = ∅ ->
            pendingRequests w1 !! cacheKey ("/status/" +:+ encodeURIComponent asked)
                                           JS.Undefined =
            pendingRequests w !! cacheKey ("/status/" +:+ encodeURIComponent asked)
                                          JS.Undefined ->
            cache w1 = ∅ /\
            (pendingRequests w !! cacheKey ("/status/" +:+ encodeURIComponent asked)
                                          JS.Undefined = None ->
             exists n, (1 <= n <= 3)%nat /\
               netlog (snd (checkStatus env' asked w1)) =
               netlog w1 ++ repeat (request_of ("/status/" +:+ encodeURIComponent asked)
                                               (reading 10000)) n) /\
            (forall settled,
               pendingRequests w !! cacheKey ("/status/" +:+ encodeURIComponent asked)
                                             JS.Undefined = Some settled ->
               fst (call env' ("/status/" +:+ encodeURIComponent asked) (reading 10000) w1) =
                 settled /\
               netlog (snd (checkStatus env' asked w1)) = netlog w1)).
  { intros w1 Hempty Hsame. split; [exact Hempty |]. split.
    - intros Hnone. rewrite Hnone in Hsame. rewrite checkStatus_world.
      destruct (makeRequest_sends_once_at_least env'
                  ("/status/" +:+ encodeURIComponent asked) (reading 10000)
                  (set_cache (fun _ => ∅) w1) eq_refl) as (n & Hn & Hlog).
      exists n. split; [exact Hn |].
      unfold call. unfold try_catch, mbind, M_bind, bind, gets, mret, M_ret, ret, modify,
        throw.
      cbn [is_get reading opt_method opt_body]. unfold getFromCache.
      rewrite Hempty, lookup_empty.
      cbn [JS.truthy pendingRequests set_cache]. rewrite Hsame.
      destruct (makeRequest env' ("/status/" +:+ encodeURIComponent asked) (reading 10000)
                  (set_cache (fun _ => ∅) w1)) as [[answer | e] w2]; cbn [fst snd] in *.
      + match goal with |- context [read answer "success" ?w3] =>
          destruct (read_cases answer "success" w3) as [[msg [-> _]] | [-> _]]
        end.
        * cbn. rewrite Hlog. reflexivity.
        * destruct (JS.truthy (JS.get answer "success")); rewrite Hlog; reflexivity.
      + rewrite Hlog. reflexivity.
    - intros settled Hsome. rewrite Hsome in Hsame. rewrite checkStatus_world.
      unfold call. unfold try_catch, mbind, M_bind, bind, gets, mret, M_ret, ret, modify,
        throw, settle.
      cbn [is_get reading opt_method opt_body]. unfold getFromCache.
      rewrite Hempty, lookup_empty.
      cbn [JS.truthy pendingRequests set_cache]. rewrite Hsame.
      destruct settled; cbn; split; reflexivity. }
  split.
  - intros (answer & Hanswer & Hsuccess & Honline).
    destruct (clockIn_confirmed_state env w employeeName options answer
                Hanswer Hsuccess Honline) as (Hempty & Hpending).
    apply Hfresh; [exact Hempty |]. rewrite Hpending.
    apply call_pending_elsewhere. unfold cacheKey. cbn. discriminate.
  - intros (answer & Hanswer & Hsuccess & Honline).
    destruct (clockOut_confirmed_state env w employeeName options answer
                Hanswer Hsuccess Honline) as (Hempty & Hpending).
    apply Hfresh; [exact Hempty |]. rewrite Hpending.
    apply call_pending_elsewhere. unfold cacheKey. cbn. discriminate.
Qed.

End FreshStatus.

(** ** The roster of the employee manager *)

Section Roster.
Import JSString Core.
Variable env : Env.

(** Loading the roster never rejects, and what it returns is the roster
    the manager holds afterwards.  A roster that is not empty and was
    loaded less than five minutes ago is returned without any call, unless
    a refresh is forced.  Otherwise the call is made: an answer with a true
    [success] replaces the roster and restarts the five minutes; a failed
    call, or an answer without success, leaves roster and time as they
    were, so the caller gets the roster of the last good load. *)
Theorem roster_survives_a_failed_load (forceRefresh : bool) (m : EmployeeManager)
    (w : World) :
  let out := getEmployees env forceRefresh m w in
  let loaded := call env "/employees" (reading syncInterval) w in
  (exists m', fst out = Ok (employees m', m')) /\
  (forceRefresh = false -> employees m <> [] ->
   (now env - lastSync m < syncInterval)%Z ->
     out = (Ok (employees m, m), w)) /\
  (forceRefresh = true \/ employees m = [] \/ (syncInterval <= now env - lastSync m)%Z ->
     snd out = snd loaded /\
     match fst loaded with
     | Throw _ => fst out = Ok (employees m, m)
     | Ok response =>
         if JS.truthy (JS.get response "success")
         then forall items,
                JS.or_else (JS.get response "employees") (JS.Arr []) = JS.Arr items ->
                fst out = Ok (items, {| employees := items; lastSync := now env |})
         else fst out = Ok (employees m, m)
     end).
Proof.
  cbv zeta.
  assert (Hcall : forall w0,
            let tried :=
              try_catch
                (call env "/employees" (reading syncInterval) ≫= fun response =>
                 read response "success" ≫= fun success =>
                 if JS.truthy success
                 then mret (employees {| employees := roster_of (JS.get response "employees");
                                         lastSync := now env |},
                            {| employees := roster_of (JS.get response "employees");
                               lastSync := now env |})
                 else mret (employees m, m))
                (fun _ => mret (employees m, m)) w0 in
            snd tried = snd (call env "/employees" (reading syncInterval) w0) /\
            (exists m', fst tried = Ok (employees m', m')) /\
            match fst (call env "/employees" (reading syncInterval) w0) with
            | Throw _ => fst tried = Ok (employees m, m)
            | Ok response =>
                if JS.truthy (JS.get response "success")
                then forall items,
                       JS.or_else (JS.get response "employees") (JS.Arr []) = JS.Arr items ->
                       fst tried = Ok (items, {| employees := items; lastSync := now env |})
                else fst tried = Ok (employees m, m)
            end).
  { intros w0. cbv zeta.
    unfold try_catch, mbind, M_bind, bind, read, mret, M_ret, ret, throw.
    destruct (call env "/employees" (reading syncInterval) w0) as [[response | e] w1];
      cbn [fst snd]; [| split; [reflexivity | split; [now exists m | reflexivity]]].
    destruct response; cbn [JS.get JS.truthy fst snd];
      try (split; [reflexivity | split; [now exists m | reflexivity]]).
    destruct (JS.truthy (JS.lookup_prop "success" props)); cbn [fst snd].
    - split; [reflexivity |]. split; [eexists; reflexivity |].
      intros items Hitems. unfold roster_of. now rewrite Hitems.
    - split; [reflexivity | split; [now exists m | reflexivity]]. }
  unfold getEmployees, isCacheValid. split; [| split].
  - destruct (negb forceRefresh && _).
    + now exists m.
    + apply (Hcall w).
  - intros -> Hroster Hrecent. destruct (employees m) as [| x l] eqn:Hm; [easy |].
    cbn [negb length andb Nat.ltb Nat.leb].
    destruct (Z.ltb_spec (now env - lastSync m) syncInterval); [| lia].
    reflexivity.
  - intros Hstale.
    assert (Hgo : negb forceRefresh &&
                  ((0 <? length (employees m))%nat &&
                   (now env - lastSync m <? syncInterval)%Z) = false).
    { destruct Hstale as [-> | [-> | Hold]]; [reflexivity | apply andb_false_r |].
      destruct (Z.ltb_spec (now env - lastSync m) syncInterval); [lia |].
      now rewrite !andb_false_r. }
    rewrite Hgo. destruct (Hcall w) as (Hworld & _ & Hrest). split; assumption.
Qed.

End Roster.

Lemma makeRequest_stops_at_the_first_success_witness :
  exists n, (1 <= n <= 3)%nat /\
    snd (Core.makeRequest Samples.core_offline "/clockin" (Core.POST JS.Null)
           Samples.core_idle) =
    Core.set_netlog
      (fun l => l ++ repeat (Core.request_of "/clockin" (Core.POST JS.Null)) n)
      Samples.core_idle.
Proof.
  destruct (makeRequest_stops_at_the_first_success Samples.core_offline "/clockin"
              (Core.POST JS.Null) Samples.core_idle eq_refl) as (n & Hn & Hlog & _).
  exists n. split; assumption.
Defined.

(** Without connectivity the three attempts all go out, and the error
    names the last failure. *)
Example three_attempts_then_the_wrapped_error :
  Core.makeRequest Samples.core_offline "/clockin" (Core.POST JS.Null) Samples.core_idle =
  (Throw (PlainError "การเชื่อมต่อล้มเหลว: Failed to fetch"),
   Core.set_netlog
     (fun _ => repeat (Core.request_of "/clockin" (Core.POST JS.Null)) 3)
     Samples.core_idle).
Proof. vm_compute. reflexivity. Qed.

Lemma mutating_call_bypasses_the_cache_witness :
  Core.call Samples.core_online "/clockin" (Core.POST (Samples.clock_in_of "Somchai"))
            Samples.core_idle =
  Core.makeRequest Samples.core_online "/clockin" (Core.POST (Samples.clock_in_of "Somchai"))
                   Samples.core_idle.
Proof.
  apply (mutating_call_bypasses_the_cache Samples.core_online "/clockin"
           (Core.POST (Samples.clock_in_of "Somchai")) Samples.core_idle);
    reflexivity.
Defined.

Lemma successful_read_is_served_from_the_cache_witness :
  Core.call Samples.core_online_later "/employees" (Core.reading Core.syncInterval)
    (snd (Core.call Samples.core_online "/employees" (Core.reading Core.syncInterval)
            Samples.core_idle)) =
  (Ok Samples.confirmed_answer,
   snd (Core.call Samples.core_online "/employees" (Core.reading Core.syncInterval)
          Samples.core_idle)).
Proof.
  apply (successful_read_is_served_from_the_cache Samples.core_online
           Samples.core_online_later "/employees" (Core.reading Core.syncInterval)
           Samples.core_idle Samples.confirmed_answer).
  - reflexivity.
  - discriminate.
  - reflexivity.
  - reflexivity.
  - reflexivity.
  - reflexivity.
  - vm_compute. discriminate.
Defined.

Lemma online_clock_action_answers_with_an_envelope_witness :
  exists answer,
    fst (Core.clockIn Samples.core_online "Somchai" JS.Undefined Samples.core_idle) =
    Ok answer /\
    JS.get answer "success" = JS.Bool true.
Proof.
  destruct (online_clock_action_answers_with_an_envelope Samples.core_online
              Samples.core_idle "Somchai" JS.Undefined eq_refl)
    as [(answer & Hanswer & _ & _ & Hsent) _].
  cbn [JS.is_null] in Hsent. destruct Hsent as (_ & Hsuccess & _).
  exists answer. split; [exact Hanswer |]. rewrite Hsuccess. reflexivity.
Defined.

(** With options that are [null] nothing goes out, and the envelope
    reports the failure. *)
Example clock_in_with_null_options :
  Core.clockIn Samples.core_online "Somchai" JS.Null Samples.core_idle =
  (Ok (JS.Obj [ ("success", JS.Bool false);
                ("message", JS.Str "Cannot read properties of null") ]),
   Samples.core_idle).
Proof. vm_compute. reflexivity. Qed.

Lemma status_read_after_a_confirmed_clock_action_is_fresh_witness :
  exists n, (1 <= n <= 3)%nat /\
    Core.netlog
      (snd (Core.checkStatus Samples.core_online_later "Malee"
              (snd (Core.clockIn Samples.core_online "Somchai" JS.Undefined
                      Samples.core_idle)))) =
    Core.netlog (snd (Core.clockIn Samples.core_online "Somchai" JS.Undefined
                        Samples.core_idle)) ++
    repeat (Core.request_of ("/status/" +:+ JSString.encodeURIComponent "Malee")
                            (Core.reading 10000)) n.
Proof.
  destruct (status_read_after_a_confirmed_clock_action_is_fresh Samples.core_online
              Samples.core_online_later Samples.core_idle "Somchai" JS.Undefined "Malee")
    as [Hin _].
  destruct Hin as (_ & Hfresh & _).
  - eexists. split; [vm_compute; reflexivity |]. split; reflexivity.
  - apply Hfresh. reflexivity.
Defined.

(** A name in Thai script, with a space, in the path of a status read. *)
Example status_endpoint_of_a_thai_name :
  JSString.encodeURIComponent "สม ชาย/1" =
    "%E0%B8%AA%E0%B8%A1%20%E0%B8%8A%E0%B8%B2%E0%B8%A2%2F1" /\
  JSString.decodeURIComponent "%E0%B8%AA%E0%B8%A1%20%E0%B8%8A%E0%B8%B2%E0%B8%A2%2F1" =
    "สม ชาย/1".
Proof. vm_compute. split; reflexivity. Qed.

(** A roster loaded a minute ago is returned without a call; without
    connectivity an empty manager gets its empty roster back after the
    three attempts. *)
Example roster_samples :
  Core.getEmployees Samples.core_online_later false
    {| Core.employees := [ JS.Obj [ ("name", JS.Str "Somchai"); ("code", JS.Str "E01") ] ];
       Core.lastSync := 1793692745000 |} Samples.core_idle =
  (Ok ([ JS.Obj [ ("name", JS.Str "Somchai"); ("code", JS.Str "E01") ] ],
       {| Core.employees := [ JS.Obj [ ("name", JS.Str "Somchai"); ("code", JS.Str "E01") ] ];
          Core.lastSync := 1793692745000 |}),
   Samples.core_idle) /\
  fst (Core.getEmployees Samples.core_offline false
         {| Core.employees := []; Core.lastSync := 0 |} Samples.core_idle) =
  Ok ([], {| Core.employees := []; Core.lastSync := 0 |}) /\
  length (Core.netlog (snd (Core.getEmployees Samples.core_offline false
                              {| Core.employees := []; Core.lastSync := 0 |}
                              Samples.core_idle))) = 3%nat.
Proof. vm_compute. repeat split. Qed.

(** * More of the application: the account of a drain *)

Section AppAccount.
Import App AppSpec.
Variable a : Answers.

Lemma finish_account syncedCount failedCount s :
  queue (finish 0 syncedCount failedCount s) = queue s /\
  toasts (finish 0 syncedCount failedCount s) =
    toasts s ++ toasts_of syncedCount failedCount /\
  isOnline (finish 0 syncedCount failedCount s) = isOnline s.
Proof.
  unfold finish, toasts_of.
  destruct (0 <? syncedCount)%nat, (0 <? failedCount)%nat; cbn;
    rewrite ?app_nil_r, <- ?app_assoc; repeat split.
Qed.

Lemma advance_account n :
  forall todo syncedCount failedCount s,
    draining s -> (length todo <= n)%nat ->
    let s' := resume_n a n (advance 0 todo syncedCount failedCount s) in
    queue s' = drained a todo (queue s) /\
    toasts s' =
      toasts s ++
      toasts_of (syncedCount + length (List.filter (settles a) todo))
                (failedCount + length (List.filter (fun x => negb (settles a x)) todo)) /\
    isOnline s' = isOnline s.
Proof.
  induction n as [| n IHn]; intros todo.
  - destruct todo as [| action rest]; cbn [length]; intros; [| lia].
    cbn. rewrite !Nat.add_0_r. apply finish_account.
  - induction todo as [| action rest IHtodo];
      intros syncedCount failedCount s Hdraining Hlen.
    + destruct Hdraining as [[p Hrun] _]. cbv zeta. cbn [advance].
      rewrite resume_n_idle by now apply (finish_idle _ _ _ p).
      cbn. rewrite !Nat.add_0_r. apply finish_account.
    + cbv zeta. cbn [length] in Hlen. cbn [drained List.filter].
      assert (Hfailed : forall s1,
                draining s1 -> queue s1 = queue s -> toasts s1 = toasts s ->
                isOnline s1 = isOnline s ->
                settles a action = false ->
                let s' := resume_n a n (advance 0 rest syncedCount (S failedCount) s1) in
                queue s' = drained a rest (queue s) /\
                toasts s' =
                  toasts s ++
                  toasts_of (syncedCount + length (List.filter (settles a) rest))
                            (failedCount +
                             length (action :: List.filter (fun x => negb (settles a x)) rest)) /\
                isOnline s' = isOnline s).
      { intros s1 Hd1 Hq1 Ht1 Ho1 _. cbv zeta.
        destruct (IHn rest syncedCount (S failedCount) s1 Hd1) as (Hq & Ht & Ho); [lia |].
        rewrite Hq, Ht, Ho, Hq1, Ht1, Ho1. cbn [length].
        rewrite <- !Nat.add_succ_comm. repeat split. }
      assert (Hsuspended :
                draining (suspend 0 (Replaying action rest syncedCount failedCount) s)).
      { destruct Hdraining as [[p Hrun] Hflag].
        split; [cbn; rewrite Hrun; cbn; eauto | exact Hflag]. }
      assert (Hstep :
                resume a (suspend 0 (Replaying action rest syncedCount failedCount) s) =
                if replay_confirmed (replay_answer a action)
                then match remove_answer a action with
                     | Ok _ =>
                         advance 0 rest (S syncedCount) failedCount
                           (set_queue (remove_action (id action))
                              (suspend 0 (Replaying action rest syncedCount failedCount) s))
                     | Throw _ =>
                         advance 0 rest syncedCount (S failedCount)
                           (suspend 0 (Replaying action rest syncedCount failedCount) s)
                     end
                else advance 0 rest syncedCount (S failedCount)
                       (suspend 0 (Replaying action rest syncedCount failedCount) s)).
      { destruct Hdraining as [[p Hrun] Hflag]. unfold resume. cbn. rewrite Hrun. cbn.
        reflexivity. }
      destruct (settles a action) eqn:Hs; cbn [negb].
      * unfold settles in Hs. apply andb_true_iff in Hs as [Hs Hremoved].
        apply andb_true_iff in Hs as [Hclock Hconfirmed].
        cbn [advance]. rewrite Hclock. cbn [resume_n]. rewrite Hstep, Hconfirmed.
        destruct (remove_answer a action) as [[] | e]; [| discriminate].
        destruct (IHn rest (S syncedCount) failedCount
                    (set_queue (remove_action (id action))
                       (suspend 0 (Replaying action rest syncedCount failedCount) s)))
          as (Hq & Ht & Ho).
        -- destruct Hsuspended as [Hrun' Hflag']. split; assumption.
        -- lia.
        -- rewrite Hq, Ht, Ho. cbn [length]. rewrite <- !Nat.add_succ_comm. repeat split.
      * cbn [advance]. unfold settles in Hs.
        destruct (is_clock_action action) eqn:Hclock.
        -- cbn [resume_n]. rewrite Hstep.
           destruct (replay_confirmed (replay_answer a action)) eqn:Hconfirmed.
           ++ destruct (remove_answer a action) as [[] | e]; [discriminate |].
              apply (Hfailed _ Hsuspended); reflexivity.
           ++ apply (Hfailed _ Hsuspended); reflexivity.
        -- destruct (IHtodo syncedCount (S failedCount) s Hdraining) as (Hq & Ht & Ho);
             [lia |].
           rewrite Hq, Ht, Ho. cbn [length]. rewrite <- !Nat.add_succ_comm. repeat split.
Qed.

Lemma drained_filter todo : forall q,
  drained a todo q =
  List.filter (fun x => negb (existsb (fun g => bool_decide (id g = id x))
                                      (List.filter (settles a) todo))) q.
Proof.
  induction todo as [| y todo IH]; intros q; cbn [drained List.filter].
  - cbn. induction q as [| x q IHq]; [reflexivity |]. cbn. now f_equal.
  - rewrite IH. destruct (settles a y); [| reflexivity].
    unfold remove_action. rewrite filter_filter_l. apply List.filter_ext. intros x.
    cbn [existsb]. rewrite negb_orb. f_equal. f_equal.
    apply bool_decide_ext. split; congruence.
Qed.

Lemma same_key_same_entry (q : list Action) g x :
  NoDup (map id q) -> In g q -> In x q -> id g = id x -> g = x.
Proof.
  induction q as [| y q IH]; [intros _ [] |]. cbn [map]. intros Hnd Hg Hx Hid.
  apply NoDup_cons in Hnd as [Hy Hnd]. rewrite list_elem_of_In in Hy.
  destruct Hg as [<- | Hg], Hx as [<- | Hx]; try reflexivity.
  - exfalso. apply Hy. rewrite Hid. now apply in_map.
  - exfalso. apply Hy. rewrite <- Hid. now apply in_map.
  - now apply IH.
Qed.

(** A pass of the application's drain that lists the store goes through
    every entry once: the entries it counts as sent and as failed add up
    to the queue, the two toasts carry these counts, and an entry leaves
    the store only when a replay with its key was confirmed by the server
    and the removal went through.  An entry of another type than clock-in
    or clock-out, one whose replay was rejected, refused or answered from
    the offline path, and one whose removal failed, all stay queued. *)
Theorem app_drain_keeps_what_it_could_not_send (s : State) :
  idle s -> isOnline s = true -> store_answer a = Ok tt ->
  let s' := syncOfflineData_settled a s in
  let sent := List.filter (settles a) (queue s) in
  let failed := List.filter (fun x => negb (settles a x)) (queue s) in
  (length sent + length failed = length (queue s))%nat /\
  toasts s' = toasts s ++ toasts_of (length sent) (length failed) /\
  queue s' =
    List.filter (fun x => negb (existsb (fun g => bool_decide (id g = id x)) sent))
                (queue s) /\
  (forall x, In x (queue s') -> In x (queue s)) /\
  (forall x, In x (queue s) -> ~ In x (queue s') ->
     exists g, In g (queue s) /\ id g = id x /\ settles a g = true) /\
  (NoDup (map id (queue s)) -> queue s' = failed).
Proof.
  intros [Hrun Hflag] Honline Hstore. cbv zeta.
  assert (Hcount : (length (List.filter (settles a) (queue s)) +
                    length (List.filter (fun x => negb (settles a x)) (queue s)) =
                    length (queue s))%nat).
  { induction (queue s) as [| x q IH]; [reflexivity |]. cbn.
    destruct (settles a x); cbn; lia. }
  assert (Hfinal : queue (syncOfflineData_settled a s) = drained a (queue s) (queue s) /\
                   toasts (syncOfflineData_settled a s) =
                     toasts s ++
                     toasts_of (length (List.filter (settles a) (queue s)))
                               (length (List.filter (fun x => negb (settles a x)) (queue s)))).
  { unfold syncOfflineData_settled, syncOfflineData. rewrite Hflag, Honline.
    cbn [orb negb resume_n].
    set (started := set_running (fun ps => ps ++ [AwaitingStore]) (set_flag true s)).
    assert (Hstarted : draining started).
    { split; [cbn; rewrite Hrun; cbn; eauto | reflexivity]. }
    assert (Hstep : resume a started =
                    match queue s with
                    | [] => leave 0 (set_flag false started)
                    | _ :: _ => advance 0 (queue s) 0 0 started
                    end).
    { unfold resume, started. cbn. rewrite Hrun. cbn. rewrite Hstore.
      destruct (queue s); reflexivity. }
    rewrite Hstep. destruct (queue s) as [| action rest] eqn:Hqueue.
    - rewrite resume_n_idle by (split; cbn; [now rewrite Hrun | reflexivity]).
      cbn. rewrite Hqueue, app_nil_r. split; reflexivity.
    - destruct (advance_account (length (action :: rest)) (action :: rest) 0 0 started
                  Hstarted) as (Hq & Ht & _); [lia |].
      cbn [queue set_running set_flag toasts started] in Hq, Ht. rewrite Hqueue in Hq.
      cbn [length] in *. split; [exact Hq | exact Ht]. }
  destruct Hfinal as (Hq & Ht). rewrite drained_filter in Hq.
  split; [exact Hcount |]. split; [exact Ht |]. split; [exact Hq |]. split; [| split].
  - intros x Hx. rewrite Hq in Hx. now apply filter_In in Hx.
  - intros x Hx Hgone. rewrite Hq in Hgone.
    destruct (existsb (fun g => bool_decide (id g = id x))
                      (List.filter (settles a) (queue s))) eqn:Hex.
    + apply existsb_exists in Hex as (g & Hg & Hid). apply filter_In in Hg as [Hg Hs].
      apply bool_decide_eq_true in Hid. now exists g.
    + exfalso. apply Hgone. apply filter_In. split; [exact Hx | now rewrite Hex].
  - intros Hnd. rewrite Hq. apply List.filter_ext_in. intros x Hx. f_equal.
    destruct (settles a x) eqn:Hs.
    + apply existsb_exists. exists x. split; [| now apply bool_decide_eq_true].
      apply filter_In. now split.
    + destruct (existsb _ _) eqn:Hex; [| reflexivity].
      apply existsb_exists in Hex as (g & Hg & Hid). apply filter_In in Hg as [Hg Hsg].
      apply bool_decide_eq_true in Hid.
      rewrite (same_key_same_entry (queue s) g x Hnd Hg Hx Hid) in Hsg. congruence.
Qed.

End AppAccount.

(** * More of the page script: its cache, its retries and its queue *)

Section PageCache.
Import Page.

(** The cache of the page script.  An answer that is an object is kept
    under the key of its request, whatever the method, and resolves every
    request with the same key for less than thirty seconds: such a request
    is not sent.  From thirty seconds on the request goes out again.  An
    answer that is no object is not kept, and the requests with another
    key are not concerned. *)
Theorem page_cache_answers_for_thirty_seconds (stored now : Z)
    (options again : AjaxOptions) (data : JS.Value) (s : State) :
  cacheKey again = cacheKey options ->
  let s1 := ajax_success stored options data s in
  (is_object data = true ->
     ((now - stored < 30000)%Z ->
        cached_answer now again s1 = Some data /\ optimizedAjax now again s1 = s1) /\
     ((30000 <= now - stored)%Z ->
        cached_answer now again s1 = None /\
        sent (optimizedAjax now again s1) = sent s1 ++ [again])) /\
  (is_object data = false -> s1 = s) /\
  (forall other, cacheKey other <> cacheKey options ->
     cached_answer now other s1 = cached_answer now other s /\
     sent (optimizedAjax now other s1) = sent (optimizedAjax now other s)).
Proof.
  intros Hkey. cbv zeta. unfold ajax_success, cached_answer, optimizedAjax.
  split; [| split].
  - intros ->. cbn [apiCache sent]. rewrite Hkey, lookup_insert_eq. split.
    + intros Hfresh. destruct (Z.ltb_spec (now - stored) 30000); [| lia]. now split.
    + intros Hold. destruct (Z.ltb_spec (now - stored) 30000); [lia |]. now split.
  - now intros ->.
  - intros other Hother. destruct (is_object data); [| now split].
    cbn [apiCache sent]. rewrite lookup_insert_ne by congruence.
    destruct (apiCache s !! cacheKey other) as [[d t] |]; [| now split].
    destruct (now - t <? 30000)%Z; now split.
Qed.

End PageCache.

Section PageRetries.
Import Page.

Lemma ajax_error_count options status p :
  retryCount (snd (ajax_error options status p)) =
  match fst (ajax_error options status p) with
  | Retried => S (retryCount p)
  | Rejected => 0%nat
  end /\
  (fst (ajax_error options status p) = Retried <->
   (retryCount p < maxRetries)%nat /\ (status = "timeout" \/ status = "error")) /\
  length (sent (page (snd (ajax_error options status p)))) =
  (length (sent (page p)) +
   match fst (ajax_error options status p) with Retried => 1 | Rejected => 0 end)%nat.
Proof.
  unfold ajax_error.
  destruct (Nat.ltb_spec (retryCount p) maxRetries) as [Hlt | Hge]; cbn [andb].
  - destruct (String.eqb_spec status "timeout") as [-> | Ht]; cbn [orb fst snd].
    + split; [reflexivity |]. split; [| cbn; rewrite length_app; reflexivity].
      split; [intros _; split; [exact Hlt | now left] | reflexivity].
    + destruct (String.eqb_spec status "error") as [-> | He]; cbn [fst snd].
      * split; [reflexivity |]. split; [| cbn; rewrite length_app; reflexivity].
        split; [intros _; split; [exact Hlt | now right] | reflexivity].
      * split; [reflexivity |]. split; [| cbn; lia].
        split; [discriminate | intros [_ [H | H]]; contradiction].
  - cbn [fst snd]. split; [reflexivity |]. split; [| cbn; lia].
    split; [discriminate | intros [H _]; lia].
Qed.

(** The retries of the page script draw on one counter for all requests.
    The counter is the number of retries since the last rejection,
    whichever requests they were for and whether those succeeded in the
    end; it never passes three.  A failure is retried exactly when its
    status is [timeout] or [error] and the counter is below three;
    otherwise its promise is rejected and the counter starts again.  Each
    retry sends the request once more. *)
Theorem page_retry_budget_is_shared (p : Perf) (replies : list Reply) :
  (retryCount p <= maxRetries)%nat ->
  let p' := after_replies p replies in
  let tally := fun n v => match v with Retried => S n | Rejected => 0%nat end in
  retryCount p' = fold_left tally (verdicts p replies) (retryCount p) /\
  (retryCount p' <= maxRetries)%nat /\
  length (sent (page p')) =
    (length (sent (page p)) +
     length (List.filter (fun v => match v with Retried => true | Rejected => false end)
                         (verdicts p replies)))%nat /\
  (forall options status,
     fst (ajax_error options status p') = Retried <->
     (retryCount p' < maxRetries)%nat /\ (status = "timeout" \/ status = "error")).
Proof.
  cbv zeta. revert p. induction replies as [| r rest IH]; intros p Hbound.
  - cbn. split; [reflexivity |]. split; [exact Hbound |]. split; [lia |].
    intros options status. apply (ajax_error_count options status p).
  - cbn [after_replies verdicts]. destruct r as [now options data | options status].
    + cbn [app]. assert (Hb : (retryCount (on_reply p (Success now options data)) <=
                               maxRetries)%nat) by exact Hbound.
      destruct (IH _ Hb) as (Hcount & Hle & Hsent & Hnext).
      split; [exact Hcount |]. split; [exact Hle |]. split; [| exact Hnext].
      rewrite Hsent. f_equal. cbn. unfold ajax_success. now destruct (is_object data).
    + destruct (ajax_error_count options status p) as (Hc & Hv & Hs).
      assert (Hb : (retryCount (on_reply p (Failure options status)) <= maxRetries)%nat).
      { cbn [on_reply]. rewrite Hc.
        destruct (fst (ajax_error options status p)); [| unfold maxRetries; lia].
        destruct Hv as [Hv _]. specialize (Hv eq_refl). lia. }
      destruct (IH _ Hb) as (Hcount & Hle & Hsent & Hnext).
      split; [| split; [exact Hle | split; [| exact Hnext]]].
      * rewrite Hcount. cbn [on_reply app fold_left]. rewrite Hc.
        now destruct (fst (ajax_error options status p)).
      * rewrite Hsent. cbn [on_reply app List.filter]. rewrite Hs.
        destruct (fst (ajax_error options status p)); cbn [length]; lia.
Qed.

End PageRetries.

Section PageQueue.
Import Page.

Lemma optimizedAjax_frame now options s :
  onLine (optimizedAjax now options s) = onLine s /\
  offline_actions (optimizedAjax now options s) = offline_actions s /\
  apiCache (optimizedAjax now options s) = apiCache s /\
  running (optimizedAjax now options s) = running s /\
  sent (optimizedAjax now options s) =
    sent s ++ match cached_answer now options s with Some _ => [] | None => [options] end.
Proof.
  unfold optimizedAjax, cached_answer.
  destruct (apiCache s !! cacheKey options) as [[d t] |]; [| repeat split].
  destruct (now - t <? 30000)%Z; cbn; rewrite ?app_nil_r; repeat split.
Qed.

Lemma replays_frame now actions : forall s,
  let s' := fold_left (fun st action => optimizedAjax now (replay_request action) st)
                      actions s in
  onLine s' = onLine s /\ offline_actions s' = offline_actions s /\
  apiCache s' = apiCache s /\ running s' = running s /\
  sent s' =
    sent s ++
    map replay_request
        (List.filter (fun action =>
                        match cached_answer now (replay_request action) s with
                        | Some _ => false
                        | None => true
                        end) actions).
Proof.
  induction actions as [| action rest IH]; intros s; cbv zeta.
  - cbn. rewrite app_nil_r. repeat split.
  - cbn [fold_left List.filter].
    destruct (optimizedAjax_frame now (replay_request action) s) as (H1 & H2 & H3 & H4 & H5).
    destruct (IH (optimizedAjax now (replay_request action) s)) as (I1 & I2 & I3 & I4 & I5).
    rewrite I1, I2, I3, I4, I5, H1, H2, H3, H4, H5.
    repeat split. rewrite <- app_assoc. f_equal.
    assert (Hsame : forall x, cached_answer now x (optimizedAjax now (replay_request action) s)
                              = cached_answer now x s).
    { intros x. unfold cached_answer. now rewrite H3. }
    assert (Hfilter :
              List.filter (fun x => match cached_answer now (replay_request x)
                                            (optimizedAjax now (replay_request action) s) with
                                    | Some _ => false
                                    | None => true
                                    end) rest =
              List.filter (fun x => match cached_answer now (replay_request x) s with
                                    | Some _ => false
                                    | None => true
                                    end) rest).
    { apply List.filter_ext. intros x. now rewrite Hsame. }
    rewrite Hfilter.
    destruct (cached_answer now (replay_request action) s); reflexivity.
Qed.

(** The queue of the page script is first in, first out: an action is
    stored behind those already there, and a pass that starts with
    connectivity asks for the replay of every stored action in the order
    of storage.  A replay goes out unless the cache holds a fresh answer
    for the same request; the pass keeps the array it read. *)
Theorem page_drain_replays_in_the_order_of_storage (now : Z) (s : State) :
  onLine s = true ->
  offline_actions s <> [] ->
  let s' := syncOfflineActions now s in
  let uncached := fun action =>
    match cached_answer now (replay_request action) s with
    | Some _ => false
    | None => true
    end in
  sent s' = sent s ++ map replay_request (List.filter uncached (offline_actions s)) /\
  running s' = running s ++ [ offline_actions s ] /\
  offline_actions s' = offline_actions s /\
  (forall stored random type data,
     offline_actions (storeOfflineAction stored random type data s) =
     offline_actions s ++
     [ {| type := type; data := data; timestamp := stored; id := (stored, random) |} ]).
Proof.
  intros Honline Hqueue. cbv zeta. unfold syncOfflineActions. rewrite Honline. cbn [negb].
  destruct (offline_actions s) as [| action rest] eqn:Hactions; [contradiction |].
  destruct (replays_frame now (action :: rest) s) as (H1 & H2 & H3 & H4 & H5).
  cbn [sent running offline_actions]. rewrite H5, H4, H2, Hactions. repeat split.
  intros stored random type data. cbn. now rewrite Hactions.
Qed.

(** The end of a pass of the page script.  When no replay was resolved the
    stored queue is left alone.  When one was, the queue is overwritten
    with the actions of the array read at the start of the pass whose key
    is not the key of a resolved replay: an action that was stored while
    the pass was waiting is not in that array, and is gone afterwards. *)
Theorem page_drain_writes_back_its_snapshot (k : nat) (resolved : list bool)
    (snapshot : list Action) (s : State) :
  running s !! k = Some snapshot ->
  let s' := allSettled k resolved s in
  let synced :=
    List.filter (fun af => snd af && id_truthy (id (fst af))) (combine snapshot resolved) in
  running s' = take k (running s) ++ drop (S k) (running s) /\
  sent s' = sent s /\ apiCache s' = apiCache s /\
  (synced = [] -> offline_actions s' = offline_actions s) /\
  (synced <> [] ->
     offline_actions s' =
       List.filter (fun x => negb (existsb (fun af => bool_decide (id (fst af) = id x))
                                           synced)) snapshot /\
     (forall x, In x (offline_actions s') -> In x snapshot) /\
     (forall x, In x (offline_actions s) -> ~ In x snapshot ->
        ~ In x (offline_actions s'))).
Proof.
  intros Hpass. cbv zeta. unfold allSettled. rewrite Hpass.
  set (synced := List.filter (fun af => snd af && id_truthy (id (fst af)))
                             (combine snapshot resolved)).
  rewrite length_map.
  assert (Hfilter :
            List.filter (fun action =>
                           negb (existsb (fun key => bool_decide (key = id action))
                                         (map (fun af => id (fst af)) synced))) snapshot =
            List.filter (fun x => negb (existsb (fun af => bool_decide (id (fst af) = id x))
                                                synced)) snapshot).
  { apply List.filter_ext. intros x. f_equal. clear.
    induction synced as [| af l IH]; [reflexivity |]. cbn. now rewrite IH. }
  destruct synced as [| af l] eqn:Hsynced; cbn [length Nat.ltb Nat.leb].
  - cbn. do 3 (split; [reflexivity |]). split; [reflexivity |].
    intros Hsome. now contradiction Hsome.
  - cbn [running sent apiCache offline_actions]. do 3 (split; [reflexivity |]).
    split; [discriminate |]. intros _. split; [exact Hfilter |]. split.
    + intros x Hx. rewrite Hfilter in Hx. now apply filter_In in Hx.
    + intros x _ Hout Hx. rewrite Hfilter in Hx. apply filter_In in Hx. tauto.
Qed.

End PageQueue.

(** An action stored while a pass is waiting for its answers is lost when
    the pass ends with a success. *)
Example action_stored_during_a_pass_is_lost :
  let started := Page.syncOfflineActions 1793692800900 Samples.page_idle in
  let meanwhile :=
    Page.storeOfflineAction 1793692801000 5 "clockout" (Samples.clock_in_of "Malee") started in
  map Page.type (Page.offline_actions meanwhile) = [ "clockin"; "clockout" ] /\
  Page.offline_actions (Page.allSettled 0 [ true ] meanwhile) = [].
Proof. vm_compute. split; reflexivity. Qed.

(** ** The application and the page script on the sample data *)

Lemma app_drain_keeps_what_it_could_not_send_witness :
  App.toasts (App.syncOfflineData_settled Samples.clock_ins_accepted Samples.app_idle) =
    [ "ส่งข้อมูลออฟไลน์ 1 รายการเรียบร้อย"; "ส่งข้อมูลไม่สำเร็จ 1 รายการ" ] /\
  map App.type
      (App.queue (App.syncOfflineData_settled Samples.clock_ins_accepted Samples.app_idle)) =
    [ "clockout" ].
Proof.
  destruct (app_drain_keeps_what_it_could_not_send Samples.clock_ins_accepted
              Samples.app_idle (conj eq_refl eq_refl) eq_refl eq_refl)
    as (_ & Htoasts & Hqueue & _).
  split; [exact Htoasts |]. rewrite Hqueue. reflexivity.
Defined.

Lemma page_cache_answers_for_thirty_seconds_witness :
  Page.cached_answer 1793692829999 (Samples.page_clock_in "Somchai")
    (Page.ajax_success 1793692800000 (Samples.page_clock_in "Somchai")
       Samples.confirmed_answer Samples.page_idle) = Some Samples.confirmed_answer /\
  Page.optimizedAjax 1793692829999 (Samples.page_clock_in "Somchai")
    (Page.ajax_success 1793692800000 (Samples.page_clock_in "Somchai")
       Samples.confirmed_answer Samples.page_idle) =
  Page.ajax_success 1793692800000 (Samples.page_clock_in "Somchai")
    Samples.confirmed_answer Samples.page_idle.
Proof.
  apply (proj1 (proj1 (page_cache_answers_for_thirty_seconds 1793692800000 1793692829999
                         (Samples.page_clock_in "Somchai") (Samples.page_clock_in "Somchai")
                         Samples.confirmed_answer Samples.page_idle eq_refl) eq_refl)).
  reflexivity.
Defined.

(** At thirty seconds sharp the same request goes out again. *)
Example page_cache_at_thirty_seconds :
  Page.cached_answer 1793692830000 (Samples.page_clock_in "Somchai")
    (Page.ajax_success 1793692800000 (Samples.page_clock_in "Somchai")
       Samples.confirmed_answer Samples.page_idle) = None.
Proof. vm_compute. reflexivity. Qed.

Lemma page_retry_budget_is_shared_witness :
  Page.retryCount
    (Page.after_replies {| Page.page := Samples.page_idle; Page.retryCount := 0 |}
       [ Page.Failure (Samples.page_clock_in "Somchai") "timeout";
         Page.Failure (Samples.page_clock_in "Somchai") "error";
         Page.Success 1793692800000 (Samples.page_clock_in "Somchai")
                      Samples.confirmed_answer;
         Page.Failure (Samples.page_clock_in "Malee") "error" ]) = 3%nat /\
  fst (Page.ajax_error (Samples.page_clock_in "Malee") "error"
         (Page.after_replies {| Page.page := Samples.page_idle; Page.retryCount := 0 |}
            [ Page.Failure (Samples.page_clock_in "Somchai") "timeout";
              Page.Failure (Samples.page_clock_in "Somchai") "error";
              Page.Success 1793692800000 (Samples.page_clock_in "Somchai")
                           Samples.confirmed_answer;
              Page.Failure (Samples.page_clock_in "Malee") "error" ])) = Page.Rejected.
Proof.
  destruct (page_retry_budget_is_shared
              {| Page.page := Samples.page_idle; Page.retryCount := 0 |}
              [ Page.Failure (Samples.page_clock_in "Somchai") "timeout";
                Page.Failure (Samples.page_clock_in "Somchai") "error";
                Page.Success 1793692800000 (Samples.page_clock_in "Somchai")
                             Samples.confirmed_answer;
                Page.Failure (Samples.page_clock_in "Malee") "error" ]) as (Hcount & _).
  - unfold Page.maxRetries. cbn. lia.
  - split; [exact Hcount | reflexivity].
Defined.

Lemma page_drain_replays_in_the_order_of_storage_witness :
  Page.sent (Page.syncOfflineActions 1793692800900 Samples.page_idle) =
  [ Page.replay_request
      {| Page.type := "clockin"; Page.data := Samples.clock_in_of "Somchai";
         Page.timestamp := 1793692800000; Page.id := (1793692800000, 17)%Z |} ].
Proof.
  destruct (page_drain_replays_in_the_order_of_storage 1793692800900 Samples.page_idle)
    as (Hsent & _).
  - reflexivity.
  - discriminate.
  - exact Hsent.
Defined.

Lemma page_drain_writes_back_its_snapshot_witness :
  Page.offline_actions
    (Page.allSettled 0 [ false ]
       (Page.syncOfflineActions 1793692800900 Samples.page_idle)) =
  Page.offline_actions Samples.page_idle.
Proof.
  destruct (page_drain_writes_back_its_snapshot 0 [ false ]
              (Page.offline_actions Samples.page_idle)
              (Page.syncOfflineActions 1793692800900 Samples.page_idle) eq_refl)
    as (_ & _ & _ & Hkept & _).
  apply Hkept. reflexivity.
Defined.
